(** * thunder.viz.colorize: the [Colorize] class, embedded and verified

    A shallow embedding of [python/thunder/viz/colorize.py].

    Arrays are numpy arrays of floats.  An array is modelled by its shape
    and its indexing function; floats are idealised as real numbers (no
    rounding, no NaN, no infinities; the sign of a zero shows in one place
    only, see [np.arctan2_1]).  Exceptions are an
    explicit result type.  The functions of numpy used by the module are
    modelled in [np].  The functions of matplotlib that [transform] calls
    are an interface, [Matplotlib], with the instance [matplotlib] that
    follows the library's algorithms (module [mpl]; of the registered
    colormaps it holds [gray] only); the routines of scipy
    and numpy that [optimize] calls are an interface, [Numerics]. *)

From Stdlib Require Import String Reals Lra Lia ZArith Bool Arith List FunctionalExtensionality.
Import ListNotations.
Open Scope R_scope.

(** ** Exceptions *)

Inductive exn : Type :=
| DimsError          (* Exception raised by _checkDims *)
| MixedDimsError     (* bare Exception raised by _checkMixedDims *)
| NotUnderstood      (* Exception('Colorization method not understood') *)
| InvalidInput       (* Exception('Input array must be two-dimensional') *)
| ValueError         (* raised inside numpy, matplotlib or scipy *)
| IndexError
| TypeError
| UnboundLocalError. (* a local read before any branch assigned it *)

Inductive result (A : Type) : Type :=
| Ok (a : A)
| Raise (e : exn).
Arguments Ok {A} a.
Arguments Raise {A} e.

Definition bind {A B : Type} (m : result A) (k : A -> result B) : result B :=
  match m with
  | Ok a => k a
  | Raise e => Raise e
  end.

Notation "x <- m ;; k" := (bind m (fun x => k))
  (at level 61, m at next level, right associativity).
Notation "m ;;; k" := (bind m (fun _ => k))
  (at level 61, right associativity).

(** [for x in xs: acc = body(acc, x)], stopping at the first exception. *)
Fixpoint for_each {A S : Type} (xs : list A) (body : S -> A -> result S) (acc : S)
  : result S :=
  match xs with
  | [] => Ok acc
  | x :: xs' => acc' <- body acc x ;; for_each xs' body acc'
  end.

(** Python's [range(0, n)]. *)
Definition range (n : nat) : list nat := seq 0 n.

(** Python's [enumerate]. *)
Definition enumerate {A : Type} (xs : list A) : list (nat * A) :=
  combine (seq 0 (length xs)) xs.

(** ** Arrays *)

Record ndarray : Type := mkarr {
  shape : list nat;
  get : list nat -> R
}.

Definition ndim (a : ndarray) : nat := length (shape a).

(** An index is in bounds when it has one entry per axis, each below the
    axis length. *)
Definition in_bounds (idx sh : list nat) : Prop := Forall2 lt idx sh.

(** All indices of a shape, in row-major order. *)
Fixpoint indices (sh : list nat) : list (list nat) :=
  match sh with
  | [] => [[]]
  | d :: sh' => flat_map (fun i => map (cons i) (indices sh')) (seq 0 d)
  end.

Definition elements (a : ndarray) : list R := map (get a) (indices (shape a)).

(** Arrays given by nested lists, as [asarray] builds them. *)
Definition array2 (rows : list (list R)) : ndarray :=
  mkarr [length rows; length (hd [] rows)]
        (fun idx => nth (nth 1 idx 0%nat) (nth (nth 0 idx 0%nat) rows []) 0).

Definition array3 (planes : list (list (list R))) : ndarray :=
  mkarr [length planes; length (hd [] planes); length (hd [] (hd [] planes))]
        (fun idx => nth (nth 2 idx 0%nat)
                        (nth (nth 1 idx 0%nat) (nth (nth 0 idx 0%nat) planes []) []) 0).

(** ** The functions of numpy the module uses *)

Module np.

Definition map (f : R -> R) (a : ndarray) : ndarray :=
  mkarr (shape a) (fun idx => f (get a idx)).

(** Elementwise binary operation on two arrays of one shape. *)
Definition map2 (f : R -> R -> R) (a b : ndarray) : ndarray :=
  mkarr (shape a) (fun idx => f (get a idx) (get b idx)).

Definition zeros (sh : list nat) : ndarray := mkarr sh (fun _ => 0).
Definition ones (sh : list nat) : ndarray := mkarr sh (fun _ => 1).

(** [clip(a, lo, hi)] is [minimum(hi, maximum(a, lo))]. *)
Definition clip1 (lo hi x : R) : R := Rmin hi (Rmax x lo).
Definition clip (a : ndarray) (lo hi : R) : ndarray := map (clip1 lo hi) a.

(** [clip(a, lo, inf)]: the upper bound never binds. *)
Definition clip_lo1 (lo x : R) : R := Rmax x lo.
Definition clip_lo (a : ndarray) (lo : R) : ndarray := map (clip_lo1 lo) a.

Definition maximum (a b : ndarray) : ndarray := map2 Rmax a b.
Definition mul_scalar (a : ndarray) (k : R) : ndarray := map (fun x => x * k) a.
Definition neg (a : ndarray) : ndarray := map Ropp a.
Definition sqrt (a : ndarray) : ndarray := map R_sqrt.sqrt a.

(** [a.min()] and [a.max()]; [None] on an array without elements. *)
Definition amin (a : ndarray) : option R :=
  match elements a with
  | [] => None
  | x :: xs => Some (fold_left Rmin xs x)
  end.

Definition amax (a : ndarray) : option R :=
  match elements a with
  | [] => None
  | x :: xs => Some (fold_left Rmax xs x)
  end.

(** [a[k]]: index the first axis. *)
Definition getitem (a : ndarray) (k : nat) : ndarray :=
  mkarr (tl (shape a)) (fun idx => get a (k :: idx)).

(** [a[:, ..., :, i]] with [k] colons: index axis [k]. *)
Definition take (k i : nat) (a : ndarray) : ndarray :=
  mkarr (firstn k (shape a) ++ skipn (S k) (shape a))
        (fun idx => get a (firstn k idx ++ i :: skipn k idx)).

(** [a[:, ..., :, i] = v] with [k] colons, [v] of the shape of the slice. *)
Definition put (k i : nat) (a v : ndarray) : ndarray :=
  mkarr (shape a)
        (fun idx => if (nth k idx 0 =? i)%nat
                    then get v (firstn k idx ++ skipn (S k) idx)
                    else get a idx).

(** [a[:, ..., :, 0:3]] with [k] colons. *)
Definition slice03 (k : nat) (a : ndarray) : ndarray :=
  mkarr (firstn k (shape a) ++ Nat.min (nth k (shape a) 0%nat) 3 :: skipn (S k) (shape a))
        (get a).

Fixpoint index_of (m : nat) (axes : list nat) : nat :=
  match axes with
  | [] => 0
  | ax :: axes' => if (ax =? m)%nat then 0%nat else S (index_of m axes')
  end.

(** [transpose(a, axes)]: axis [k] of the result is axis [axes[k]] of [a]. *)
Definition transpose (a : ndarray) (axes : list nat) : ndarray :=
  mkarr (List.map (fun ax => nth ax (shape a) 0%nat) axes)
        (fun idx => get a (List.map (fun m => nth (index_of m axes) idx 0%nat)
                                    (seq 0 (length axes)))).

(** [dstack((a, b, c))] of two-dimensional arrays: a new last axis. *)
Definition dstack (arrs : list ndarray) : ndarray :=
  mkarr (shape (hd (zeros []) arrs) ++ [length arrs])
        (fun idx => get (nth (last idx 0%nat) arrs (zeros [])) (removelast idx)).

(** *** Broadcasting *)

Fixpoint broadcast_rev (s1 s2 : list nat) : option (list nat) :=
  match s1, s2 with
  | [], s => Some s
  | s, [] => Some s
  | a :: s1', b :: s2' =>
      match broadcast_rev s1' s2' with
      | None => None
      | Some r =>
          if (a =? b)%nat then Some (a :: r)
          else if (a =? 1)%nat then Some (b :: r)
          else if (b =? 1)%nat then Some (a :: r)
          else None
      end
  end.

Definition broadcast_shapes (s1 s2 : list nat) : option (list nat) :=
  option_map (@rev nat) (broadcast_rev (rev s1) (rev s2)).

(** The index into an operand of shape [s] for the result index [idx]:
    axes are aligned on the right and an axis of length 1 is repeated. *)
Fixpoint squash (s idx : list nat) : list nat :=
  match s, idx with
  | d :: s', i :: idx' => (if (d =? 1)%nat then 0%nat else i) :: squash s' idx'
  | _, _ => []
  end.

Definition operand_index (s idx : list nat) : list nat :=
  squash s (skipn (length idx - length s) idx).

(** A binary ufunc ([add], [multiply]) applied to two arrays. *)
Definition ufunc2 (f : R -> R -> R) (a b : ndarray) : result ndarray :=
  match broadcast_shapes (shape a) (shape b) with
  | None => Raise ValueError
  | Some sh =>
      Ok (mkarr sh (fun idx => f (get a (operand_index (shape a) idx))
                                 (get b (operand_index (shape b) idx))))
  end.

(** [broadcast_to(v, sh)] as an assignment does it: leading axes of
    length 1 in excess are dropped, the rest must broadcast to [sh]. *)
Definition broadcast_to (v : ndarray) (sh : list nat) : result ndarray :=
  let extra := (ndim v - length sh)%nat in
  if forallb (Nat.eqb 1) (firstn extra (shape v)) then
    let sv := skipn extra (shape v) in
    match broadcast_shapes sv sh with
    | Some sh' =>
        if list_eq_dec Nat.eq_dec sh' sh
        then Ok (mkarr sh (fun idx =>
               get v (repeat 0%nat extra ++ operand_index sv idx)))
        else Raise ValueError
    | None => Raise ValueError
    end
  else Raise ValueError.

(** Checked forms of [take] and [put], for indexing that can fail. *)
Definition take_checked (k i : nat) (a : ndarray) : result ndarray :=
  if (k <? ndim a)%nat && (i <? nth k (shape a) 0%nat)%nat
  then Ok (take k i a) else Raise IndexError.

Definition put_checked (k i : nat) (a v : ndarray) : result ndarray :=
  if (k <? ndim a)%nat && (i <? nth k (shape a) 0%nat)%nat
  then v' <- broadcast_to v (shape (take k i a)) ;; Ok (put k i a v')
  else Raise IndexError.

(** *** [allclose] on two tuples of integers

    [allclose(a, b)] is [all(|a - b| <= 1e-8 + 1e-5 * |b|)] after
    broadcasting; the tuples are one-dimensional arrays. *)
Definition isclose (a b : nat) : bool :=
  (Z.abs (Z.of_nat a - Z.of_nat b) * 100000000 <=? 1 + 1000 * Z.of_nat b)%Z.

Fixpoint all2 (d1 d2 : list nat) : bool :=
  match d1, d2 with
  | a :: d1', b :: d2' => isclose a b && all2 d1' d2'
  | _, _ => true
  end.

Definition allclose (d1 d2 : list nat) : result bool :=
  if (length d1 =? length d2)%nat then Ok (all2 d1 d2)
  else if (length d1 =? 1)%nat then Ok (forallb (isclose (hd 0%nat d1)) d2)
  else if (length d2 =? 1)%nat then Ok (forallb (fun a => isclose a (hd 0%nat d2)) d1)
  else Raise ValueError.

(** *** [arctan2] and the float remainder

    [arctan2(y, x)] is the angle of the point (x, y), in [-pi, pi].  Where an
    argument is zero numpy answers by the sign of the zero.  The module
    calls [arctan2] in one place, on the negated channels of the normalised
    image: a normalised zero is [+0.0] (a difference [x - x], or the fill of
    a constant image), so a zero argument arrives as [-0.0], and a zero
    argument stands for [-0.0] here: [arctan2(-0.0, x)] is [-pi] for
    [x < 0], and [arctan2(-0.0, -0.0)] is [-pi]. *)

Definition arctan2_1 (y x : R) : R :=
  if Rlt_dec 0 x then atan (y / x)
  else if Rlt_dec x 0 then
    (if Rlt_dec 0 y then atan (y / x) + PI else atan (y / x) - PI)
  else if Rlt_dec 0 y then PI / 2
  else if Rlt_dec y 0 then - (PI / 2)
  else - PI.

Definition arctan2 (y x : ndarray) : ndarray := map2 arctan2_1 y x.

(** [x % m], the remainder with the sign of [m]. *)
Definition mod1 (m x : R) : R := x - IZR (Zfloor (x / m)) * m.

(** *** [flatten], [reshape] and [tolist] *)

Definition size (a : ndarray) : nat := length (indices (shape a)).

Definition flatten (a : ndarray) : ndarray :=
  mkarr [size a] (fun idx => get a (nth (nth 0 idx 0%nat) (indices (shape a)) [])).

(** The row-major offset of an index. *)
Fixpoint ravel (sh idx : list nat) (acc : nat) : nat :=
  match sh, idx with
  | d :: sh', i :: idx' => ravel sh' idx' (acc * d + i)
  | _, _ => acc
  end.

Definition reshape (a : ndarray) (sh : list nat) : result ndarray :=
  if (size a =? length (indices sh))%nat
  then Ok (mkarr sh (fun idx => get (flatten a) [ravel sh idx 0%nat]))
  else Raise ValueError.

(** [a.tolist()] of a two-dimensional array. *)
Definition tolist (a : ndarray) : list (list R) :=
  List.map (fun i => List.map (fun j => get a [i; j]) (seq 0 (nth 1 (shape a) 0%nat)))
           (seq 0 (nth 0 (shape a) 0%nat)).

End np.

(** ** What the module takes from matplotlib *)

Definition color : Type := (R * R * R)%type.
Definition rgba : Type := (R * R * R * R)%type.

Definition rgb_channel (k : nat) (c : color) : R :=
  let '(r, g, b) := c in nth k [r; g; b] 0.

Definition rgba_channel (k : nat) (c : rgba) : R :=
  let '(r, g, b, a) := c in nth k [r; g; b; a] 0.

(** A colormap object: calling it on a number gives an RGBA colour. *)
Record Colormap : Type := { lookup : R -> rgba }.

(** [cm(a)]: the lookup on every element, the colour on a new last axis. *)
Definition Colormap_call (cm : Colormap) (a : ndarray) : ndarray :=
  mkarr (shape a ++ [4%nat])
        (fun idx => rgba_channel (last idx 0%nat) (lookup cm (get a (removelast idx)))).

Class Matplotlib : Type := {
  (** [hsv_to_rgb] on one pixel *)
  hsv_to_rgb1 : R * R * R -> R * R * R;
  (** [LinearSegmentedColormap.from_list('blend', [[0, 0, 0], clr])] *)
  from_list_blend : color -> Colormap;
  (** [get_cmap(name, 256)]; [None] when the name is not registered *)
  get_cmap : string -> option Colormap;
  (** [ListedColormap(colors, name='from_list')] *)
  new_ListedColormap : list (list R) -> Colormap
}.

(** [hsv_to_rgb(a)] on an array whose last axis holds H, S and V. *)
Definition hsv_to_rgb `{Matplotlib} (a : ndarray) : ndarray :=
  mkarr (shape a)
        (fun idx =>
           let p := removelast idx in
           rgb_channel (last idx 0%nat)
             (hsv_to_rgb1 (get a (p ++ [0%nat]), get a (p ++ [1%nat]), get a (p ++ [2%nat])))).

(** [Normalize(vmin, vmax, clip=True)(a)]: an unset bound is taken from
    the data; equal bounds give zeros; [vmin > vmax] raises ValueError;
    otherwise the data is clipped to the bounds and rescaled to [0, 1]. *)
Module Normalize.

Definition autoscale_None (bound observed : option R) : option R :=
  match bound with
  | Some v => Some v
  | None => observed
  end.

Definition bounds (vmin vmax : option R) (a : ndarray) : option R * option R :=
  (autoscale_None vmin (np.amin a), autoscale_None vmax (np.amax a)).

Definition rescale (lo hi x : R) : R := (np.clip1 lo hi x - lo) / (hi - lo).

Definition call (vmin vmax : option R) (a : ndarray) : result ndarray :=
  match bounds vmin vmax a with
  | (Some lo, Some hi) =>
      if Req_dec_T lo hi then Ok (np.map (fun _ => 0) a)
      else if Rlt_dec hi lo then Raise ValueError
      else Ok (np.map (rescale lo hi) a)
  | (None, None) => Ok (np.map (fun _ => 0) a)
  | _ => Raise TypeError
  end.

End Normalize.

(** ** The class [Colorize] *)

(** What [self.cmap] can hold. *)
Inductive cmap_value : Type :=
| CmapStr (name : string)          (* a str: a keyword or a colormap name *)
| CmapListed (cm : Colormap)       (* a ListedColormap instance *)
| CmapSegmented (cm : Colormap)    (* a colormap object of another class *)
| CmapOther.                       (* any other object *)

Record Colorize : Type := {
  cmap : cmap_value;
  scale : R;
  colors : option (list color);
  vmin : option R;
  vmax : option R
}.

(** [Colorize()] with the defaults of [__init__]. *)
Definition Colorize_default : Colorize :=
  {| cmap := CmapStr "rainbow"; scale := 1; colors := None; vmin := None; vmax := None |}.

(** [self.cmap in names] and [self.cmap == name] *)
Definition cmap_in (self : Colorize) (names : list string) : bool :=
  match cmap self with
  | CmapStr s => existsb (String.eqb s) names
  | _ => false
  end.

Definition cmap_is (self : Colorize) (name : string) : bool := cmap_in self [name].

Definition isinstance_ListedColormap (self : Colorize) : bool :=
  match cmap self with CmapListed _ => true | _ => false end.

Definition isinstance_str (self : Colorize) : bool :=
  match cmap self with CmapStr _ => true | _ => false end.

(** [dims[0]] and [len(self.colors)] *)
Definition dims0 (dims : list nat) : result nat :=
  match dims with
  | d :: _ => Ok d
  | [] => Raise IndexError
  end.

Definition len_colors (self : Colorize) : result nat :=
  match colors self with
  | Some cl => Ok (length cl)
  | None => Raise TypeError
  end.

Definition raise_unless (b : bool) (e : exn) : result unit :=
  if b then Ok tt else Raise e.

Definition _checkDims (self : Colorize) (dims : list nat) : result unit :=
  if cmap_in self ["rgb"; "hsv"; "polar"; "indexed"]%string then
    (if cmap_in self ["rgb"; "hsv"]%string
     then d0 <- dims0 dims ;; raise_unless (d0 =? 3)%nat DimsError
     else Ok tt) ;;;
    (if cmap_in self ["polar"]%string
     then d0 <- dims0 dims ;; raise_unless (d0 =? 2)%nat DimsError
     else Ok tt) ;;;
    (if cmap_in self ["indexed"]%string
     then d0 <- dims0 dims ;; n <- len_colors self ;; raise_unless (d0 =? n)%nat DimsError
     else Ok tt)
  else if isinstance_ListedColormap self || isinstance_str self then
    raise_unless (existsb (Nat.eqb (length dims)) [2; 3]%nat) DimsError
  else Ok tt.

Definition _checkMixedDims (self : Colorize) (dims1 dims2 : list nat) : result unit :=
  if cmap_in self ["rgb"; "hsv"; "polar"; "indexed"]%string then
    c <- np.allclose dims1 (tl dims2) ;; raise_unless c MixedDimsError
  else if isinstance_ListedColormap self || isinstance_str self then
    c <- np.allclose dims1 dims2 ;; raise_unless c MixedDimsError
  else Ok tt.

Definition _prepareMask (mask : ndarray) : ndarray := np.clip_lo mask 0.

Definition _prepareBackground (background : ndarray) : result ndarray :=
  Normalize.call None None background.

(** [blend(img, mask, op)]: [op] on each of the three colour planes. *)
Definition blend_plane (k : nat) (op : R -> R -> R) (mask img : ndarray) (i : nat)
  : result ndarray :=
  plane <- np.take_checked k i img ;;
  v <- np.ufunc2 op plane mask ;;
  np.put_checked k i img v.

Definition blend (img mask : ndarray) (op : R -> R -> R) : result ndarray :=
  if (ndim mask =? 3)%nat
  then for_each (range 3) (blend_plane 3 op mask) img
  else for_each (range 3) (blend_plane 2 op mask) img.

Definition add : R -> R -> R := Rplus.
Definition multiply : R -> R -> R := Rmult.

(** A local variable that some branches assign and others leave unbound is
    an [option]; reading it unbound raises UnboundLocalError. *)
Definition bound {A : Type} (v : option A) : result A :=
  match v with
  | Some a => Ok a
  | None => Raise UnboundLocalError
  end.

Section Transform.

Context {M : Matplotlib}.

(** The branch [self.cmap == 'rgb']. *)
Definition rgb_out (img : ndarray) : option ndarray :=
  let out := None in
  let out := if (ndim img =? 4)%nat then Some (np.transpose img [1; 2; 3; 0]%nat) else out in
  let out := if (ndim img =? 3)%nat then Some (np.transpose img [1; 2; 0]%nat) else out in
  out.

(** The branch [self.cmap == 'hsv'];
    [hsv_slice img i] is [dstack((img[0][:, :, i], img[1][:, :, i], img[2][:, :, i]))]. *)
Definition hsv_slice (img : ndarray) (i : nat) : ndarray :=
  np.dstack [np.take 2 i (np.getitem img 0); np.take 2 i (np.getitem img 1);
             np.take 2 i (np.getitem img 2)].

Definition hsv_out (img : ndarray) (dims : list nat) : option ndarray :=
  let out := None in
  let out :=
    if (ndim img =? 4)%nat then
      Some (fold_left (fun out i => np.put 2 i out (hsv_to_rgb (hsv_slice img i)))
                      (range (nth 3 dims 0%nat))
                      (np.zeros [nth 1 dims 0; nth 2 dims 0; nth 3 dims 0; 3]%nat))
    else out in
  let out :=
    if (ndim img =? 3)%nat then
      Some (hsv_to_rgb (np.dstack [np.getitem img 0; np.getitem img 1; np.getitem img 2]))
    else out in
  out.

(** The branch [self.cmap == 'polar']. *)
Definition polar_theta (img : ndarray) : ndarray :=
  np.map (fun t => np.mod1 (PI * 2) (t + PI / 2) / (2 * PI))
         (np.arctan2 (np.neg (np.getitem img 0)) (np.neg (np.getitem img 1))).

Definition polar_rho (img : ndarray) : ndarray :=
  np.sqrt (np.map2 Rplus (np.map (fun x => x ^ 2) (np.getitem img 0))
                         (np.map (fun x => x ^ 2) (np.getitem img 1))).

(** [dstack((theta, saturation, self.scale*rho))], what [hsv_to_rgb] is given
    for a two-dimensional image, and
    [dstack((theta[:, :, i], saturation, self.scale*rho[:, :, i]))],
    what it is given for slice [i] of a three-dimensional one. *)
Definition polar_hsv (self : Colorize) (img : ndarray) (dims : list nat) : ndarray :=
  let theta := polar_theta img in
  let rho := polar_rho img in
  let saturation := np.ones [nth 1 dims 0; nth 2 dims 0]%nat in
  np.dstack [theta; saturation; np.map (fun x => scale self * x) rho].

Definition polar_hsv_slice (self : Colorize) (img : ndarray) (dims : list nat) (i : nat)
  : ndarray :=
  let theta := polar_theta img in
  let rho := polar_rho img in
  let saturation := np.ones [nth 1 dims 0; nth 2 dims 0]%nat in
  np.dstack [np.take 2 i theta; saturation;
             np.map (fun x => scale self * x) (np.take 2 i rho)].

Definition polar_out (self : Colorize) (img : ndarray) (dims : list nat) : option ndarray :=
  let out := None in
  let out :=
    if (ndim img =? 4)%nat then
      Some (fold_left (fun out i => np.put 2 i out (hsv_to_rgb (polar_hsv_slice self img dims i)))
                      (range (nth 3 dims 0%nat))
                      (np.zeros [nth 1 dims 0; nth 2 dims 0; nth 3 dims 0; 3]%nat))
    else out in
  let out :=
    if (ndim img =? 3)%nat then Some (hsv_to_rgb (polar_hsv self img dims)) else out in
  out.

(** The H, S and V that [hsv_to_rgb] is given for the pixel [p] of a polar
    image: a pixel of [polar_hsv], or of the slice [p[2]] when the image has
    three spatial axes. *)
Definition polar_fed (self : Colorize) (img : ndarray) (dims p : list nat) : R * R * R :=
  let hsv := if (ndim img =? 4)%nat
             then polar_hsv_slice self img dims (nth 2 p 0%nat)
             else polar_hsv self img dims in
  let q := firstn 2 p in
  (get hsv (q ++ [0%nat]), get hsv (q ++ [1%nat]), get hsv (q ++ [2%nat])).

(** The branch [self.cmap == 'indexed'];
    [indexed_tmp img ix clr] is [tmp] after the slicing. *)
Definition indexed_tmp (img : ndarray) (ix : nat) (clr : color) : ndarray :=
  let cmap := from_list_blend clr in
  let tmp := Colormap_call cmap (np.getitem img ix) in
  let tmp := if (ndim img =? 4)%nat then np.slice03 3 tmp else tmp in
  let tmp := if (ndim img =? 3)%nat then np.slice03 2 tmp else tmp in
  tmp.

Definition indexed_step (img : ndarray) (out : option ndarray) (ic : nat * color)
  : result (option ndarray) :=
  let tmp := indexed_tmp img (fst ic) (snd ic) in
  out' <- bound out ;;
  Ok (Some (np.maximum out' (np.clip tmp 0 1))).

Definition indexed_out (self : Colorize) (img : ndarray) (dims : list nat)
  : result (option ndarray) :=
  let out := None in
  let out :=
    if (ndim img =? 4)%nat
    then Some (np.zeros [nth 1 dims 0; nth 2 dims 0; nth 3 dims 0; 3]%nat) else out in
  let out :=
    if (ndim img =? 3)%nat
    then Some (np.zeros [nth 1 dims 0; nth 2 dims 0; 3]%nat) else out in
  match colors self with
  | None => Raise TypeError
  | Some cl => for_each (enumerate cl) (indexed_step img) out
  end.

(** The loop of [indexed_out] once [out] is bound: a fold of [maximum]. *)
Definition indexed_fold (img : ndarray) (l : list (nat * color)) (out : ndarray) : ndarray :=
  fold_left (fun o ic => np.maximum o (np.clip (indexed_tmp img (fst ic) (snd ic)) 0 1)) l out.

(** Component [c] of the colour that the ramp from black to [clr] gives the
    value [v], clipped as [indexed_step] clips it. *)
Definition ramped (clr : color) (v : R) (c : nat) : R :=
  np.clip1 0 1 (rgba_channel c (lookup (from_list_blend clr) v)).

(** The branches [isinstance(self.cmap, ListedColormap)] and
    [isinstance(self.cmap, str)]. *)
Definition listed_out (cm : Colormap) (img : ndarray) : option ndarray :=
  let out := None in
  let out := if (ndim img =? 3)%nat then Some (np.slice03 3 (Colormap_call cm img)) else out in
  let out := if (ndim img =? 2)%nat then Some (np.slice03 2 (Colormap_call cm img)) else out in
  out.

Definition named_out (name : string) (img : ndarray) : result (option ndarray) :=
  match get_cmap name with
  | None => Raise ValueError
  | Some cm =>
      let out := Colormap_call cm img in
      let out := if (ndim img =? 3)%nat then np.slice03 3 out else out in
      let out := if (ndim img =? 2)%nat then np.slice03 2 out else out in
      Ok (Some out)
  end.

(** The [if]/[elif] chain on [self.cmap]: the array [out] it leaves. *)
Definition colorize (self : Colorize) (img : ndarray) (dims : list nat)
  : result (option ndarray) :=
  if cmap_is self "rgb" then Ok (rgb_out img)
  else if cmap_is self "hsv" then Ok (hsv_out img dims)
  else if cmap_is self "polar" then Ok (polar_out self img dims)
  else if cmap_is self "indexed" then indexed_out self img dims
  else match cmap self with
       | CmapListed cm => Ok (listed_out cm img)
       | CmapStr name => named_out name img
       | _ => Raise NotUnderstood
       end.

(** [mask = self._prepareMask(mask); self._checkMixedDims(mask.shape, dims)],
    under [if mask is not None]. *)
Definition prepare (self : Colorize) (dims : list nat) (mask : option ndarray)
  : result (option ndarray) :=
  match mask with
  | None => Ok None
  | Some m =>
      let m := _prepareMask m in
      _checkMixedDims self (shape m) dims ;;; Ok (Some m)
  end.

Definition blend_if (out : ndarray) (mask : option ndarray) (op : R -> R -> R)
  : result ndarray :=
  match mask with
  | None => Ok out
  | Some m => blend out m op
  end.

Definition transform (self : Colorize) (img : ndarray) (mask background : option ndarray)
  : result ndarray :=
  let dims := shape img in
  _checkDims self dims ;;;
  img <- Normalize.call (vmin self) (vmax self) img ;;
  mask <- prepare self dims mask ;;
  background <- prepare self dims background ;;
  out <- colorize self img dims ;;
  out <- bound out ;;
  let out := np.clip (np.mul_scalar out (scale self)) 0 1 in
  out <- blend_if out mask multiply ;;
  out <- blend_if out background add ;;
  Ok (np.clip out 0 1).

End Transform.

(** ** [optimize]

    The distance, correlation, random and minimisation routines of scipy and
    numpy are taken as given; a call to one of them is recorded in a log, so
    that what ran before an exception can be stated. *)

Class Numerics : Type := {
  (** [pdist(x, metric='cosine')]; [None] when scipy raises ValueError *)
  pdist_cosine : ndarray -> option ndarray;
  squareform : ndarray -> ndarray;
  (** [corrcoef(x, y)[0, 1]] *)
  corrcoef01 : ndarray -> ndarray -> R;
  (** [random.rand(n)], the draw of this call *)
  random_rand : nat -> ndarray;
  (** [minimize(f, init, bounds=bounds, method='L-BFGS-B').x]; [None] when
      the objective or the solver raises *)
  minimize : (ndarray -> result R) -> ndarray -> list (R * R) -> option ndarray
}.

Inductive library_call : Type :=
| CallPdist
| CallRand
| CallMinimize.

(** A computation that logs library calls and may raise. *)
Definition logged (A : Type) : Type := list library_call -> list library_call * result A.

Definition lret {A : Type} (a : A) : logged A := fun log => (log, Ok a).

Definition lraise {A : Type} (e : exn) : logged A := fun log => (log, Raise e).

Definition lbind {A B : Type} (m : logged A) (k : A -> logged B) : logged B :=
  fun log =>
    match m log with
    | (log', Ok a) => k a log'
    | (log', Raise e) => (log', Raise e)
    end.

(** A library call: logged, and a failure inside it is a ValueError. *)
Definition lcall {A : Type} (c : library_call) (r : option A) : logged A :=
  fun log =>
    (log ++ [c], match r with Some a => Ok a | None => Raise ValueError end).

Notation "x <~ m ;; k" := (lbind m (fun x => k))
  (at level 61, m at next level, right associativity).

(** What [optimize] returns: a list of colours, or a colormap of them. *)
Inductive palette : Type :=
| PaletteColors (newClrs : list (list R))
| PaletteCmap (cm : Colormap).

Section Optimize.

Context {M : Matplotlib} {N : Numerics}.

(** [optFunc], the objective handed to [minimize]. *)
Definition optFunc (distMat : ndarray) (nclrs : nat) (x : ndarray) : result R :=
  y <- np.reshape x [nclrs; 3%nat] ;;
  match pdist_cosine y with
  | None => Raise ValueError
  | Some d => Ok (1 - corrcoef01 distMat (np.flatten (squareform d)))
  end.

Definition optimize (mat : ndarray) (asCmap : bool) : logged palette :=
  if (ndim mat <? 2)%nat then lraise InvalidInput
  else
    let nclrs := nth 0 (shape mat) 0%nat in
    d <~ lcall CallPdist (pdist_cosine mat) ;;
    let distMat := np.flatten (squareform d) in
    init <~ lcall CallRand (Some (random_rand (nclrs * 3))) ;;
    let bounds := List.map (fun _ => (0, 1)) (range (nclrs * 3)) in
    res <~ lcall CallMinimize (minimize (optFunc distMat nclrs) init bounds) ;;
    match np.reshape res [nclrs; 3%nat] with
    | Raise e => lraise ValueError
    | Ok r =>
        let newClrs := np.tolist r in
        lret (if asCmap then PaletteCmap (new_ListedColormap newClrs)
              else PaletteColors newClrs)
    end.

End Optimize.

(** ** matplotlib's functions, as the library defines them *)

Module mpl.

(** [x.astype(int)]: truncation towards zero. *)
Definition trunc (x : R) : Z :=
  if Rle_dec 0 x then Zfloor x else (- Zfloor (- x))%Z.

(** [matplotlib.colors.hsv_to_rgb] on one pixel: the sector [i] of the hue
    picks the arrangement of [v], [p], [q] and [t]; a pixel with [s == 0] is
    grey.  A sector outside the cases is left unset by the library (0 here). *)
Definition hsv_to_rgb1 (hsv : R * R * R) : R * R * R :=
  let '(h, s, v) := hsv in
  let i := trunc (h * 6) in
  let f := h * 6 - IZR i in
  let p := v * (1 - s) in
  let q := v * (1 - s * f) in
  let t := v * (1 - s * (1 - f)) in
  if Req_dec_T s 0 then (v, v, v)
  else if (i mod 6 =? 0)%Z then (v, t, p)
  else if (i =? 1)%Z then (q, v, p)
  else if (i =? 2)%Z then (p, v, t)
  else if (i =? 3)%Z then (p, q, v)
  else if (i =? 4)%Z then (t, p, v)
  else if (i =? 5)%Z then (v, p, q)
  else (0, 0, 0).

(** The entry of a lookup table of [n] colours that a float [x] selects:
    [int(x * n)], with [x == 1] on the last entry and values outside [0, 1]
    on the first and last entries. *)
Definition lut_index (n : Z) (x : R) : Z :=
  Z.max 0 (Z.min (n - 1) (Zfloor (x * IZR n))).

(** [LinearSegmentedColormap.from_list('blend', [[0, 0, 0], clr])]: a table
    of 256 colours, entry [k] at the fraction [k / 255] of the way from
    black to [clr]. *)
Definition ramp1 (c : R) (k : Z) : R := np.clip1 0 1 (c * (IZR k / 255)).

Definition from_list_blend (clr : color) : Colormap :=
  {| lookup := fun x =>
       let k := lut_index 256 x in
       let '(r, g, b) := clr in
       (ramp1 r k, ramp1 g k, ramp1 b k, 1) |}.

(** [get_cmap(name, 256)].  The colormaps that matplotlib registers are data
    of the library, not of this module: the field [get_cmap] of [Matplotlib]
    stands for the whole registry, and what is proved of a colormap name is
    proved for every instance.  This instance, on which examples are run,
    writes out one registered colormap, [gray], the ramp from black to
    white; every other name, registered by matplotlib or not, it answers as
    an unregistered one. *)
Definition get_cmap (name : string) : option Colormap :=
  if String.eqb name "gray" then Some (from_list_blend (1, 1, 1)) else None.

(** [ListedColormap(colors)]: the table is the list itself. *)
Definition new_ListedColormap (clrs : list (list R)) : Colormap :=
  {| lookup := fun x =>
       let k := Z.to_nat (lut_index (Z.of_nat (length clrs)) x) in
       let c := nth k clrs [] in
       (nth 0 c 0, nth 1 c 0, nth 2 c 0, 1) |}.

End mpl.

#[export] Instance matplotlib : Matplotlib := {|
  hsv_to_rgb1 := mpl.hsv_to_rgb1;
  from_list_blend := mpl.from_list_blend;
  get_cmap := mpl.get_cmap;
  new_ListedColormap := mpl.new_ListedColormap
|}.

(** ** Valid inputs of [transform] *)

Definition keywords : list string := ["rgb"; "hsv"; "polar"; "indexed"]%string.

(** Two or three spatial axes. *)
Definition spatial (sp : list nat) : Prop := length sp = 2%nat \/ length sp = 3%nat.

(** [valid_scheme self dims sp]: the image shape [dims] is one the scheme of
    [self] takes, and [sp] is its spatial part. *)
Inductive valid_scheme {M : Matplotlib} (self : Colorize) : list nat -> list nat -> Prop :=
| valid_rgb sp :
    cmap self = CmapStr "rgb" -> spatial sp -> valid_scheme self (3%nat :: sp) sp
| valid_hsv sp :
    cmap self = CmapStr "hsv" -> spatial sp -> valid_scheme self (3%nat :: sp) sp
| valid_polar sp :
    cmap self = CmapStr "polar" -> spatial sp -> valid_scheme self (2%nat :: sp) sp
| valid_indexed cl sp :
    cmap self = CmapStr "indexed" -> colors self = Some cl -> spatial sp ->
    valid_scheme self (length cl :: sp) sp
| valid_listed cm sp :
    cmap self = CmapListed cm -> spatial sp -> valid_scheme self sp sp
| valid_named name cm sp :
    cmap self = CmapStr name -> ~ In name keywords -> get_cmap name = Some cm ->
    spatial sp -> valid_scheme self sp sp.

(** The bounds [Normalize] ends up with are in order. *)
Definition bounds_ok (self : Colorize) (img : ndarray) : Prop :=
  match Normalize.bounds (vmin self) (vmax self) img with
  | (Some lo, Some hi) => lo <= hi
  | (None, None) => True
  | _ => False
  end.

(** An optional mask or background has the spatial shape of the image. *)
Definition fits (mask : option ndarray) (sp : list nat) : Prop :=
  match mask with
  | None => True
  | Some m => shape m = sp
  end.

(** What a mask and a background do to one value of the colorized image. *)
Definition masked (mask : option ndarray) (p : list nat) (v : R) : R :=
  match mask with
  | None => v
  | Some m => multiply v (np.clip_lo1 0 (get m p))
  end.

Definition overlaid (background : option ndarray) (p : list nat) (v : R) : R :=
  match background with
  | None => v
  | Some b => add v (np.clip_lo1 0 (get b p))
  end.

(** ** Sample inputs *)

Module Sample.

Definition config (scheme : string) (k : R) : Colorize :=
  {| cmap := CmapStr scheme; scale := k; colors := None; vmin := None; vmax := None |}.

(** A 3 x 1 x 2 image with values in [0, 1], minimum 0 and maximum 1. *)
Definition img312 : ndarray := array3 [[[0; 1]]; [[1 / 2; 1 / 4]]; [[1; 0]]].

(** A 1 x 2 mask and a 1 x 2 background. *)
Definition mask12 : ndarray := array2 [[1 / 2; 2]].
Definition back12 : ndarray := array2 [[1 / 4; 0]].

End Sample.

Module SamplePolar.

(** A 2 x 1 x 2 polar image: the pixels (0, 0) and (1, 1). *)
Definition img_diag : ndarray := array3 [[[0; 1]]; [[0; 1]]].

(** A 2 x 1 x 2 polar image: the pixels (0, -1) and (0, -2), both with
    channel 0 equal to 0 and channel 1 negative. *)
Definition img_down : ndarray := array3 [[[0; 0]]; [[-1; -2]]].

End SamplePolar.

Module SampleIndexed.

(** Two channels and two colours, red and green; each channel is nonzero at
    one pixel only. *)
Definition red_green : Colorize :=
  {| cmap := CmapStr "indexed"; scale := 1; colors := Some [(1, 0, 0); (0, 1, 0)];
     vmin := None; vmax := None |}.

Definition img_two : ndarray := array3 [[[1; 0]]; [[0; 1]]].

(** Two channels, the second all 0; the first holds 1 and -1, so that 0 is
    not the least value of the image. *)
Definition img_signed : ndarray := array3 [[[1; -1]]; [[0; 0]]].

End SampleIndexed.

Module SampleRgb.

(** A 3 x 1 x 1 image with values in [0, 1]: the pixel (1/4, 1/2, 3/4). *)
Definition img_quarter : ndarray := array3 [[[1 / 4]]; [[1 / 2]]; [[3 / 4]]].

(** A 1 x 2 background with minimum 1 and maximum 3. *)
Definition back13 : ndarray := array2 [[1; 3]].

End SampleRgb.

(** The conversion is linear in the value: a pixel [k] times as bright has
    [k] times the red, green and blue. *)
Definition value_linear {M : Matplotlib} : Prop :=
  forall h s v k c,
    rgb_channel c (hsv_to_rgb1 (h, s, k * v)) = k * rgb_channel c (hsv_to_rgb1 (h, s, v)).

(** ** One multiplication by the brightness factor

    [self] with another brightness factor, and the value a polar pixel would
    have if the colour at brightness factor 1 were multiplied by [self.scale]
    once and clipped.  The second is not in the source; it is what the
    output of [transform] is compared with. *)
Definition with_scale (self : Colorize) (k : R) : Colorize :=
  {| cmap := cmap self; scale := k; colors := colors self;
     vmin := vmin self; vmax := vmax self |}.

Definition polar_scaled_once {M : Matplotlib} (self : Colorize) (img : ndarray)
           (dims p : list nat) (c : nat) : R :=
  np.clip1 0 1
    (scale self * rgb_channel c (hsv_to_rgb1 (polar_fed (with_scale self 1) img dims p))).

(** A polar configuration with the bounds 0 and 1 and brightness factor [k],
    and the 2 x 1 x 1 image with the pixel ([t], 0). *)
Definition polar_unit (k : R) : Colorize :=
  {| cmap := CmapStr "polar"; scale := k; colors := None;
     vmin := Some 0; vmax := Some 1 |}.

Definition img_axis (t : R) : ndarray := array3 [[[t]]; [[0]]].

(** ** The blending order, reversed

    [transform] with the two calls of [blend] exchanged: the background is
    added first and the mask multiplied second.  It is not in the source; it
    is what the order of [transform] is compared with. *)
Definition transform_background_first {M : Matplotlib} (self : Colorize) (img : ndarray)
           (mask background : option ndarray) : result ndarray :=
  let dims := shape img in
  _checkDims self dims ;;;
  img <- Normalize.call (vmin self) (vmax self) img ;;
  mask <- prepare self dims mask ;;
  background <- prepare self dims background ;;
  out <- colorize self img dims ;;
  out <- bound out ;;
  let out := np.clip (np.mul_scalar out (scale self)) 0 1 in
  out <- blend_if out background add ;;
  out <- blend_if out mask multiply ;;
  Ok (np.clip out 0 1).

Module SampleCmap.

(** [Colorize(cmap=LinearSegmentedColormap.from_list('blend', [[0, 0, 0], [1, 1, 1]]))]:
    the colormap is a colormap object, and not a [ListedColormap]. *)
Definition segmented_gray : Colorize :=
  {| cmap := CmapSegmented (mpl.from_list_blend (1, 1, 1)); scale := 1; colors := None;
     vmin := None; vmax := None |}.

(** A 1 x 2 image. *)
Definition img12 : ndarray := array2 [[0; 1]].

End SampleCmap.

Module SampleNumerics.

(** A one-dimensional array, and a 2 x 2 matrix. *)
Definition vector : ndarray := mkarr [2%nat] (fun idx => nth (nth 0 idx 0%nat) [1; 2] 0).
Definition matrix : ndarray := array2 [[1; 0]; [0; 1]].

(** Stand-ins for scipy and [numpy.random] to run [optimize] with: [pdist]
    takes two-dimensional input only, all distances are 0, the draw is all
    zeros and the solver returns its initial guess. *)
Definition pdist_zero (x : ndarray) : option ndarray :=
  if (ndim x =? 2)%nat
  then Some (np.zeros [(nth 0 (shape x) 0 * (nth 0 (shape x) 0 - 1) / 2)%nat])
  else None.

Definition squareform_zero (d : ndarray) : ndarray := np.zeros [nth 0 (shape d) 0%nat].

Definition instance : Numerics := {|
  pdist_cosine := pdist_zero;
  squareform := squareform_zero;
  corrcoef01 := fun _ _ => 0;
  random_rand := fun n => np.zeros [n];
  minimize := fun _ init _ => Some init
|}.

End SampleNumerics.

Module SampleShapes.

(** An rgb configuration with the bounds 0 and 1, a 3 x 10 x 10 image and a
    5 x 5 mask. *)
Definition rgb_unit : Colorize :=
  {| cmap := CmapStr "rgb"; scale := 1; colors := None; vmin := Some 0; vmax := Some 1 |}.

Definition img_3_10_10 : ndarray := np.zeros [3; 10; 10]%nat.
Definition mask_5_5 : ndarray := np.zeros [5; 5]%nat.

End SampleShapes.

Module SampleRank.

(** A 3 x 2 image: the right first axis for rgb, one spatial axis only. *)
Definition img32 : ndarray := array2 [[0; 1]; [1; 0]; [1 / 2; 1]].

(** A scalar, as [asarray(5.0)] gives it. *)
Definition scalar5 : ndarray := mkarr [] (fun _ => 5).

(** A configuration with its bounds out of order. *)
Definition rgb_reversed : Colorize :=
  {| cmap := CmapStr "rgb"; scale := 1; colors := None; vmin := Some 1; vmax := Some 0 |}.

End SampleRank.

(** [self] with another colormap. *)
Definition with_cmap (self : Colorize) (c : cmap_value) : Colorize :=
  {| cmap := c; scale := scale self; colors := colors self;
     vmin := vmin self; vmax := vmax self |}.

Module SampleHsv.

(** A 3 x 1 x 2 hsv image and a 1 x 2 image for a colormap. *)
Definition img_hsv : ndarray := array3 [[[0; 1 / 2]]; [[1; 1]]; [[1; 1 / 2]]].
Definition img_gray : ndarray := array2 [[0; 1]].

(** A constant 3 x 1 x 2 image. *)
Definition img_flat : ndarray := array3 [[[7; 7]]; [[7; 7]]; [[7; 7]]].

(** A mask that is 1 everywhere and a background that is 0 everywhere. *)
Definition ones12 : ndarray := np.ones [1; 2]%nat.
Definition zeros12 : ndarray := np.zeros [1; 2]%nat.

(** A mask that is 0 at the first pixel and negative at the second. *)
Definition mask_off : ndarray := array2 [[0; -1]].

End SampleHsv.

Module SampleCheck.

(** A 2 x 5 x 5 mask, for an image with two spatial axes. *)
Definition mask_2_5_5 : ndarray := np.zeros [2; 5; 5]%nat.

(** An image with a spatial axis of length 100000, and a mask that is one
    longer on that axis. *)
Definition long : nat := Z.to_nat 100000.
(** A 3 x 1 x 2 image with values below 0 and above 1. *)
Definition img_wide : ndarray := array3 [[[-1; 2]]; [[1 / 2; 1 / 4]]; [[3; 0]]].

(** The rgb scheme with the bounds set out of order. *)
Definition rgb_reversed_bounds : Colorize :=
  {| cmap := CmapStr "rgb"; scale := 1; colors := None; vmin := Some 1; vmax := Some 0 |}.

Definition img_long : ndarray := np.zeros [3%nat; long; 1%nat].
Definition mask_longer : ndarray := np.zeros [S long; 1%nat].

End SampleCheck.

(** * Proofs *)

(** ** Real arithmetic of [clip] and [Normalize] *)

Ltac case_minmax :=
  unfold np.clip1, np.clip_lo1, Rmin, Rmax in *;
  repeat match goal with
         | |- context [Rle_dec ?a ?b] => destruct (Rle_dec a b)
         | H : context [Rle_dec ?a ?b] |- _ => destruct (Rle_dec a b)
         end.

Lemma clip1_range (lo hi x : R) : lo <= hi -> lo <= np.clip1 lo hi x <= hi.
Proof. intros H. case_minmax; lra. Qed.

Lemma clip1_id (lo hi x : R) : lo <= x <= hi -> np.clip1 lo hi x = x.
Proof. intros H. case_minmax; lra. Qed.

Lemma clip1_unit (x : R) : 0 <= np.clip1 0 1 x <= 1.
Proof. apply clip1_range; lra. Qed.

Lemma rescale_range (lo hi x : R) : lo < hi -> 0 <= Normalize.rescale lo hi x <= 1.
Proof.
  intros H. unfold Normalize.rescale.
  pose proof (clip1_range lo hi x (Rlt_le _ _ H)) as [H1 H2].
  split.
  - apply Rmult_le_pos; [lra | left; apply Rinv_0_lt_compat; lra].
  - apply (Rmult_le_reg_r (hi - lo)); [lra |].
    unfold Rdiv. rewrite Rmult_assoc, Rinv_l by lra. lra.
Qed.

Lemma rescale_unit (x : R) : 0 <= x <= 1 -> Normalize.rescale 0 1 x = x.
Proof.
  intros H. unfold Normalize.rescale. rewrite clip1_id by lra. field.
Qed.

(** ** Shapes, indices and broadcasting *)

Lemma in_bounds_length (idx sh : list nat) : in_bounds idx sh -> length idx = length sh.
Proof. apply Forall2_length. Qed.

Lemma in_bounds_app (p sp : list nat) (c d : nat) :
  in_bounds p sp -> (c < d)%nat -> in_bounds (p ++ [c]) (sp ++ [d]).
Proof.
  intros Hp Hc. apply Forall2_app; [exact Hp | constructor; [exact Hc | constructor]].
Qed.

Lemma in_bounds_app_inv (idx sp : list nat) (d : nat) :
  in_bounds idx (sp ++ [d]) ->
  exists p c, idx = p ++ [c] /\ in_bounds p sp /\ (c < d)%nat.
Proof.
  intros H. apply Forall2_app_inv_r in H.
  destruct H as (p & l & Hp & Hl & ->).
  inversion Hl as [| c d' l' r' Hc Hr]; subst.
  inversion Hr; subst.
  exists p, c. auto.
Qed.

Lemma firstn_length_app {A : Type} (l r : list A) : firstn (length l) (l ++ r) = l.
Proof. induction l; simpl; [destruct r | f_equal]; auto. Qed.

Lemma skipn_length_app {A : Type} (l r : list A) : skipn (length l) (l ++ r) = r.
Proof. induction l; simpl; auto. Qed.

Lemma skipn_S_length_app {A : Type} (l : list A) (x : A) (r : list A) :
  skipn (S (length l)) (l ++ x :: r) = r.
Proof. induction l; simpl; auto. Qed.

Lemma nth_length_app {A : Type} (l : list A) (x d : A) (r : list A) :
  nth (length l) (l ++ x :: r) d = x.
Proof. induction l; simpl; auto. Qed.

Lemma broadcast_rev_same (s : list nat) : np.broadcast_rev s s = Some s.
Proof.
  induction s as [| a s IH]; simpl; [reflexivity |].
  rewrite IH, Nat.eqb_refl. reflexivity.
Qed.

Lemma broadcast_shapes_same (s : list nat) : np.broadcast_shapes s s = Some s.
Proof.
  unfold np.broadcast_shapes. rewrite broadcast_rev_same. simpl.
  now rewrite rev_involutive.
Qed.

Lemma squash_in_bounds (s idx : list nat) : in_bounds idx s -> np.squash s idx = idx.
Proof.
  intros H. induction H as [| i d idx s Hi _ IH]; simpl; [reflexivity |].
  rewrite IH. destruct (Nat.eqb_spec d 1); [f_equal; lia | reflexivity].
Qed.

Lemma operand_index_in_bounds (s idx : list nat) :
  in_bounds idx s -> np.operand_index s idx = idx.
Proof.
  intros H. unfold np.operand_index.
  rewrite (in_bounds_length _ _ H), Nat.sub_diag. simpl.
  now apply squash_in_bounds.
Qed.

Lemma isclose_refl (a : nat) : np.isclose a a = true.
Proof. unfold np.isclose. apply Z.leb_le. lia. Qed.

Lemma all2_refl (d : list nat) : np.all2 d d = true.
Proof. induction d; simpl; [| rewrite isclose_refl]; auto. Qed.

Lemma allclose_refl (d : list nat) : np.allclose d d = Ok true.
Proof. unfold np.allclose. now rewrite Nat.eqb_refl, all2_refl. Qed.

(** ** [blend] *)

Lemma take_last_shape (sp : list nat) (d i : nat) (a : ndarray) :
  shape a = sp ++ [d] -> shape (np.take (length sp) i a) = sp.
Proof.
  intros H. unfold np.take. cbn [shape]. rewrite H.
  now rewrite firstn_length_app, skipn_S_length_app, app_nil_r.
Qed.

Lemma take_last_get (sp p : list nat) (i : nat) (a : ndarray) :
  length p = length sp -> get (np.take (length sp) i a) p = get a (p ++ [i]).
Proof.
  intros H. unfold np.take. cbn [get]. rewrite <- H.
  now rewrite firstn_all, skipn_all.
Qed.

Lemma put_last_get (sp p : list nat) (i c : nat) (a v : ndarray) :
  length p = length sp ->
  get (np.put (length sp) i a v) (p ++ [c]) =
  if (c =? i)%nat then get v p else get a (p ++ [c]).
Proof.
  intros H. unfold np.put. cbn [get]. rewrite <- H.
  now rewrite nth_length_app, firstn_length_app, skipn_S_length_app, app_nil_r.
Qed.

Lemma checked_last (sp : list nat) (i : nat) (a : ndarray) :
  shape a = sp ++ [3%nat] -> (i < 3)%nat ->
  ((length sp <? ndim a)%nat && (i <? nth (length sp) (shape a) 0%nat)%nat) = true.
Proof.
  intros H Hi. unfold ndim. rewrite H, nth_length_app, length_app. simpl.
  apply andb_true_intro. split; apply Nat.ltb_lt; lia.
Qed.

Lemma broadcast_to_same (v : ndarray) :
  exists v', np.broadcast_to v (shape v) = Ok v' /\ shape v' = shape v /\
             forall p, in_bounds p (shape v) -> get v' p = get v p.
Proof.
  unfold np.broadcast_to, ndim. rewrite Nat.sub_diag. simpl.
  rewrite broadcast_shapes_same.
  destruct (list_eq_dec Nat.eq_dec (shape v) (shape v)) as [_ | Hne]; [| now elim Hne].
  eexists. split; [reflexivity |]. split; [reflexivity |].
  intros p Hp. simpl. now rewrite operand_index_in_bounds.
Qed.

Lemma blend_plane_last (sp : list nat) (op : R -> R -> R) (img mask : ndarray) (i : nat) :
  shape img = sp ++ [3%nat] -> shape mask = sp -> (i < 3)%nat ->
  exists img', blend_plane (length sp) op mask img i = Ok img' /\
               shape img' = sp ++ [3%nat] /\
               forall p c, in_bounds p sp ->
                 get img' (p ++ [c]) =
                 if (c =? i)%nat then op (get img (p ++ [i])) (get mask p)
                 else get img (p ++ [c]).
Proof.
  intros Himg Hmask Hi. unfold blend_plane, np.take_checked, np.put_checked.
  rewrite (checked_last sp i img Himg Hi). cbn [bind].
  unfold np.ufunc2. rewrite (take_last_shape sp 3 i img Himg), Hmask.
  rewrite broadcast_shapes_same. cbn [bind].
  set (v := mkarr sp _).
  destruct (broadcast_to_same v) as (v' & Hv' & Hsh & Hget).
  change (shape v) with sp in Hv', Hsh, Hget. rewrite Hv'. cbn [bind].
  eexists. split; [reflexivity |]. split; [exact Himg |].
  intros p c Hp. pose proof (in_bounds_length _ _ Hp) as Hlen.
  rewrite put_last_get by exact Hlen.
  destruct (c =? i)%nat; [| reflexivity].
  rewrite Hget by exact Hp. unfold v. cbn [get].
  rewrite operand_index_in_bounds by exact Hp.
  now rewrite take_last_get.
Qed.

Lemma blend_ok (sp : list nat) (op : R -> R -> R) (img mask : ndarray) :
  spatial sp -> shape img = sp ++ [3%nat] -> shape mask = sp ->
  exists img', blend img mask op = Ok img' /\
               shape img' = sp ++ [3%nat] /\
               forall p c, in_bounds p sp -> (c < 3)%nat ->
                 get img' (p ++ [c]) = op (get img (p ++ [c])) (get mask p).
Proof.
  intros Hsp Himg Hmask.
  assert (Hk : blend img mask op = for_each (range 3) (blend_plane (length sp) op mask) img).
  { unfold blend, ndim. rewrite Hmask. destruct Hsp as [H | H]; rewrite H; reflexivity. }
  rewrite Hk. unfold range. cbn [seq for_each].
  destruct (blend_plane_last sp op img mask 0 Himg Hmask) as (i0 & E0 & S0 & G0); [lia |].
  rewrite E0. cbn [bind].
  destruct (blend_plane_last sp op i0 mask 1 S0 Hmask) as (i1 & E1 & S1 & G1); [lia |].
  rewrite E1. cbn [bind].
  destruct (blend_plane_last sp op i1 mask 2 S1 Hmask) as (i2 & E2 & S2 & G2); [lia |].
  rewrite E2. cbn [bind].
  exists i2. split; [reflexivity |]. split; [exact S2 |].
  intros p c Hp Hc.
  rewrite (G2 p c Hp), (G1 p c Hp), (G1 p 2%nat Hp), (G0 p c Hp), (G0 p 1%nat Hp), (G0 p 2%nat Hp).
  destruct c as [| [| [| c]]]; simpl; try reflexivity. lia.
Qed.

(** ** [Normalize] *)

Lemma Normalize_call_ok (self : Colorize) (img : ndarray) :
  bounds_ok self img ->
  exists img', Normalize.call (vmin self) (vmax self) img = Ok img' /\
               shape img' = shape img /\
               forall idx, 0 <= get img' idx <= 1.
Proof.
  unfold bounds_ok, Normalize.call.
  destruct (Normalize.bounds (vmin self) (vmax self) img) as [[lo |] [hi |]];
    intros H; try contradiction.
  - destruct (Req_dec_T lo hi) as [E | NE].
    + eexists. split; [reflexivity |]. split; [reflexivity |]. intros idx. simpl. lra.
    + destruct (Rlt_dec hi lo) as [L | NL]; [lra |].
      eexists. split; [reflexivity |]. split; [reflexivity |].
      intros idx. simpl. apply rescale_range. lra.
  - eexists. split; [reflexivity |]. split; [reflexivity |]. intros idx. simpl. lra.
Qed.

(** ** The checks of [transform] on a valid input *)

Ltac two_or_three sp H :=
  let x := fresh "x" in
  let y := fresh "y" in
  let z := fresh "z" in
  destruct sp as [| x [| y [| z [| ? ?]]]];
  destruct H as [H | H]; simpl in H; try discriminate H; clear H.

Lemma spatial_length (sp : list nat) :
  spatial sp -> existsb (Nat.eqb (length sp)) [2; 3]%nat = true.
Proof. intros H. two_or_three sp H; reflexivity. Qed.

Lemma cmap_in_named (self : Colorize) (name : string) (names : list string) :
  cmap self = CmapStr name -> ~ In name names -> cmap_in self names = false.
Proof.
  intros Hc Hn. unfold cmap_in. rewrite Hc.
  induction names as [| kw names IH]; simpl; [reflexivity |].
  destruct (String.eqb_spec name kw) as [-> | _]; [elim Hn; now left |].
  apply IH. intros Hin. apply Hn. now right.
Qed.

Lemma cmap_is_named (self : Colorize) (name kw : string) :
  cmap self = CmapStr name -> ~ In name keywords -> In kw keywords ->
  cmap_is self kw = false.
Proof.
  intros Hc Hn Hk. unfold cmap_is. apply (cmap_in_named self name); [exact Hc |].
  intros [-> | []]. now apply Hn.
Qed.

Section Checks.

Context {M : Matplotlib}.

Lemma _checkDims_ok (self : Colorize) (dims sp : list nat) :
  valid_scheme self dims sp -> _checkDims self dims = Ok tt.
Proof.
  intros V. destruct V as [sp Hc Hs | sp Hc Hs | sp Hc Hs | cl sp Hc Hl Hs
                          | cm sp Hc Hs | name cm sp Hc Hn Hg Hs];
    unfold _checkDims, cmap_in, isinstance_ListedColormap, isinstance_str, len_colors.
  - rewrite Hc. reflexivity.
  - rewrite Hc. reflexivity.
  - rewrite Hc. reflexivity.
  - rewrite Hc, Hl. cbn. now rewrite Nat.eqb_refl.
  - rewrite Hc. cbn [orb]. now rewrite spatial_length.
  - fold (cmap_in self ["rgb"; "hsv"; "polar"; "indexed"]%string).
    rewrite (cmap_in_named self name) by assumption.
    rewrite Hc. cbn [orb]. now rewrite spatial_length.
Qed.

Lemma _checkMixedDims_ok (self : Colorize) (dims sp : list nat) :
  valid_scheme self dims sp -> _checkMixedDims self sp dims = Ok tt.
Proof.
  intros V. destruct V as [sp Hc Hs | sp Hc Hs | sp Hc Hs | cl sp Hc Hl Hs
                          | cm sp Hc Hs | name cm sp Hc Hn Hg Hs];
    unfold _checkMixedDims, cmap_in, isinstance_ListedColormap, isinstance_str.
  1-4: rewrite Hc; cbn [existsb String.eqb Ascii.eqb Bool.eqb orb tl];
       now rewrite allclose_refl.
  - rewrite Hc. cbn [orb]. now rewrite allclose_refl.
  - fold (cmap_in self ["rgb"; "hsv"; "polar"; "indexed"]%string).
    rewrite (cmap_in_named self name) by assumption.
    rewrite Hc. cbn [orb]. now rewrite allclose_refl.
Qed.

Lemma prepare_ok (self : Colorize) (dims sp : list nat) (mask : option ndarray) :
  valid_scheme self dims sp -> fits mask sp ->
  prepare self dims mask = Ok (option_map _prepareMask mask).
Proof.
  intros V F. destruct mask as [m |]; [| reflexivity].
  unfold prepare. simpl in F. cbn [_prepareMask np.clip_lo np.map shape].
  rewrite F, (_checkMixedDims_ok self dims sp V). reflexivity.
Qed.

End Checks.

(** ** The array [out] of each scheme *)

Section Schemes.

Context {M : Matplotlib}.

Lemma fold_put_shape (k : nat) (f : nat -> ndarray) (l : list nat) (out : ndarray) :
  shape (fold_left (fun out i => np.put k i out (f i)) l out) = shape out.
Proof. revert out. induction l as [| i l IH]; intros out; simpl; [| rewrite IH]; reflexivity. Qed.

Lemma indexed_for_each (img : ndarray) (l : list (nat * color)) (out : ndarray) :
  for_each l (indexed_step img) (Some out) = Ok (Some (indexed_fold img l out)).
Proof.
  revert out. induction l as [| ic l IH]; intros out; [reflexivity |].
  cbn [for_each]. unfold indexed_step at 1. cbn [bound bind]. apply IH.
Qed.

Lemma indexed_fold_shape (img : ndarray) (l : list (nat * color)) (out : ndarray) :
  shape (indexed_fold img l out) = shape out.
Proof.
  revert out. induction l as [| ic l IH]; intros out; [reflexivity |].
  unfold indexed_fold in *. cbn [fold_left]. now rewrite IH.
Qed.

Lemma indexed_fold_get (img : ndarray) (l : list (nat * color)) (out : ndarray)
      (idx : list nat) :
  get (indexed_fold img l out) idx =
  fold_left Rmax
    (List.map (fun ic => np.clip1 0 1 (get (indexed_tmp img (fst ic) (snd ic)) idx)) l)
    (get out idx).
Proof.
  revert out. induction l as [| ic l IH]; intros out; [reflexivity |].
  unfold indexed_fold in *. cbn [fold_left List.map]. now rewrite IH.
Qed.

Lemma colorize_ok (self : Colorize) (img : ndarray) (dims sp : list nat) :
  valid_scheme self dims sp -> shape img = dims ->
  exists raw, colorize self img dims = Ok (Some raw) /\ shape raw = sp ++ [3%nat].
Proof.
  intros V Himg. destruct img as [sh g]. simpl in Himg. subst sh.
  destruct V as [sp Hc Hs | sp Hc Hs | sp Hc Hs | cl sp Hc Hl Hs
                | cm sp Hc Hs | name cm sp Hc Hn Hg Hs];
    unfold colorize, cmap_is, cmap_in.
  - rewrite Hc. cbn [existsb String.eqb Ascii.eqb Bool.eqb orb].
    two_or_three sp Hs; eexists; (split; [reflexivity |]); reflexivity.
  - rewrite Hc. cbn [existsb String.eqb Ascii.eqb Bool.eqb orb].
    two_or_three sp Hs; eexists; (split; [reflexivity |]).
    + reflexivity.
    + cbn [nth]. now rewrite fold_put_shape.
  - rewrite Hc. cbn [existsb String.eqb Ascii.eqb Bool.eqb orb].
    two_or_three sp Hs; eexists; (split; [reflexivity |]).
    + reflexivity.
    + cbn [nth]. now rewrite fold_put_shape.
  - rewrite Hc. cbn [existsb String.eqb Ascii.eqb Bool.eqb orb].
    unfold indexed_out. rewrite Hl.
    two_or_three sp Hs; cbn [ndim shape length Nat.eqb];
      rewrite indexed_for_each; eexists; (split; [reflexivity |]);
      now rewrite indexed_fold_shape.
  - rewrite Hc. cbn [existsb orb].
    two_or_three sp Hs; eexists; (split; [reflexivity |]); reflexivity.
  - fold (cmap_in self ["rgb"%string]). fold (cmap_in self ["hsv"%string]).
    fold (cmap_in self ["polar"%string]). fold (cmap_in self ["indexed"%string]).
    fold (cmap_is self "rgb"). fold (cmap_is self "hsv").
    fold (cmap_is self "polar"). fold (cmap_is self "indexed").
    rewrite !(cmap_is_named self name) by (first [assumption | unfold keywords; simpl; tauto]).
    rewrite Hc. unfold named_out. rewrite Hg.
    two_or_three sp Hs; eexists; (split; [reflexivity |]); reflexivity.
Qed.

End Schemes.

(** ** [transform] on a valid input *)

Section TransformSpec.

Context {M : Matplotlib}.

Lemma blend_if_ok (sp : list nat) (op : R -> R -> R) (out : ndarray) (mask : option ndarray) :
  spatial sp -> shape out = sp ++ [3%nat] -> fits mask sp ->
  exists out', blend_if out (option_map _prepareMask mask) op = Ok out' /\
               shape out' = sp ++ [3%nat] /\
               forall p c, in_bounds p sp -> (c < 3)%nat ->
                 get out' (p ++ [c]) =
                 match mask with
                 | None => get out (p ++ [c])
                 | Some m => op (get out (p ++ [c])) (np.clip_lo1 0 (get m p))
                 end.
Proof.
  intros Hs Ho F. destruct mask as [m |]; cbn [option_map blend_if].
  - simpl in F.
    destruct (blend_ok sp op out (_prepareMask m) Hs Ho F) as (out' & E & S & G).
    exists out'. split; [exact E |]. split; [exact S |].
    intros p c Hp Hc. now rewrite (G p c Hp Hc).
  - exists out. auto.
Qed.

Lemma valid_scheme_spatial (self : Colorize) (dims sp : list nat) :
  valid_scheme self dims sp -> spatial sp.
Proof. intros V. destruct V; assumption. Qed.

Lemma transform_spec (self : Colorize) (img : ndarray) (mask background : option ndarray)
      (sp : list nat) :
  valid_scheme self (shape img) sp -> bounds_ok self img ->
  fits mask sp -> fits background sp ->
  exists img' raw out,
    Normalize.call (vmin self) (vmax self) img = Ok img' /\
    shape img' = shape img /\
    (forall idx, 0 <= get img' idx <= 1) /\
    colorize self img' (shape img) = Ok (Some raw) /\
    shape raw = sp ++ [3%nat] /\
    transform self img mask background = Ok out /\
    shape out = sp ++ [3%nat] /\
    (forall idx, 0 <= get out idx <= 1) /\
    forall p c, in_bounds p sp -> (c < 3)%nat ->
      get out (p ++ [c]) =
      np.clip1 0 1
        (overlaid background p
           (masked mask p (np.clip1 0 1 (get raw (p ++ [c]) * scale self)))).
Proof.
  intros V B Fm Fb. pose proof (valid_scheme_spatial _ _ _ V) as Hs.
  destruct (Normalize_call_ok self img B) as (img' & En & Sn & Rn).
  destruct (colorize_ok self img' (shape img) sp V Sn) as (raw & Ec & Sc).
  set (scaled := np.clip (np.mul_scalar raw (scale self)) 0 1).
  assert (Ss : shape scaled = sp ++ [3%nat]) by exact Sc.
  destruct (blend_if_ok sp multiply scaled mask Hs Ss Fm) as (o1 & E1 & S1 & G1).
  destruct (blend_if_ok sp add o1 background Hs S1 Fb) as (o2 & E2 & S2 & G2).
  exists img', raw, (np.clip o2 0 1).
  repeat split; try assumption; try apply Rn; try apply clip1_unit.
  - unfold transform. rewrite (_checkDims_ok self (shape img) sp V). cbn [bind].
    rewrite En. cbn [bind].
    rewrite (prepare_ok self (shape img) sp mask V Fm). cbn [bind].
    rewrite (prepare_ok self (shape img) sp background V Fb). cbn [bind].
    rewrite Ec. cbn [bind bound]. fold scaled.
    rewrite E1. cbn [bind]. rewrite E2. reflexivity.
  - intros p c Hp Hc. cbn [np.clip np.map get].
    rewrite (G2 p c Hp Hc), (G1 p c Hp Hc).
    unfold overlaid, masked. destruct background, mask; reflexivity.
Qed.

End TransformSpec.

(** ** The claims *)

(** C1, as the code has it.  On every input with a scheme among rgb, hsv,
    polar, indexed, a ListedColormap or a registered colormap name (a
    colormap object of another class is left out), an image of the shape
    the scheme takes, normalisation bounds in order, and a mask and
    background (when given) of the spatial shape, [transform] returns an
    array whose shape is the spatial shape followed by an axis of length 3,
    and every value of it lies in [0, 1]. *)
Theorem transform_shape_and_range (M : Matplotlib) (self : Colorize) (img : ndarray)
        (mask background : option ndarray) (sp : list nat) :
  valid_scheme self (shape img) sp -> bounds_ok self img ->
  fits mask sp -> fits background sp ->
  exists out, transform self img mask background = Ok out /\
              shape out = sp ++ [3%nat] /\
              forall idx, 0 <= get out idx <= 1.
Proof.
  intros V B Fm Fb.
  destruct (transform_spec self img mask background sp V B Fm Fb)
    as (img' & raw & out & _ & _ & _ & _ & _ & E & S & Rg & _).
  exists out. auto.
Qed.

Lemma transform_shape_and_range_witness :
  exists out, transform (Sample.config "rgb" 1) Sample.img312
                        (Some Sample.mask12) (Some Sample.back12) = Ok out /\
              shape out = [1; 2; 3]%nat /\
              forall idx, 0 <= get out idx <= 1.
Proof.
  apply (transform_shape_and_range matplotlib (Sample.config "rgb" 1) Sample.img312
           (Some Sample.mask12) (Some Sample.back12) [1; 2]%nat).
  - apply (valid_rgb _ [1; 2]%nat); [reflexivity | left; reflexivity].
  - unfold bounds_ok, Normalize.bounds, np.amin, np.amax. cbn. case_minmax; lra.
  - reflexivity.
  - reflexivity.
Defined.

(** ** The polar scheme *)

Section Polar.

Context {M : Matplotlib}.

Lemma fold_put_get (k : nat) (f : nat -> ndarray) (l : list nat) (out : ndarray)
      (idx : list nat) :
  In (nth k idx 0%nat) l ->
  get (fold_left (fun out i => np.put k i out (f i)) l out) idx =
  get (f (nth k idx 0%nat)) (firstn k idx ++ skipn (S k) idx).
Proof.
  induction l as [| i l IH] using rev_ind; intros Hin; [destruct Hin |].
  rewrite fold_left_app. cbn [fold_left]. unfold np.put at 1. cbn [get].
  destruct (Nat.eqb_spec (nth k idx 0%nat) i) as [-> | Hne]; [reflexivity |].
  apply IH. apply in_app_or in Hin. destruct Hin as [H | [H | []]]; [exact H |].
  now elim Hne.
Qed.

(** The hue, the magnitude and the triple given to [hsv_to_rgb] at a pixel. *)
Lemma polar_fed_eq (self : Colorize) (img : ndarray) (c0 : nat) (sp p : list nat) :
  shape img = c0 :: sp -> spatial sp -> in_bounds p sp ->
  polar_fed self img (shape img) p =
  (np.mod1 (PI * 2)
     (np.arctan2_1 (- get img (0%nat :: p)) (- get img (1%nat :: p)) + PI / 2) / (2 * PI),
   1,
   scale self * sqrt (get img (0%nat :: p) ^ 2 + get img (1%nat :: p) ^ 2)).
Proof.
  intros Himg Hs Hp. destruct img as [sh g]. cbn [shape] in *. subst sh.
  unfold polar_fed, ndim.
  two_or_three sp Hs; cbn [shape length Nat.eqb nth].
  - inversion Hp as [| i ? p1 ? _ Hp1]; subst. inversion Hp1 as [| j ? p2 ? _ Hp2]; subst.
    inversion Hp2; subst. reflexivity.
  - inversion Hp as [| i ? p1 ? _ Hp1]; subst. inversion Hp1 as [| j ? p2 ? _ Hp2]; subst.
    inversion Hp2 as [| k ? p3 ? _ Hp3]; subst. inversion Hp3; subst. reflexivity.
Qed.

Lemma colorize_polar (self : Colorize) (img : ndarray) (sp : list nat) :
  cmap self = CmapStr "polar" -> shape img = 2%nat :: sp -> spatial sp ->
  exists raw, colorize self img (shape img) = Ok (Some raw) /\
              shape raw = sp ++ [3%nat] /\
              forall p c, in_bounds p sp -> (c < 3)%nat ->
                get raw (p ++ [c]) =
                rgb_channel c (hsv_to_rgb1 (polar_fed self img (shape img) p)).
Proof.
  intros Hc Himg Hs. destruct img as [sh g]. cbn [shape] in *. subst sh.
  unfold colorize, cmap_is, cmap_in. rewrite Hc.
  cbn [existsb String.eqb Ascii.eqb Bool.eqb orb].
  unfold polar_out, polar_fed, ndim.
  two_or_three sp Hs; cbn [shape length Nat.eqb nth].
  - eexists. split; [reflexivity |]. split; [reflexivity |].
    intros p c Hp Hc3.
    inversion Hp as [| i ? p1 ? _ Hp1]; subst. inversion Hp1 as [| j ? p2 ? _ Hp2]; subst.
    inversion Hp2; subst. reflexivity.
  - eexists. split; [reflexivity |]. split; [now rewrite fold_put_shape |].
    intros p c Hp Hc3.
    inversion Hp as [| i ? p1 ? _ Hp1]; subst. inversion Hp1 as [| j ? p2 ? _ Hp2]; subst.
    inversion Hp2 as [| k ? p3 ? Hk Hp3]; subst. inversion Hp3; subst.
    rewrite fold_put_get by (apply in_seq; cbn; lia).
    reflexivity.
Qed.

End Polar.

(** ** Evaluating [Normalize] on given bounds *)

Lemma Normalize_call_bounds (vmin vmax : option R) (img : ndarray) (lo hi : R) :
  Normalize.bounds vmin vmax img = (Some lo, Some hi) -> lo < hi ->
  Normalize.call vmin vmax img = Ok (np.map (Normalize.rescale lo hi) img).
Proof.
  intros Hb Hlt. unfold Normalize.call. rewrite Hb.
  destruct (Req_dec_T lo hi); [lra |]. destruct (Rlt_dec hi lo); [lra | reflexivity].
Qed.

(** The bounds of an array given by its nested lists. *)
Ltac eval_bounds :=
  unfold Normalize.bounds, Normalize.autoscale_None, np.amin, np.amax, elements;
  cbn [vmin vmax indices shape flat_map List.map seq app get length hd nth fold_left
       array2 array3];
  f_equal; f_equal; case_minmax; lra.

Lemma bounds_img312 :
  Normalize.bounds None None Sample.img312 = (Some 0, Some 1).
Proof. unfold Sample.img312. eval_bounds. Qed.

Lemma bounds_img_diag :
  Normalize.bounds None None SamplePolar.img_diag = (Some 0, Some 1).
Proof. unfold SamplePolar.img_diag. eval_bounds. Qed.

Lemma bounds_img_down :
  Normalize.bounds None None SamplePolar.img_down = (Some (-2), Some 0).
Proof. unfold SamplePolar.img_down. eval_bounds. Qed.

(** C3, as the code has it.  For every polar input the conversion is given
    saturation 1 and, as value, the magnitude [sqrt(c0^2 + c1^2)] of the
    normalised components multiplied by the brightness factor -- not clipped:
    the colorized array is [hsv_to_rgb] of exactly that triple, and the only
    clips come after the conversion. *)
Theorem polar_value_unclipped (M : Matplotlib) (self : Colorize) (img : ndarray)
        (sp : list nat) :
  cmap self = CmapStr "polar" -> shape img = 2%nat :: sp -> spatial sp ->
  bounds_ok self img ->
  exists img' raw,
    Normalize.call (vmin self) (vmax self) img = Ok img' /\
    colorize self img' (shape img) = Ok (Some raw) /\
    forall p, in_bounds p sp ->
      snd (fst (polar_fed self img' (shape img) p)) = 1 /\
      snd (polar_fed self img' (shape img) p) =
        scale self * sqrt (get img' (0%nat :: p) ^ 2 + get img' (1%nat :: p) ^ 2) /\
      forall c, (c < 3)%nat ->
        get raw (p ++ [c]) = rgb_channel c (hsv_to_rgb1 (polar_fed self img' (shape img) p)).
Proof.
  intros Hc Himg Hs B.
  destruct (Normalize_call_ok self img B) as (img' & En & Sn & _).
  assert (Himg' : shape img' = 2%nat :: sp) by congruence.
  destruct (colorize_polar self img' sp Hc Himg' Hs) as (raw & Ec & _ & Gr).
  rewrite Sn in Ec, Gr.
  exists img', raw. split; [exact En |]. split; [exact Ec |].
  intros p Hp. rewrite <- Sn.
  rewrite (polar_fed_eq self img' 2 sp p Himg' Hs Hp). cbn [fst snd].
  split; [reflexivity |]. split; [reflexivity |].
  intros c Hc3. rewrite (Gr p c Hp Hc3), <- Sn.
  now rewrite (polar_fed_eq self img' 2 sp p Himg' Hs Hp).
Qed.

Lemma polar_value_unclipped_witness :
  exists img' raw,
    Normalize.call None None SamplePolar.img_diag = Ok img' /\
    colorize (Sample.config "polar" 1) img' [2; 1; 2]%nat = Ok (Some raw) /\
    forall p, in_bounds p [1; 2]%nat ->
      snd (fst (polar_fed (Sample.config "polar" 1) img' [2; 1; 2]%nat p)) = 1 /\
      snd (polar_fed (Sample.config "polar" 1) img' [2; 1; 2]%nat p) =
        1 * sqrt (get img' (0%nat :: p) ^ 2 + get img' (1%nat :: p) ^ 2) /\
      forall c, (c < 3)%nat ->
        get raw (p ++ [c]) =
        rgb_channel c (hsv_to_rgb1 (polar_fed (Sample.config "polar" 1) img' [2; 1; 2]%nat p)).
Proof.
  apply (polar_value_unclipped matplotlib (Sample.config "polar" 1) SamplePolar.img_diag
           [1; 2]%nat).
  - reflexivity.
  - reflexivity.
  - left. reflexivity.
  - unfold bounds_ok. cbn [vmin vmax Sample.config]. rewrite bounds_img_diag. lra.
Defined.

(** C3 as stated fails: on the image with the pixels (0, 0) and (1, 1) the
    value given to the conversion at the second pixel is [sqrt 2], above 1,
    and so is not the magnitude times the brightness factor clipped to [0, 1]. *)
Lemma polar_value_exceeds_clip :
  exists img',
    Normalize.call None None SamplePolar.img_diag = Ok img' /\
    snd (polar_fed (Sample.config "polar" 1) img' [2; 1; 2]%nat [0; 1]%nat) <>
      np.clip1 0 1 (1 * sqrt (get img' [0; 0; 1]%nat ^ 2 + get img' [1; 0; 1]%nat ^ 2)) /\
    1 < snd (polar_fed (Sample.config "polar" 1) img' [2; 1; 2]%nat [0; 1]%nat).
Proof.
  eexists. split.
  - apply Normalize_call_bounds; [apply bounds_img_diag | lra].
  - set (img' := np.map (Normalize.rescale 0 1) SamplePolar.img_diag).
    assert (E : polar_fed (Sample.config "polar" 1) img' [2; 1; 2]%nat [0; 1]%nat
                = polar_fed (Sample.config "polar" 1) img' (shape img') [0; 1]%nat)
      by reflexivity.
    rewrite E, (polar_fed_eq (Sample.config "polar" 1) img' 2 [1; 2]%nat [0; 1]%nat);
      [| reflexivity | left; reflexivity | repeat constructor].
    cbn [snd Sample.config scale].
    assert (G0 : get img' [0; 0; 1]%nat = 1).
    { unfold img'. cbn. apply rescale_unit. lra. }
    assert (G1 : get img' [1; 0; 1]%nat = 1).
    { unfold img'. cbn. apply rescale_unit. lra. }
    rewrite G0, G1.
    assert (H2 : 1 < sqrt (1 ^ 2 + 1 ^ 2)).
    { rewrite <- sqrt_1 at 1. apply sqrt_lt_1; lra. }
    split; [| lra].
    pose proof (clip1_unit (1 * sqrt (1 ^ 2 + 1 ^ 2))). lra.
Qed.

(** ** The hue of a polar pixel *)

Lemma arctan2_1_down (a : R) : 0 < a -> np.arctan2_1 (- a) (- 0) = - (PI / 2).
Proof.
  intros Ha. unfold np.arctan2_1.
  destruct (Rlt_dec 0 (- 0)); [lra |]. destruct (Rlt_dec (- 0) 0); [lra |].
  destruct (Rlt_dec 0 (- a)); [lra |]. destruct (Rlt_dec (- a) 0); [reflexivity | lra].
Qed.

Lemma arctan2_1_third_quadrant (y x : R) :
  x < 0 -> y < 0 -> np.arctan2_1 y x = atan (y / x) - PI.
Proof.
  intros Hx Hy. unfold np.arctan2_1.
  destruct (Rlt_dec 0 x); [lra |]. destruct (Rlt_dec x 0); [| lra].
  destruct (Rlt_dec 0 y); [lra | reflexivity].
Qed.

Lemma arctan2_1_left (y x : R) :
  x < 0 -> y <= 0 -> np.arctan2_1 y x = atan (y / x) - PI.
Proof.
  intros Hx Hy. unfold np.arctan2_1.
  destruct (Rlt_dec 0 x); [lra |]. destruct (Rlt_dec x 0); [| lra].
  destruct (Rlt_dec 0 y); [lra | reflexivity].
Qed.

Lemma arctan2_1_origin : np.arctan2_1 (- 0) (- 0) = - PI.
Proof.
  unfold np.arctan2_1.
  destruct (Rlt_dec 0 (- 0)); [lra |]. destruct (Rlt_dec (- 0) 0); [lra | reflexivity].
Qed.

Lemma mod1_zero (m : R) : np.mod1 m 0 = 0.
Proof.
  unfold np.mod1. unfold Rdiv. rewrite Rmult_0_l, (ZfloorZ 0). simpl. ring.
Qed.

(** A remainder in the turn below zero is moved up by one period. *)
Lemma mod1_negative_turn (m x : R) : 0 < m -> - m <= x < 0 -> np.mod1 m x = x + m.
Proof.
  intros Hm [H1 H2]. unfold np.mod1.
  assert (E : Zfloor (x / m) = (-1)%Z).
  { apply Zfloor_eq. simpl. split.
    - apply (Rmult_le_reg_r m); [exact Hm |].
      unfold Rdiv. rewrite Rmult_assoc, Rinv_l by lra. lra.
    - apply (Rmult_lt_reg_r m); [exact Hm |].
      unfold Rdiv. rewrite Rmult_assoc, Rinv_l by lra. lra. }
  rewrite E. simpl. ring.
Qed.

Lemma rescale_below (lo hi x : R) : lo < hi -> x <= lo -> Normalize.rescale lo hi x = 0.
Proof.
  intros Hlt Hx. unfold Normalize.rescale.
  replace (np.clip1 lo hi x) with lo by (case_minmax; lra).
  unfold Rdiv. ring.
Qed.

Lemma rescale_above (lo hi x : R) : lo < hi -> lo < x -> 0 < Normalize.rescale lo hi x.
Proof.
  intros Hlt Hx. unfold Normalize.rescale.
  assert (lo < np.clip1 lo hi x) by (case_minmax; lra).
  apply Rmult_lt_0_compat; [lra | apply Rinv_0_lt_compat; lra].
Qed.

(** C4, as the code has it.  A polar pixel with channel 0 equal to 0 and
    channel 1 at or below the lower normalisation bound, that bound being
    negative (so channel 1 is negative) and below the upper bound, is
    normalised to the components (c, 0) with c > 0; the conversion is then
    given hue 0 at saturation 1, with value the brightness factor times c. *)
Theorem polar_hue_zero (M : Matplotlib) (self : Colorize) (img : ndarray)
        (sp : list nat) (lo hi : R) (p : list nat) :
  cmap self = CmapStr "polar" -> shape img = 2%nat :: sp -> spatial sp ->
  Normalize.bounds (vmin self) (vmax self) img = (Some lo, Some hi) ->
  lo < hi -> lo < 0 ->
  in_bounds p sp -> get img (0%nat :: p) = 0 -> get img (1%nat :: p) <= lo ->
  exists img' raw,
    Normalize.call (vmin self) (vmax self) img = Ok img' /\
    colorize self img' (shape img) = Ok (Some raw) /\
    0 < get img' (0%nat :: p) /\ get img' (1%nat :: p) = 0 /\
    polar_fed self img' (shape img) p = (0, 1, scale self * get img' (0%nat :: p)) /\
    forall c, (c < 3)%nat ->
      get raw (p ++ [c]) =
      rgb_channel c (hsv_to_rgb1 (0, 1, scale self * get img' (0%nat :: p))).
Proof.
  intros Hc Himg Hs Hb Hlt Hneg Hp H0 H1.
  set (img' := np.map (Normalize.rescale lo hi) img).
  assert (Himg' : shape img' = 2%nat :: sp) by exact Himg.
  destruct (colorize_polar self img' sp Hc Himg' Hs) as (raw & Ec & _ & Gr).
  assert (Sn : shape img' = shape img) by reflexivity.
  rewrite Sn in Ec, Gr.
  assert (G0 : 0 < get img' (0%nat :: p)).
  { unfold img'. cbn [np.map get]. rewrite H0. apply rescale_above; lra. }
  assert (G1 : get img' (1%nat :: p) = 0).
  { unfold img'. cbn [np.map get]. apply rescale_below; lra. }
  assert (F : polar_fed self img' (shape img) p = (0, 1, scale self * get img' (0%nat :: p))).
  { rewrite <- Sn, (polar_fed_eq self img' 2 sp p Himg' Hs Hp), G1.
    rewrite (arctan2_1_down _ G0).
    replace (- (PI / 2) + PI / 2) with 0 by lra.
    rewrite mod1_zero.
    replace (get img' (0%nat :: p) ^ 2 + 0 ^ 2) with (get img' (0%nat :: p) ^ 2) by ring.
    rewrite sqrt_pow2 by lra.
    f_equal. f_equal. unfold Rdiv. ring. }
  exists img', raw. split; [now apply Normalize_call_bounds |].
  split; [exact Ec |]. split; [exact G0 |]. split; [exact G1 |]. split; [exact F |].
  intros c Hc3. now rewrite (Gr p c Hp Hc3), F.
Qed.

Lemma polar_hue_zero_witness :
  exists img' raw,
    Normalize.call None None SamplePolar.img_down = Ok img' /\
    colorize (Sample.config "polar" 1) img' [2; 1; 2]%nat = Ok (Some raw) /\
    0 < get img' [0; 0; 1]%nat /\ get img' [1; 0; 1]%nat = 0 /\
    polar_fed (Sample.config "polar" 1) img' [2; 1; 2]%nat [0; 1]%nat
      = (0, 1, 1 * get img' [0; 0; 1]%nat) /\
    forall c, (c < 3)%nat ->
      get raw [0; 1; c]%nat =
      rgb_channel c (hsv_to_rgb1 (0, 1, 1 * get img' [0; 0; 1]%nat)).
Proof.
  apply (polar_hue_zero matplotlib (Sample.config "polar" 1) SamplePolar.img_down
           [1; 2]%nat (-2) 0 [0; 1]%nat).
  - reflexivity.
  - reflexivity.
  - left. reflexivity.
  - apply bounds_img_down.
  - lra.
  - lra.
  - repeat constructor.
  - reflexivity.
  - cbn. lra.
Defined.

(** C4 as stated fails: in the image with the pixels (0, -1) and (0, -2) the
    first pixel has channel 0 equal to 0, channel 1 negative and magnitude
    1 = 1 / scale, yet the hue given to the conversion is not 0 (it lies
    above 3/4): the pixel is normalised to (1, 1/2). *)
Lemma polar_reference_hue_nonzero :
  exists img',
    Normalize.call None None SamplePolar.img_down = Ok img' /\
    get SamplePolar.img_down [0; 0; 0]%nat = 0 /\
    get SamplePolar.img_down [1; 0; 0]%nat < 0 /\
    1 / scale (Sample.config "polar" 1) <=
      sqrt (get SamplePolar.img_down [0; 0; 0]%nat ^ 2
            + get SamplePolar.img_down [1; 0; 0]%nat ^ 2) /\
    3 / 4 < fst (fst (polar_fed (Sample.config "polar" 1) img' [2; 1; 2]%nat [0; 0]%nat)) /\
    fst (fst (polar_fed (Sample.config "polar" 1) img' [2; 1; 2]%nat [0; 0]%nat)) <> 0.
Proof.
  eexists. split; [apply Normalize_call_bounds; [apply bounds_img_down | lra] |].
  split; [reflexivity |]. split; [cbn; lra |].
  split.
  { cbn [get SamplePolar.img_down array3 nth Sample.config scale].
    replace (0 ^ 2 + (-1) ^ 2) with 1 by ring. rewrite sqrt_1. lra. }
  set (img' := np.map (Normalize.rescale (-2) 0) SamplePolar.img_down).
  assert (E : polar_fed (Sample.config "polar" 1) img' [2; 1; 2]%nat [0; 0]%nat
              = polar_fed (Sample.config "polar" 1) img' (shape img') [0; 0]%nat)
    by reflexivity.
  rewrite E, (polar_fed_eq (Sample.config "polar" 1) img' 2 [1; 2]%nat [0; 0]%nat);
    [| reflexivity | left; reflexivity | repeat constructor; lia].
  cbn [fst].
  assert (G0 : get img' [0; 0; 0]%nat = 1).
  { unfold img', Normalize.rescale. cbn. case_minmax; lra. }
  assert (G1 : get img' [1; 0; 0]%nat = 1 / 2).
  { unfold img', Normalize.rescale. cbn. case_minmax; lra. }
  rewrite G0, G1.
  rewrite arctan2_1_third_quadrant by lra.
  replace (- (1) / - (1 / 2)) with 2 by field.
  pose proof PI_RGT_0 as Hpi.
  pose proof (atan_bound 2) as [_ Hub].
  assert (Hlb : 0 < atan 2).
  { rewrite <- atan_0. apply atan_increasing. lra. }
  rewrite mod1_negative_turn by lra.
  assert (H34 : 3 / 4 < (atan 2 - PI + PI / 2 + PI * 2) / (2 * PI)).
  { apply (Rmult_lt_reg_r (2 * PI)); [lra |].
    unfold Rdiv at 2. rewrite Rmult_assoc, Rinv_l by lra. lra. }
  split; [exact H34 | lra].
Qed.

(** ** The rgb scheme *)

Ltac prove_in_bounds :=
  unfold in_bounds;
  repeat (apply Forall2_cons; [first [assumption | cbn; lia] |]);
  apply Forall2_nil.

Lemma colorize_rgb {M : Matplotlib} (self : Colorize) (img : ndarray) (sp : list nat) :
  cmap self = CmapStr "rgb" -> shape img = 3%nat :: sp -> spatial sp ->
  exists raw, colorize self img (shape img) = Ok (Some raw) /\
              shape raw = sp ++ [3%nat] /\
              forall p c, in_bounds p sp -> get raw (p ++ [c]) = get img (c :: p).
Proof.
  intros Hc Himg Hs. destruct img as [sh g]. cbn [shape] in *. subst sh.
  unfold colorize, cmap_is, cmap_in. rewrite Hc.
  cbn [existsb String.eqb Ascii.eqb Bool.eqb orb].
  two_or_three sp Hs; (eexists; split; [reflexivity |]; split; [reflexivity |]);
    intros p c Hp.
  - inversion Hp as [| i ? p1 ? _ Hp1]; subst. inversion Hp1 as [| j ? p2 ? _ Hp2]; subst.
    inversion Hp2; subst. reflexivity.
  - inversion Hp as [| i ? p1 ? _ Hp1]; subst. inversion Hp1 as [| j ? p2 ? _ Hp2]; subst.
    inversion Hp2 as [| k ? p3 ? _ Hp3]; subst. inversion Hp3; subst. reflexivity.
Qed.

Lemma Ok_inj {A : Type} (a b : A) : Ok a = Ok b -> a = b.
Proof. congruence. Qed.

(** C5, as the code has it.  A 3 x X x Y image with values in [0, 1] comes
    back unchanged from the rgb scheme with scale 1, channel axis last, when
    the normalisation bounds are 0 and 1 -- set as vmin and vmax, or observed
    as the minimum and maximum of the array. *)
Theorem rgb_identity_on_unit_bounds (M : Matplotlib) (self : Colorize) (img : ndarray)
        (x y : nat) :
  cmap self = CmapStr "rgb" -> scale self = 1 -> shape img = [3; x; y]%nat ->
  (forall idx, in_bounds idx (shape img) -> 0 <= get img idx <= 1) ->
  Normalize.bounds (vmin self) (vmax self) img = (Some 0, Some 1) ->
  exists out, transform self img None None = Ok out /\
              shape out = [x; y; 3]%nat /\
              forall i j c, (i < x)%nat -> (j < y)%nat -> (c < 3)%nat ->
                get out [i; j; c]%nat = get img [c; i; j]%nat.
Proof.
  intros Hc Hk Himg Hv Hb.
  assert (Hs : spatial [x; y]%nat) by (left; reflexivity).
  assert (V : valid_scheme self (shape img) [x; y]%nat).
  { rewrite Himg. now apply valid_rgb. }
  assert (B : bounds_ok self img) by (unfold bounds_ok; rewrite Hb; lra).
  destruct (transform_spec self img None None [x; y]%nat V B I I)
    as (img' & raw & out & En & Sn & _ & Ec & _ & Et & So & _ & Go).
  rewrite (Normalize_call_bounds _ _ img 0 1 Hb) in En by lra.
  apply Ok_inj in En. subst img'.
  destruct (colorize_rgb self (np.map (Normalize.rescale 0 1) img) [x; y]%nat Hc Himg Hs)
    as (raw0 & Ec0 & _ & Gr).
  cbn [np.map shape] in Ec, Ec0. rewrite Ec0 in Ec.
  apply Ok_inj in Ec. injection Ec as ->.
  exists out. split; [exact Et |]. split; [exact So |].
  intros i j c Hi Hj Hc3.
  assert (Hp : in_bounds [i; j]%nat [x; y]%nat) by prove_in_bounds.
  specialize (Go [i; j]%nat c Hp Hc3). specialize (Gr [i; j]%nat c Hp).
  cbn [app] in Go, Gr. rewrite Go, Gr, Hk. cbn [overlaid masked np.map get].
  assert (Hin : in_bounds [c; i; j]%nat (shape img)).
  { rewrite Himg. prove_in_bounds. }
  specialize (Hv _ Hin).
  rewrite rescale_unit by exact Hv.
  rewrite Rmult_1_r, (clip1_id 0 1 (get img [c; i; j]%nat)) by exact Hv.
  now apply clip1_id.
Qed.

Lemma rgb_identity_on_unit_bounds_witness :
  exists out, transform (Sample.config "rgb" 1) Sample.img312 None None = Ok out /\
              shape out = [1; 2; 3]%nat /\
              forall i j c, (i < 1)%nat -> (j < 2)%nat -> (c < 3)%nat ->
                get out [i; j; c]%nat = get Sample.img312 [c; i; j]%nat.
Proof.
  apply (rgb_identity_on_unit_bounds matplotlib (Sample.config "rgb" 1) Sample.img312 1 2).
  - reflexivity.
  - reflexivity.
  - reflexivity.
  - intros idx Hidx.
    inversion Hidx as [| c ? p1 ? Hc Hp1]; subst. inversion Hp1 as [| i ? p2 ? Hi Hp2]; subst.
    inversion Hp2 as [| j ? p3 ? Hj Hp3]; subst. inversion Hp3; subst.
    destruct c as [| [| [| c]]]; [| | | lia]; (destruct i; [| lia]);
      (destruct j as [| [| j]]; [| | lia]); cbn; lra.
  - apply bounds_img312.
Defined.

(** The value of [transform] at a pixel, rgb scheme, bounds [lo < hi]. *)
Lemma transform_rgb_value {M : Matplotlib} (self : Colorize) (img : ndarray)
      (mask background : option ndarray) (sp : list nat) (lo hi : R) :
  cmap self = CmapStr "rgb" -> shape img = 3%nat :: sp -> spatial sp ->
  Normalize.bounds (vmin self) (vmax self) img = (Some lo, Some hi) -> lo < hi ->
  fits mask sp -> fits background sp ->
  exists out, transform self img mask background = Ok out /\
              shape out = sp ++ [3%nat] /\
              forall p c, in_bounds p sp -> (c < 3)%nat ->
                get out (p ++ [c]) =
                np.clip1 0 1
                  (overlaid background p
                     (masked mask p
                        (np.clip1 0 1 (Normalize.rescale lo hi (get img (c :: p))
                                       * scale self)))).
Proof.
  intros Hc Himg Hs Hb Hlt Fm Fb.
  assert (V : valid_scheme self (shape img) sp).
  { rewrite Himg. now apply valid_rgb. }
  assert (B : bounds_ok self img) by (unfold bounds_ok; rewrite Hb; lra).
  destruct (transform_spec self img mask background sp V B Fm Fb)
    as (img' & raw & out & En & Sn & _ & Ec & _ & Et & So & _ & Go).
  rewrite (Normalize_call_bounds _ _ img lo hi Hb Hlt) in En.
  apply Ok_inj in En. subst img'.
  destruct (colorize_rgb self (np.map (Normalize.rescale lo hi) img) sp Hc Himg Hs)
    as (raw0 & Ec0 & _ & Gr).
  cbn [np.map shape] in Ec, Ec0. rewrite Ec0 in Ec.
  apply Ok_inj in Ec. injection Ec as ->.
  exists out. split; [exact Et |]. split; [exact So |].
  intros p c Hp Hc3. now rewrite (Go p c Hp Hc3), (Gr p c Hp).
Qed.

Lemma bounds_img_quarter :
  Normalize.bounds None None SampleRgb.img_quarter = (Some (1 / 4), Some (3 / 4)).
Proof. unfold SampleRgb.img_quarter. eval_bounds. Qed.

(** C5 as stated fails: the 3 x 1 x 1 image (1/4, 1/2, 3/4) has all its
    values in [0, 1], and the rgb scheme with scale 1 and unset bounds
    rescales it by its minimum and maximum: the red value comes back as 0. *)
Lemma rgb_rescales_unit_image :
  shape SampleRgb.img_quarter = [3; 1; 1]%nat /\
  (forall idx, 0 <= get SampleRgb.img_quarter idx <= 1) /\
  exists out, transform (Sample.config "rgb" 1) SampleRgb.img_quarter None None = Ok out /\
              get SampleRgb.img_quarter [0; 0; 0]%nat = 1 / 4 /\
              get out [0; 0; 0]%nat = 0 /\
              get out [0; 0; 0]%nat <> get SampleRgb.img_quarter [0; 0; 0]%nat.
Proof.
  split; [reflexivity |]. split.
  { intros idx. unfold SampleRgb.img_quarter. cbn [get array3].
    destruct (nth 0 idx 0%nat) as [| [| [| c]]]; destruct (nth 1 idx 0%nat) as [| i];
      destruct (nth 2 idx 0%nat) as [| j]; cbn;
      try (destruct i); try (destruct j); try (destruct c); cbn; lra. }
  destruct (transform_rgb_value (Sample.config "rgb" 1) SampleRgb.img_quarter None None
              [1; 1]%nat (1 / 4) (3 / 4)) as (out & Et & _ & Go);
    [reflexivity | reflexivity | left; reflexivity | apply bounds_img_quarter
     | lra | exact I | exact I |].
  exists out. split; [exact Et |]. split; [reflexivity |].
  assert (E : get out [0; 0; 0]%nat = 0).
  { change [0; 0; 0]%nat with ([0; 0] ++ [0])%nat.
    rewrite (Go [0; 0]%nat 0%nat) by (first [prove_in_bounds | lia]).
    cbn [overlaid masked Sample.config scale SampleRgb.img_quarter get array3 nth].
    rewrite rescale_below by lra. rewrite Rmult_0_l.
    rewrite (clip1_id 0 1 0) by lra. apply clip1_id. lra. }
  split; [exact E |]. rewrite E. cbn. lra.
Qed.

(** ** Mask and background *)

Lemma bounds_back13 :
  Normalize.bounds None None SampleRgb.back13 = (Some 1, Some 3).
Proof. unfold SampleRgb.back13. eval_bounds. Qed.

(** C2, the code at the failing input.  The rgb image [Sample.img312] has
    red value 0 at pixel (0, 0); the background has the values 1 and 3.
    [_prepareBackground] would normalise the background to 0 at that pixel,
    leaving the output at 0; [transform] passes the background through
    [_prepareMask] instead, adds its raw value 1 and returns 1. *)
Theorem background_is_clipped_not_normalized :
  exists out nb,
    transform (Sample.config "rgb" 1) Sample.img312 None (Some SampleRgb.back13) = Ok out /\
    _prepareBackground SampleRgb.back13 = Ok nb /\
    get nb [0; 0]%nat = 0 /\
    get out [0; 0; 0]%nat = np.clip1 0 1 (0 + np.clip_lo1 0 (get SampleRgb.back13 [0; 0]%nat)) /\
    get out [0; 0; 0]%nat = 1 /\
    np.clip1 0 1 (0 + get nb [0; 0]%nat) = 0.
Proof.
  destruct (transform_rgb_value (Sample.config "rgb" 1) Sample.img312 None
              (Some SampleRgb.back13) [1; 2]%nat 0 1) as (out & Et & _ & Go);
    [reflexivity | reflexivity | left; reflexivity | apply bounds_img312
     | lra | exact I | reflexivity |].
  exists out, (np.map (Normalize.rescale 1 3) SampleRgb.back13).
  split; [exact Et |].
  split; [apply Normalize_call_bounds; [apply bounds_back13 | lra] |].
  assert (N0 : get (np.map (Normalize.rescale 1 3) SampleRgb.back13) [0; 0]%nat = 0).
  { cbn. apply rescale_below; lra. }
  assert (E : get out [0; 0; 0]%nat
              = np.clip1 0 1 (0 + np.clip_lo1 0 (get SampleRgb.back13 [0; 0]%nat))).
  { change [0; 0; 0]%nat with ([0; 0] ++ [0])%nat.
    rewrite (Go [0; 0]%nat 0%nat) by (first [prove_in_bounds | lia]).
    cbn [overlaid masked Sample.config scale Sample.img312 get array3 nth add].
    rewrite rescale_unit by lra. rewrite Rmult_0_l.
    now rewrite (clip1_id 0 1 0) by lra. }
  split; [exact N0 |]. split; [exact E |].
  split; [rewrite E; cbn; case_minmax; lra |].
  rewrite N0. case_minmax; lra.
Qed.

Section BlendOrder.

Context {M : Matplotlib}.

Lemma transform_background_first_spec (self : Colorize) (img : ndarray)
      (mask background : option ndarray) (sp : list nat) :
  valid_scheme self (shape img) sp -> bounds_ok self img ->
  fits mask sp -> fits background sp ->
  exists img' raw out,
    Normalize.call (vmin self) (vmax self) img = Ok img' /\
    colorize self img' (shape img) = Ok (Some raw) /\
    transform_background_first self img mask background = Ok out /\
    forall p c, in_bounds p sp -> (c < 3)%nat ->
      get out (p ++ [c]) =
      np.clip1 0 1
        (masked mask p
           (overlaid background p (np.clip1 0 1 (get raw (p ++ [c]) * scale self)))).
Proof.
  intros V B Fm Fb. pose proof (valid_scheme_spatial _ _ _ V) as Hs.
  destruct (Normalize_call_ok self img B) as (img' & En & Sn & Rn).
  destruct (colorize_ok self img' (shape img) sp V Sn) as (raw & Ec & Sc).
  set (scaled := np.clip (np.mul_scalar raw (scale self)) 0 1).
  assert (Ss : shape scaled = sp ++ [3%nat]) by exact Sc.
  destruct (blend_if_ok sp add scaled background Hs Ss Fb) as (o1 & E1 & S1 & G1).
  destruct (blend_if_ok sp multiply o1 mask Hs S1 Fm) as (o2 & E2 & S2 & G2).
  exists img', raw, (np.clip o2 0 1).
  split; [exact En |]. split; [exact Ec |]. split.
  - unfold transform_background_first.
    rewrite (_checkDims_ok self (shape img) sp V). cbn [bind].
    rewrite En. cbn [bind].
    rewrite (prepare_ok self (shape img) sp mask V Fm). cbn [bind].
    rewrite (prepare_ok self (shape img) sp background V Fb). cbn [bind].
    rewrite Ec. cbn [bind bound]. fold scaled.
    rewrite E1. cbn [bind]. rewrite E2. reflexivity.
  - intros p c Hp Hc. cbn [np.clip np.map get].
    rewrite (G2 p c Hp Hc), (G1 p c Hp Hc).
    unfold overlaid, masked. destruct background, mask; reflexivity.
Qed.

End BlendOrder.

(** At a pixel the two orders give one value exactly when the background
    adds nothing, or the mask is 1, or both sums reach 1 and are clipped. *)
Lemma blend_order_same_iff (v m b : R) :
  0 <= v -> 0 <= m -> 0 <= b ->
  np.clip1 0 1 (add (multiply v m) b) = np.clip1 0 1 (multiply (add v b) m) <->
  (b = 0 \/ m = 1 \/ (1 <= v * m + b /\ 1 <= (v + b) * m)).
Proof.
  unfold add, multiply. intros Hv Hm Hb.
  assert (HA : 0 <= v * m + b) by nra.
  assert (HB : 0 <= (v + b) * m) by nra.
  assert (Hlow : forall x, 0 <= x -> x < 1 -> np.clip1 0 1 x = x).
  { intros x H0 H1. apply clip1_id. lra. }
  assert (Hhigh : forall x, 1 <= x -> np.clip1 0 1 x = 1).
  { intros x H1. case_minmax; lra. }
  split.
  - intros E.
    destruct (Rlt_le_dec (v * m + b) 1) as [A1 | A1],
             (Rlt_le_dec ((v + b) * m) 1) as [B1 | B1].
    + rewrite (Hlow _ HA A1), (Hlow _ HB B1) in E.
      assert (Hz : b * (1 - m) = 0) by lra.
      apply Rmult_integral in Hz. destruct Hz as [Hz | Hz]; [now left | right; left; lra].
    + rewrite (Hlow _ HA A1), (Hhigh _ B1) in E. lra.
    + rewrite (Hhigh _ A1), (Hlow _ HB B1) in E. lra.
    + right. right. split; assumption.
  - intros [-> | [-> | [H1 H2]]].
    + f_equal. ring.
    + f_equal. ring.
    + now rewrite (Hhigh _ H1), (Hhigh _ H2).
Qed.

Section BlendOrders.

Context {M : Matplotlib}.

(** The output of [transform] and of the opposite order, at every pixel. *)
Lemma blend_orders_spec (self : Colorize) (img m b : ndarray) (sp : list nat) :
  valid_scheme self (shape img) sp -> bounds_ok self img ->
  shape m = sp -> shape b = sp ->
  exists img' raw out swapped,
    Normalize.call (vmin self) (vmax self) img = Ok img' /\
    colorize self img' (shape img) = Ok (Some raw) /\
    transform self img (Some m) (Some b) = Ok out /\
    transform_background_first self img (Some m) (Some b) = Ok swapped /\
    forall p c, in_bounds p sp -> (c < 3)%nat ->
      get out (p ++ [c]) =
        np.clip1 0 1
          (add (multiply (np.clip1 0 1 (get raw (p ++ [c]) * scale self))
                         (np.clip_lo1 0 (get m p)))
               (np.clip_lo1 0 (get b p))) /\
      get swapped (p ++ [c]) =
        np.clip1 0 1
          (multiply (add (np.clip1 0 1 (get raw (p ++ [c]) * scale self))
                         (np.clip_lo1 0 (get b p)))
                    (np.clip_lo1 0 (get m p))).
Proof.
  intros V B Fm Fb.
  destruct (transform_spec self img (Some m) (Some b) sp V B Fm Fb)
    as (img' & raw & out & En & _ & _ & Ec & _ & Et & _ & _ & Go).
  destruct (transform_background_first_spec self img (Some m) (Some b) sp V B Fm Fb)
    as (img2 & raw2 & swapped & En2 & Ec2 & Es & Gs).
  rewrite En in En2. apply Ok_inj in En2. subst img2.
  rewrite Ec in Ec2. apply Ok_inj in Ec2. injection Ec2 as <-.
  exists img', raw, out, swapped.
  split; [exact En |]. split; [exact Ec |]. split; [exact Et |]. split; [exact Es |].
  intros p c Hp Hc.
  rewrite (Go p c Hp Hc), (Gs p c Hp Hc). cbn [overlaid masked].
  split; reflexivity.
Qed.

End BlendOrders.




(** ** The indexed scheme *)

Lemma fold_Rmax_ge_init (l : list R) (a : R) : a <= fold_left Rmax l a.
Proof.
  revert a. induction l as [| x l IH]; intros a; cbn [fold_left]; [lra |].
  apply Rle_trans with (Rmax a x); [apply Rmax_l | apply IH].
Qed.

Lemma fold_Rmax_ge (l : list R) (a x : R) : In x l -> x <= fold_left Rmax l a.
Proof.
  revert a. induction l as [| y l IH]; intros a Hin; [destruct Hin |].
  cbn [fold_left]. destruct Hin as [-> | Hin]; [| now apply IH].
  apply Rle_trans with (Rmax a x); [apply Rmax_r | apply fold_Rmax_ge_init].
Qed.

Lemma fold_Rmax_in (l : list R) (a : R) :
  fold_left Rmax l a = a \/ In (fold_left Rmax l a) l.
Proof.
  revert a. induction l as [| y l IH]; intros a; cbn [fold_left]; [now left |].
  destruct (IH (Rmax a y)) as [E | Hin]; [| right; now right].
  rewrite E. unfold Rmax. destruct (Rle_dec a y); [right; now left | now left].
Qed.

(** The fold over contributions that are not negative, started at 0, is
    their maximum. *)
Lemma fold_Rmax_attained (l : list R) :
  l <> [] -> (forall x, In x l -> 0 <= x) -> In (fold_left Rmax l 0) l.
Proof.
  intros Hne Hpos. destruct (fold_Rmax_in l 0) as [E | Hin]; [| exact Hin].
  destruct l as [| x l]; [now elim Hne |].
  assert (Hx : x <= fold_left Rmax (x :: l) 0) by (apply fold_Rmax_ge; now left).
  assert (H0 : 0 <= x) by (apply Hpos; now left).
  rewrite E in *. left. lra.
Qed.

Lemma combine_seq_nth {A : Type} (d : A) (l : list A) (s : nat) :
  combine (seq s (length l)) l = List.map (fun i => (i, nth (i - s) l d)) (seq s (length l)).
Proof.
  revert s. induction l as [| x l IH]; intros s; [reflexivity |].
  cbn [length seq combine List.map]. rewrite Nat.sub_diag. cbn [nth]. f_equal.
  rewrite IH. apply map_ext_in. intros i Hi. apply in_seq in Hi.
  replace (i - s)%nat with (S (i - S s)) by lia. reflexivity.
Qed.

Lemma enumerate_nth {A : Type} (d : A) (l : list A) :
  enumerate l = List.map (fun i => (i, nth i l d)) (seq 0 (length l)).
Proof.
  unfold enumerate. rewrite (combine_seq_nth d). apply map_ext.
  intros i. now rewrite Nat.sub_0_r.
Qed.

Section Indexed.

Context {M : Matplotlib}.

Lemma indexed_tmp_get (img : ndarray) (ix : nat) (clr : color) (p : list nat) (c : nat) :
  np.clip1 0 1 (get (indexed_tmp img ix clr) (p ++ [c])) = ramped clr (get img (ix :: p)) c.
Proof.
  unfold indexed_tmp, ramped.
  destruct (ndim img =? 4)%nat; destruct (ndim img =? 3)%nat;
    cbn [np.slice03 Colormap_call get np.getitem];
    now rewrite last_last, removelast_last.
Qed.

Lemma colorize_indexed (self : Colorize) (img : ndarray) (cl : list color) (sp : list nat) :
  cmap self = CmapStr "indexed" -> colors self = Some cl ->
  shape img = length cl :: sp -> spatial sp ->
  colorize self img (shape img)
  = Ok (Some (indexed_fold img (enumerate cl) (np.zeros (sp ++ [3%nat])))).
Proof.
  intros Hc Hl Himg Hs. destruct img as [sh g]. cbn [shape] in *. subst sh.
  unfold colorize, cmap_is, cmap_in. rewrite Hc.
  cbn [existsb String.eqb Ascii.eqb Bool.eqb orb].
  unfold indexed_out. rewrite Hl.
  two_or_three sp Hs; cbn [ndim shape length Nat.eqb nth app];
    now rewrite indexed_for_each.
Qed.

(** The colorized value at a pixel: the fold of [Rmax] over the channels'
    ramped colours. *)
Lemma indexed_raw_get (img : ndarray) (cl : list color) (sp p : list nat) (c : nat) :
  get (indexed_fold img (enumerate cl) (np.zeros (sp ++ [3%nat]))) (p ++ [c])
  = fold_left Rmax
      (List.map (fun i => ramped (nth i cl (0, 0, 0)) (get img (i :: p)) c)
                (seq 0 (length cl)))
      0.
Proof.
  rewrite indexed_fold_get. cbn [np.zeros get]. f_equal.
  rewrite (enumerate_nth (0, 0, 0)), map_map. apply map_ext.
  intros i. cbn [fst snd]. apply indexed_tmp_get.
Qed.

End Indexed.

Lemma bounds_img_two :
  Normalize.bounds None None SampleIndexed.img_two = (Some 0, Some 1).
Proof. unfold SampleIndexed.img_two. eval_bounds. Qed.

Lemma lut_index_zero (n : Z) : (0 < n)%Z -> mpl.lut_index n 0 = 0%Z.
Proof.
  intros Hn. unfold mpl.lut_index. rewrite Rmult_0_l, (ZfloorZ 0). lia.
Qed.

(** matplotlib's ramp, written out: component [c] of the colour that the
    table of the ramp from black to [clr] holds for the value [v] is entry
    [int(v * 256)] (at most 255) of the table, [clr] times [k / 255]. *)
Lemma mpl_ramped (clr : color) (v : R) (c : nat) :
  (c < 3)%nat ->
  @ramped matplotlib clr v c = mpl.ramp1 (rgb_channel c clr) (mpl.lut_index 256 v).
Proof.
  intros Hc. destruct clr as [[r g] b]. unfold ramped.
  cbn [from_list_blend matplotlib mpl.from_list_blend lookup].
  unfold mpl.ramp1.
  destruct c as [| [| [| c]]]; cbn [rgba_channel rgb_channel nth]; try lia;
    apply clip1_id; apply clip1_range; lra.
Qed.

Lemma ramp1_range (x : R) (k : Z) : 0 <= mpl.ramp1 x k <= 1.
Proof. apply clip1_unit. Qed.

Lemma ramp1_first (x : R) : mpl.ramp1 x 0 = 0.
Proof.
  unfold mpl.ramp1. replace (x * (0 / 255)) with 0 by (unfold Rdiv; ring).
  apply clip1_id. lra.
Qed.

(** The indexed scheme on matplotlib's ramps, from the input image: what
    the branch leaves and what [transform] returns. *)
Lemma transform_indexed_value (self : Colorize) (img : ndarray) (cl : list color)
      (sp : list nat) (lo hi : R) :
  cmap self = CmapStr "indexed" -> colors self = Some cl ->
  shape img = length cl :: sp -> spatial sp ->
  Normalize.bounds (vmin self) (vmax self) img = (Some lo, Some hi) -> lo < hi ->
  exists raw out,
    Normalize.call (vmin self) (vmax self) img
      = Ok (np.map (Normalize.rescale lo hi) img) /\
    @colorize matplotlib self (np.map (Normalize.rescale lo hi) img) (shape img)
      = Ok (Some raw) /\
    shape raw = sp ++ [3%nat] /\
    @transform matplotlib self img None None = Ok out /\
    forall p c, in_bounds p sp -> (c < 3)%nat ->
      get raw (p ++ [c]) =
        fold_left Rmax
          (List.map (fun i => mpl.ramp1 (rgb_channel c (nth i cl (0, 0, 0)))
                                (mpl.lut_index 256
                                   (Normalize.rescale lo hi (get img (i :: p)))))
                    (seq 0 (length cl)))
          0 /\
      get out (p ++ [c]) = np.clip1 0 1 (np.clip1 0 1 (get raw (p ++ [c]) * scale self)).
Proof.
  intros Hc Hl Himg Hs Hb Hlt.
  assert (V : @valid_scheme matplotlib self (shape img) sp).
  { rewrite Himg. now apply valid_indexed. }
  assert (B : bounds_ok self img) by (unfold bounds_ok; rewrite Hb; lra).
  destruct (@transform_spec matplotlib self img None None sp V B I I)
    as (img' & raw & out & En & Sn & _ & Ec & Sr & Et & _ & _ & Go).
  rewrite (Normalize_call_bounds _ _ img lo hi Hb Hlt) in En.
  apply Ok_inj in En. subst img'.
  assert (Himg' : shape (np.map (Normalize.rescale lo hi) img) = length cl :: sp)
    by exact Himg.
  pose proof (@colorize_indexed matplotlib self _ cl sp Hc Hl Himg' Hs) as Ec'.
  change (shape (np.map (Normalize.rescale lo hi) img)) with (shape img) in Ec'.
  rewrite Ec in Ec'. apply Ok_inj in Ec'. injection Ec' as Eraw.
  exists raw, out.
  split; [now apply Normalize_call_bounds |]. split; [exact Ec |].
  split; [exact Sr |]. split; [exact Et |].
  intros p c Hp Hc3. split.
  - rewrite Eraw, (@indexed_raw_get matplotlib). f_equal. apply map_ext.
    intros i. rewrite (mpl_ramped _ _ c Hc3). reflexivity.
  - rewrite (Go p c Hp Hc3). reflexivity.
Qed.



Lemma bounds_img_signed :
  Normalize.bounds None None SampleIndexed.img_signed = (Some (-1), Some 1).
Proof. unfold SampleIndexed.img_signed. eval_bounds. Qed.

Lemma lut_index_half : mpl.lut_index 256 (1 / 2) = 128%Z.
Proof.
  unfold mpl.lut_index. replace (1 / 2 * 256) with (IZR 128) by (simpl; lra).
  rewrite ZfloorZ. reflexivity.
Qed.

Lemma lut_index_one : mpl.lut_index 256 1 = 255%Z.
Proof.
  unfold mpl.lut_index. replace (1 * 256) with (IZR 256) by (simpl; lra).
  rewrite ZfloorZ. reflexivity.
Qed.


(** ** The selector *)

Section Selector.

Context {M : Matplotlib}.

Lemma indexed_loop_raises (img : ndarray) (l : list (nat * color)) (out : option ndarray)
      (e : exn) :
  for_each l (indexed_step img) out = Raise e -> e = UnboundLocalError.
Proof.
  destruct l as [| ic l]; [discriminate |].
  destruct out as [o |].
  - rewrite (indexed_for_each img (ic :: l) o). discriminate.
  - cbn. congruence.
Qed.

(** [colorize] raises 'Colorization method not understood' exactly when
    [self.cmap] is neither a str nor a ListedColormap. *)
Lemma colorize_not_understood (self : Colorize) (img : ndarray) (dims : list nat) :
  colorize self img dims = Raise NotUnderstood <->
  isinstance_str self || isinstance_ListedColormap self = false.
Proof.
  unfold colorize, cmap_is, cmap_in, isinstance_str, isinstance_ListedColormap.
  destruct (cmap self) as [name | cm | cm |]; cbn [existsb orb].
  - split; [| discriminate]. intros H. exfalso.
    destruct (String.eqb name "rgb"); [discriminate |].
    destruct (String.eqb name "hsv"); [discriminate |].
    destruct (String.eqb name "polar"); [discriminate |].
    destruct (String.eqb name "indexed").
    + unfold indexed_out in H. destruct (colors self) as [cl |]; [| discriminate].
      apply indexed_loop_raises in H. discriminate.
    + unfold named_out in H. destruct (get_cmap name); discriminate.
  - split; discriminate.
  - split; reflexivity.
  - split; reflexivity.
Qed.

End Selector.

(** C8, the code at the failing input.  A colormap object that is not a
    ListedColormap -- here LinearSegmentedColormap.from_list('blend',
    [[0, 0, 0], [1, 1, 1]]) -- passes the dimension check and the
    normalisation and is then refused with 'Colorization method not
    understood'; the lookup is never reached.  In general the dispatch
    raises that exception exactly when [self.cmap] is neither a str nor a
    ListedColormap. *)
Theorem segmented_colormap_not_understood :
  transform SampleCmap.segmented_gray SampleCmap.img12 None None = Raise NotUnderstood /\
  forall (M : Matplotlib) (self : Colorize) (img : ndarray) (dims : list nat),
    colorize self img dims = Raise NotUnderstood <->
    isinstance_str self || isinstance_ListedColormap self = false.
Proof.
  split.
  - unfold transform.
    assert (E : Normalize.call None None SampleCmap.img12
                = Ok (np.map (Normalize.rescale 0 1) SampleCmap.img12)).
    { apply Normalize_call_bounds; [| lra]. unfold SampleCmap.img12. eval_bounds. }
    cbn [SampleCmap.segmented_gray vmin vmax]. rewrite E. reflexivity.
  - intros M self img dims. apply colorize_not_understood.
Qed.

(** C1 as stated fails.  A colormap object is a colormap
    selector and a 1 x 2 image has a shape a colormap takes, but the object
    LinearSegmentedColormap.from_list('blend', [[0, 0, 0], [1, 1, 1]]) is not
    a ListedColormap: [transform] raises 'Colorization method not
    understood' and returns no array.  Nor does it return one for the rgb
    scheme on a 3 x 1 x 2 image when the bounds are set out of order,
    [vmin = 1] and [vmax = 0]: Normalize raises ValueError. *)
Lemma valid_selector_returns_no_array :
  transform SampleCmap.segmented_gray SampleCmap.img12 None None = Raise NotUnderstood /\
  transform SampleCheck.rgb_reversed_bounds Sample.img312 None None = Raise ValueError.
Proof.
  split.
  - unfold transform.
    assert (E : Normalize.call None None SampleCmap.img12
                = Ok (np.map (Normalize.rescale 0 1) SampleCmap.img12)).
    { apply Normalize_call_bounds; [| lra]. unfold SampleCmap.img12. eval_bounds. }
    cbn [SampleCmap.segmented_gray vmin vmax]. rewrite E. reflexivity.
  - unfold transform.
    rewrite (_checkDims_ok SampleCheck.rgb_reversed_bounds (shape Sample.img312)
               [1; 2]%nat)
      by (apply (valid_rgb _ [1; 2]%nat); [reflexivity | left; reflexivity]).
    cbn [bind]. unfold Normalize.call, Normalize.bounds, Normalize.autoscale_None.
    cbn [vmin vmax SampleCheck.rgb_reversed_bounds].
    destruct (Req_dec_T 1 0); [lra |]. destruct (Rlt_dec 0 1); [reflexivity | lra].
Qed.

(** ** [optimize] *)

(** C9.  On an array of fewer than two dimensions [optimize] raises
    'Input array must be two-dimensional' with no library call made: the
    log of calls is as it was.  On an array of two or more dimensions it
    does not raise that exception. *)
Theorem optimize_dimension_check (M : Matplotlib) (N : Numerics) (mat : ndarray)
        (asCmap : bool) (log : list library_call) :
  ((ndim mat < 2)%nat -> optimize mat asCmap log = (log, Raise InvalidInput)) /\
  ((2 <= ndim mat)%nat -> snd (optimize mat asCmap log) <> Raise InvalidInput).
Proof.
  unfold optimize. split; intros H.
  - apply Nat.ltb_lt in H. rewrite H. reflexivity.
  - apply Nat.ltb_ge in H. rewrite H.
    unfold lbind, lcall, lraise, lret.
    destruct (pdist_cosine mat) as [d |]; cbn [snd]; [| discriminate].
    destruct (minimize _ _ _) as [res |]; cbn [snd]; [| discriminate].
    destruct (np.reshape res _) as [r | e]; cbn [snd]; discriminate.
Qed.

Lemma optimize_dimension_check_witness :
  @optimize matplotlib SampleNumerics.instance SampleNumerics.vector false []
    = ([], Raise InvalidInput) /\
  snd (@optimize matplotlib SampleNumerics.instance SampleNumerics.matrix false [])
    <> Raise InvalidInput.
Proof.
  split.
  - apply (proj1 (optimize_dimension_check matplotlib SampleNumerics.instance
                    SampleNumerics.vector false [])).
    cbn. lia.
  - apply (proj2 (optimize_dimension_check matplotlib SampleNumerics.instance
                    SampleNumerics.matrix false [])).
    cbn. lia.
Defined.

(** ** The brightness factor in the polar scheme *)

Lemma clip1_idem (lo hi x : R) : lo <= hi -> np.clip1 lo hi (np.clip1 lo hi x) = np.clip1 lo hi x.
Proof. intros H. apply clip1_id. now apply clip1_range. Qed.

(** matplotlib's conversion is linear in the value. *)
Lemma mpl_hsv_to_rgb1_value (h s v k : R) (c : nat) :
  rgb_channel c (mpl.hsv_to_rgb1 (h, s, k * v)) = k * rgb_channel c (mpl.hsv_to_rgb1 (h, s, v)).
Proof.
  unfold mpl.hsv_to_rgb1.
  repeat match goal with
         | |- context [if ?b then _ else _] => destruct b
         end;
    destruct c as [| [| [| c]]]; cbn [rgb_channel nth]; try ring;
    destruct c; ring.
Qed.

(** matplotlib's conversion at hue 0 and saturation 1: red, as bright as the
    value. *)
Lemma mpl_hsv_to_rgb1_red (v : R) : mpl.hsv_to_rgb1 (0, 1, v) = (v, 0, 0).
Proof.
  unfold mpl.hsv_to_rgb1, mpl.trunc. rewrite Rmult_0_l.
  destruct (Rle_dec 0 0) as [_ | H]; [| lra].
  rewrite (ZfloorZ 0). destruct (Req_dec_T 1 0); [lra |].
  cbn [Z.modulo Z.eqb Z.div_eucl]. f_equal; [f_equal |]; simpl; ring.
Qed.

Section PolarScale.

Context {M : Matplotlib}.

(** A pixel on the positive half of the first axis has hue 0. *)
Lemma polar_fed_axis (self : Colorize) (img : ndarray) (sp p : list nat) :
  shape img = 2%nat :: sp -> spatial sp -> in_bounds p sp ->
  0 < get img (0%nat :: p) -> get img (1%nat :: p) = 0 ->
  polar_fed self img (shape img) p = (0, 1, scale self * get img (0%nat :: p)).
Proof.
  intros Himg Hs Hp G0 G1.
  rewrite (polar_fed_eq self img 2 sp p Himg Hs Hp), G1.
  rewrite (arctan2_1_down _ G0).
  replace (- (PI / 2) + PI / 2) with 0 by lra.
  rewrite mod1_zero.
  replace (get img (0%nat :: p) ^ 2 + 0 ^ 2) with (get img (0%nat :: p) ^ 2) by ring.
  rewrite sqrt_pow2 by lra.
  f_equal. f_equal. unfold Rdiv. ring.
Qed.

(** The output of [transform] at a polar pixel, neither mask nor background. *)
Lemma transform_polar_value (self : Colorize) (img : ndarray) (sp : list nat) :
  cmap self = CmapStr "polar" -> shape img = 2%nat :: sp -> spatial sp ->
  bounds_ok self img ->
  exists img' out,
    Normalize.call (vmin self) (vmax self) img = Ok img' /\
    shape img' = shape img /\
    transform self img None None = Ok out /\
    forall p c, in_bounds p sp -> (c < 3)%nat ->
      get out (p ++ [c]) =
      np.clip1 0 1
        (rgb_channel c (hsv_to_rgb1 (polar_fed self img' (shape img) p)) * scale self).
Proof.
  intros Hc Himg Hs B.
  assert (V : valid_scheme self (shape img) sp).
  { rewrite Himg. now apply valid_polar. }
  destruct (transform_spec self img None None sp V B I I)
    as (img' & raw & out & En & Sn & _ & Ec & _ & Et & _ & _ & Go).
  assert (Himg' : shape img' = 2%nat :: sp) by congruence.
  destruct (colorize_polar self img' sp Hc Himg' Hs) as (raw0 & Ec0 & _ & Gr).
  rewrite Sn in Ec0, Gr. rewrite Ec in Ec0. apply Ok_inj in Ec0. injection Ec0 as <-.
  exists img', out. split; [exact En |]. split; [exact Sn |]. split; [exact Et |].
  intros p c Hp Hc3.
  rewrite (Go p c Hp Hc3), (Gr p c Hp Hc3). cbn [overlaid masked].
  apply clip1_idem. lra.
Qed.

End PolarScale.

Lemma mpl_value_linear : @value_linear matplotlib.
Proof. intros h s v k c. apply mpl_hsv_to_rgb1_value. Qed.

Section PolarTwice.

Context {M : Matplotlib}.

(** With a conversion linear in the value, the output is the colour at
    brightness factor 1 multiplied by the square of the brightness factor. *)
Lemma transform_polar_scale_squared (self : Colorize) (img : ndarray) (sp : list nat) :
  value_linear ->
  cmap self = CmapStr "polar" -> shape img = 2%nat :: sp -> spatial sp ->
  bounds_ok self img ->
  exists img' out,
    Normalize.call (vmin self) (vmax self) img = Ok img' /\
    transform self img None None = Ok out /\
    forall p c, in_bounds p sp -> (c < 3)%nat ->
      get out (p ++ [c]) =
      np.clip1 0 1
        (scale self * scale self
         * rgb_channel c (hsv_to_rgb1 (polar_fed (with_scale self 1) img' (shape img) p))).
Proof.
  intros Hlin Hc Himg Hs B.
  destruct (transform_polar_value self img sp Hc Himg Hs B)
    as (img' & out & En & Sn & Et & Go).
  assert (Himg' : shape img' = 2%nat :: sp) by congruence.
  exists img', out. split; [exact En |]. split; [exact Et |].
  intros p c Hp Hc3. rewrite (Go p c Hp Hc3), <- Sn.
  rewrite (polar_fed_eq self img' 2 sp p Himg' Hs Hp).
  rewrite (polar_fed_eq (with_scale self 1) img' 2 sp p Himg' Hs Hp).
  cbn [with_scale scale]. rewrite Rmult_1_l, Hlin. f_equal. ring.
Qed.

End PolarTwice.

Lemma bounds_polar_unit (k t : R) :
  Normalize.bounds (vmin (polar_unit k)) (vmax (polar_unit k)) (img_axis t)
  = (Some 0, Some 1).
Proof. reflexivity. Qed.

(** For a brightness factor other than 0 and 1 there is a pixel where the
    output is not the colour multiplied by the factor once. *)
Lemma polar_twice_differs (k : R) :
  k <> 0 -> k <> 1 ->
  exists t img' out,
    Normalize.call (Some 0) (Some 1) (img_axis t) = Ok img' /\
    transform (polar_unit k) (img_axis t) None None = Ok out /\
    get out [0; 0; 0]%nat <> polar_scaled_once (polar_unit k) img' [2; 1; 1]%nat [0; 0]%nat 0.
Proof.
  intros Hk0 Hk1.
  set (t := if Rlt_dec 1 k then 1 / (k * k) else 1).
  assert (Ht : 0 < t <= 1).
  { unfold t. destruct (Rlt_dec 1 k) as [H | H]; [| lra].
    assert (1 < k * k) by nra. split.
    - apply Rdiv_lt_0_compat; lra.
    - apply (Rmult_le_reg_r (k * k)); [lra |].
      unfold Rdiv. rewrite Rmult_assoc, Rinv_l by lra. lra. }
  assert (B : bounds_ok (polar_unit k) (img_axis t)).
  { unfold bounds_ok. rewrite bounds_polar_unit. lra. }
  destruct (transform_polar_value (polar_unit k) (img_axis t) [1; 1]%nat)
    as (img' & out & En & Sn & Et & Go);
    [reflexivity | reflexivity | left; reflexivity | exact B |].
  pose proof (Normalize_call_bounds (Some 0) (Some 1) (img_axis t) 0 1
                (bounds_polar_unit k t)) as En'.
  cbn [polar_unit vmin vmax] in En. rewrite En' in En by lra.
  apply Ok_inj in En. subst img'.
  set (img' := np.map (Normalize.rescale 0 1) (img_axis t)) in *.
  exists t, img', out. split; [now apply En'; lra |]. split; [exact Et |].
  assert (G0 : get img' [0; 0; 0]%nat = t).
  { unfold img'. cbn. apply rescale_unit. lra. }
  assert (G1 : get img' [1; 0; 0]%nat = 0).
  { unfold img'. cbn. apply rescale_unit. lra. }
  assert (Hp : in_bounds [0; 0]%nat [1; 1]%nat) by prove_in_bounds.
  assert (Hsh : shape img' = [2; 1; 1]%nat) by reflexivity.
  change [0; 0; 0]%nat with ([0; 0] ++ [0])%nat.
  rewrite (Go [0; 0]%nat 0%nat Hp) by lia.
  unfold polar_scaled_once.
  change (shape (img_axis t)) with (shape img').
  change [2; 1; 1]%nat with (shape img').
  rewrite (polar_fed_axis (polar_unit k) img' [1; 1]%nat [0; 0]%nat Hsh)
    by (first [left; reflexivity | exact Hp | rewrite G0; lra | exact G1]).
  rewrite (polar_fed_axis (with_scale (polar_unit k) 1) img' [1; 1]%nat [0; 0]%nat Hsh)
    by (first [left; reflexivity | exact Hp | rewrite G0; lra | exact G1]).
  cbn [hsv_to_rgb1 matplotlib]. rewrite !mpl_hsv_to_rgb1_red, G0.
  cbn [rgb_channel nth with_scale polar_unit scale].
  unfold t. destruct (Rlt_dec 1 k) as [H | H].
  - assert (Hinv : 0 < / k < 1).
    { split; [apply Rinv_0_lt_compat; lra |].
      rewrite <- Rinv_1. apply Rinv_lt_contravar; lra. }
    replace (k * (1 / (k * k)) * k) with 1 by (field; lra).
    replace (k * (1 * (1 / (k * k)))) with (/ k) by (field; lra).
    rewrite (clip1_id 0 1 1), (clip1_id 0 1 (/ k)) by lra. lra.
  - replace (k * 1 * k) with (k * k) by ring. replace (k * (1 * 1)) with k by ring.
    case_minmax; nra.
Qed.

(** C10, as the code has it.  For every polar input the brightness factor
    is applied twice: the magnitude is multiplied by it before the
    conversion, and the converted colour is multiplied by it again before
    the clip to [0, 1].  With a conversion linear in the value (matplotlib's
    is) the output is the colour at brightness factor 1 multiplied by the
    square of the factor; and for every factor other than 0 and 1 there is
    a pixel where this is not the colour multiplied by the factor once. *)
Theorem polar_scale_applied_twice :
  (forall (M : Matplotlib) (self : Colorize) (img : ndarray) (sp : list nat),
     cmap self = CmapStr "polar" -> shape img = 2%nat :: sp -> spatial sp ->
     bounds_ok self img ->
     exists img' out,
       Normalize.call (vmin self) (vmax self) img = Ok img' /\
       transform self img None None = Ok out /\
       forall p c, in_bounds p sp -> (c < 3)%nat ->
         snd (polar_fed self img' (shape img) p)
           = scale self * sqrt (get img' (0%nat :: p) ^ 2 + get img' (1%nat :: p) ^ 2) /\
         get out (p ++ [c])
           = np.clip1 0 1
               (rgb_channel c (hsv_to_rgb1 (polar_fed self img' (shape img) p))
                * scale self) /\
         (value_linear ->
          get out (p ++ [c])
            = np.clip1 0 1
                (scale self * scale self
                 * rgb_channel c
                     (hsv_to_rgb1 (polar_fed (with_scale self 1) img' (shape img) p))))) /\
  (forall k : R, k <> 0 -> k <> 1 ->
     exists t img' out,
       Normalize.call (Some 0) (Some 1) (img_axis t) = Ok img' /\
       transform (polar_unit k) (img_axis t) None None = Ok out /\
       get out [0; 0; 0]%nat
         <> polar_scaled_once (polar_unit k) img' [2; 1; 1]%nat [0; 0]%nat 0).
Proof.
  split; [| exact polar_twice_differs].
  intros M self img sp Hc Himg Hs B.
  destruct (transform_polar_value self img sp Hc Himg Hs B)
    as (img' & out & En & Sn & Et & Go).
  assert (Himg' : shape img' = 2%nat :: sp) by congruence.
  exists img', out. split; [exact En |]. split; [exact Et |].
  intros p c Hp Hc3. split; [| split].
  - rewrite <- Sn. now rewrite (polar_fed_eq self img' 2 sp p Himg' Hs Hp).
  - exact (Go p c Hp Hc3).
  - intros Hlin. rewrite (Go p c Hp Hc3), <- Sn.
    rewrite (polar_fed_eq self img' 2 sp p Himg' Hs Hp).
    rewrite (polar_fed_eq (with_scale self 1) img' 2 sp p Himg' Hs Hp).
    cbn [with_scale scale]. rewrite Rmult_1_l, Hlin. f_equal. ring.
Qed.

Lemma polar_scale_applied_twice_witness :
  exists t img' out,
    Normalize.call (Some 0) (Some 1) (img_axis t) = Ok img' /\
    transform (polar_unit 2) (img_axis t) None None = Ok out /\
    get out [0; 0; 0]%nat
      <> polar_scaled_once (polar_unit 2) img' [2; 1; 1]%nat [0; 0]%nat 0.
Proof.
  apply (proj2 polar_scale_applied_twice 2); lra.
Defined.

(** C10 as stated fails at the brightness factor 0, which is different from
    1: there the output is 0 at every pixel of every polar image, and so is
    the colour multiplied by the factor once. *)
Lemma polar_scale_zero_is_once :
  ~ (forall k : R, k <> 1 ->
       exists (self : Colorize) (img : ndarray) (sp : list nat) (img' out : ndarray)
              (p : list nat) (c : nat),
         scale self = k /\ cmap self = CmapStr "polar" /\
         shape img = 2%nat :: sp /\ spatial sp /\ bounds_ok self img /\
         Normalize.call (vmin self) (vmax self) img = Ok img' /\
         transform self img None None = Ok out /\
         in_bounds p sp /\ (c < 3)%nat /\
         get out (p ++ [c]) <> polar_scaled_once self img' (shape img) p c).
Proof.
  intros H. destruct (H 0) as (self & img & sp & img' & out & p & c & Hk & Hc & Himg
                               & Hs & B & En & Et & Hp & Hc3 & Hne); [lra |].
  destruct (transform_polar_scale_squared self img sp mpl_value_linear Hc Himg Hs B)
    as (img2 & out2 & En2 & Et2 & Go).
  rewrite En in En2. apply Ok_inj in En2. subst img2.
  rewrite Et in Et2. apply Ok_inj in Et2. subst out2.
  apply Hne. rewrite (Go p c Hp Hc3). unfold polar_scaled_once. rewrite Hk.
  f_equal. ring.
Qed.

(** ** The errors of the checks *)

Section CheckErrors.

Context {M : Matplotlib}.

Lemma _checkMixedDims_valid (self : Colorize) (dims sp d1 : list nat) :
  valid_scheme self dims sp ->
  _checkMixedDims self d1 dims = (c <- np.allclose d1 sp ;; raise_unless c MixedDimsError).
Proof.
  intros V. destruct V as [sp Hc Hs | sp Hc Hs | sp Hc Hs | cl sp Hc Hl Hs
                          | cm sp Hc Hs | name cm sp Hc Hn Hg Hs];
    unfold _checkMixedDims, cmap_in, isinstance_ListedColormap, isinstance_str.
  1-4: rewrite Hc; reflexivity.
  - rewrite Hc. reflexivity.
  - fold (cmap_in self ["rgb"; "hsv"; "polar"; "indexed"]%string).
    rewrite (cmap_in_named self name) by assumption.
    rewrite Hc. reflexivity.
Qed.

(** A mask whose shape is not that of the image's spatial axes: the bare
    exception of [_checkMixedDims]. *)
Theorem mask_shape_mismatch (self : Colorize) (img m : ndarray)
        (background : option ndarray) (sp : list nat) :
  valid_scheme self (shape img) sp -> bounds_ok self img ->
  np.allclose (shape m) sp = Ok false ->
  transform self img (Some m) background = Raise MixedDimsError.
Proof.
  intros V B Hm.
  destruct (Normalize_call_ok self img B) as (img' & En & _ & _).
  unfold transform. rewrite (_checkDims_ok self (shape img) sp V). cbn [bind].
  rewrite En. cbn [bind prepare].
  rewrite (_checkMixedDims_valid self (shape img) sp _ V).
  cbn [_prepareMask np.clip_lo np.map shape]. rewrite Hm. reflexivity.
Qed.

(** The indexed scheme with a number of colours that is not the length of
    the first axis: the exception of [_checkDims]. *)
Theorem indexed_cardinality_mismatch (self : Colorize) (img : ndarray)
        (mask background : option ndarray) (cl : list color) (d : nat) (sp : list nat) :
  cmap self = CmapStr "indexed" -> colors self = Some cl ->
  shape img = d :: sp -> d <> length cl ->
  transform self img mask background = Raise DimsError.
Proof.
  intros Hc Hl Himg Hd.
  unfold transform, _checkDims, cmap_in, len_colors. rewrite Hc, Hl, Himg.
  cbn [existsb String.eqb Ascii.eqb Bool.eqb orb bind dims0].
  destruct (Nat.eqb_spec d (length cl)) as [E | _]; [now elim Hd | reflexivity].
Qed.

End CheckErrors.

Lemma mask_shape_mismatch_witness :
  transform SampleShapes.rgb_unit SampleShapes.img_3_10_10
            (Some SampleShapes.mask_5_5) None = Raise MixedDimsError.
Proof.
  apply (mask_shape_mismatch SampleShapes.rgb_unit SampleShapes.img_3_10_10
           SampleShapes.mask_5_5 None [10; 10]%nat).
  - apply (valid_rgb _ [10; 10]%nat); [reflexivity | left; reflexivity].
  - unfold bounds_ok, Normalize.bounds. cbn [vmin vmax SampleShapes.rgb_unit
                                              Normalize.autoscale_None]. lra.
  - reflexivity.
Defined.

Lemma indexed_cardinality_mismatch_witness :
  transform SampleIndexed.red_green Sample.img312 None None = Raise DimsError.
Proof.
  apply (indexed_cardinality_mismatch SampleIndexed.red_green Sample.img312 None None
           [(1, 0, 0); (0, 1, 0)] 3 [1; 2]%nat).
  - reflexivity.
  - reflexivity.
  - reflexivity.
  - cbn. lia.
Defined.

(** * Further properties of the module *)

(** ** Minimum and maximum of an array *)

Lemma fold_Rmin_le_init (l : list R) (a : R) : fold_left Rmin l a <= a.
Proof.
  revert a. induction l as [| x l IH]; intros a; cbn [fold_left]; [lra |].
  apply Rle_trans with (Rmin a x); [apply IH | apply Rmin_l].
Qed.

Lemma fold_Rmin_le (l : list R) (a x : R) : In x l -> fold_left Rmin l a <= x.
Proof.
  revert a. induction l as [| y l IH]; intros a Hin; [destruct Hin |].
  cbn [fold_left]. destruct Hin as [-> | Hin]; [| now apply IH].
  apply Rle_trans with (Rmin a x); [apply fold_Rmin_le_init | apply Rmin_r].
Qed.

Lemma fold_Rmin_in (l : list R) (a : R) :
  fold_left Rmin l a = a \/ In (fold_left Rmin l a) l.
Proof.
  revert a. induction l as [| y l IH]; intros a; cbn [fold_left]; [now left |].
  destruct (IH (Rmin a y)) as [E | Hin]; [| right; now right].
  rewrite E. unfold Rmin. destruct (Rle_dec a y); [now left | right; now left].
Qed.

Lemma indices_in_bounds (sh idx : list nat) : In idx (indices sh) <-> in_bounds idx sh.
Proof.
  revert idx. induction sh as [| d sh IH]; intros idx; cbn [indices].
  - split.
    + intros [<- | []]. constructor.
    + intros H. inversion H. now left.
  - rewrite in_flat_map. split.
    + intros (i & Hi & Hin). apply in_map_iff in Hin. destruct Hin as (q & <- & Hq).
      apply in_seq in Hi. constructor; [lia | now apply IH].
    + intros H. inversion H as [| i ? q ? Hi Hq]; subst.
      exists i. split; [apply in_seq; lia |]. apply in_map. now apply IH.
Qed.

(** [a.min()] is below every element and is one of them; likewise [a.max()]. *)
Lemma amin_spec (a : ndarray) (lo : R) :
  np.amin a = Some lo ->
  (forall idx, in_bounds idx (shape a) -> lo <= get a idx) /\
  (exists idx, in_bounds idx (shape a) /\ get a idx = lo).
Proof.
  unfold np.amin, elements. intros H.
  destruct (indices (shape a)) as [| i0 rest] eqn:E; [discriminate |].
  cbn [List.map] in H. injection H as <-.
  assert (Hmem : forall idx, in_bounds idx (shape a) <-> idx = i0 \/ In idx rest).
  { intros idx. rewrite <- indices_in_bounds, E. cbn. intuition congruence. }
  split.
  - intros idx Hidx. apply Hmem in Hidx. destruct Hidx as [-> | Hin].
    + apply fold_Rmin_le_init.
    + apply fold_Rmin_le. now apply in_map.
  - destruct (fold_Rmin_in (List.map (get a) rest) (get a i0)) as [Eq | Hin].
    + exists i0. split; [apply Hmem; now left | now rewrite Eq].
    + apply in_map_iff in Hin. destruct Hin as (idx & Eq & Hin).
      exists idx. split; [apply Hmem; now right | exact Eq].
Qed.

Lemma amax_spec (a : ndarray) (hi : R) :
  np.amax a = Some hi ->
  (forall idx, in_bounds idx (shape a) -> get a idx <= hi) /\
  (exists idx, in_bounds idx (shape a) /\ get a idx = hi).
Proof.
  unfold np.amax, elements. intros H.
  destruct (indices (shape a)) as [| i0 rest] eqn:E; [discriminate |].
  cbn [List.map] in H. injection H as <-.
  assert (Hmem : forall idx, in_bounds idx (shape a) <-> idx = i0 \/ In idx rest).
  { intros idx. rewrite <- indices_in_bounds, E. cbn. intuition congruence. }
  split.
  - intros idx Hidx. apply Hmem in Hidx. destruct Hidx as [-> | Hin].
    + apply fold_Rmax_ge_init.
    + apply fold_Rmax_ge. now apply in_map.
  - destruct (fold_Rmax_in (List.map (get a) rest) (get a i0)) as [Eq | Hin].
    + exists i0. split; [apply Hmem; now left | now rewrite Eq].
    + apply in_map_iff in Hin. destruct Hin as (idx & Eq & Hin).
      exists idx. split; [apply Hmem; now right | exact Eq].
Qed.

(** Both are unset together, on an array without elements. *)
Lemma amin_amax_cases (a : ndarray) :
  (np.amin a = None /\ np.amax a = None) \/
  (exists lo hi, np.amin a = Some lo /\ np.amax a = Some hi /\ lo <= hi).
Proof.
  destruct (np.amin a) as [lo |] eqn:El; destruct (np.amax a) as [hi |] eqn:Eh.
  - right. exists lo, hi. split; [reflexivity |]. split; [reflexivity |].
    destruct (amin_spec a lo El) as [Hlo (idx & Hidx & _)].
    destruct (amax_spec a hi Eh) as [Hhi _].
    specialize (Hlo idx Hidx). specialize (Hhi idx Hidx). lra.
  - exfalso. unfold np.amin, np.amax in *. destruct (elements a); discriminate.
  - exfalso. unfold np.amin, np.amax in *. destruct (elements a); discriminate.
  - now left.
Qed.

Lemma bounds_ok_unset (self : Colorize) (img : ndarray) :
  vmin self = None -> vmax self = None -> bounds_ok self img.
Proof.
  intros Hl Hh. unfold bounds_ok, Normalize.bounds, Normalize.autoscale_None.
  rewrite Hl, Hh.
  destruct (amin_amax_cases img) as [[-> ->] | (lo & hi & -> & -> & H)]; [exact I | exact H].
Qed.

(** ** Errors of the dimension check and after it *)

Section DimensionErrors.

Context {M : Matplotlib}.

(** X3.  The rgb and hsv schemes want a first axis of length 3 and the polar
    scheme one of length 2: otherwise [transform] raises the exception of
    [_checkDims], whatever the bounds, the mask and the background are. *)
Theorem wrong_channel_count (self : Colorize) (img : ndarray)
        (mask background : option ndarray) (d n : nat) (rest : list nat) :
  (cmap self = CmapStr "rgb" /\ n = 3%nat) \/
  (cmap self = CmapStr "hsv" /\ n = 3%nat) \/
  (cmap self = CmapStr "polar" /\ n = 2%nat) ->
  shape img = d :: rest -> d <> n ->
  transform self img mask background = Raise DimsError.
Proof.
  intros Hc Himg Hd. unfold transform, _checkDims, cmap_in. rewrite Himg.
  destruct Hc as [[Hc ->] | [[Hc ->] | [Hc ->]]]; rewrite Hc;
    cbn [existsb String.eqb Ascii.eqb Bool.eqb orb bind dims0].
  - destruct (Nat.eqb_spec d 3) as [E | _]; [now elim Hd | reflexivity].
  - destruct (Nat.eqb_spec d 3) as [E | _]; [now elim Hd | reflexivity].
  - destruct (Nat.eqb_spec d 2) as [E | _]; [now elim Hd | reflexivity].
Qed.

(** X4.  A colormap, given as a ListedColormap or by a name that is not a
    keyword, wants an image of two or three axes: otherwise [transform]
    raises the exception of [_checkDims], before the name is looked up. *)
Theorem colormap_rank_error (self : Colorize) (img : ndarray)
        (mask background : option ndarray) :
  (exists cm, cmap self = CmapListed cm) \/
  (exists name, cmap self = CmapStr name /\ ~ In name keywords) ->
  length (shape img) <> 2%nat -> length (shape img) <> 3%nat ->
  transform self img mask background = Raise DimsError.
Proof.
  intros Hc H2 H3. unfold transform, _checkDims.
  assert (Hk : cmap_in self ["rgb"; "hsv"; "polar"; "indexed"]%string = false).
  { destruct Hc as [(cm & Hc) | (name & Hc & Hn)].
    - unfold cmap_in. now rewrite Hc.
    - now apply (cmap_in_named self name). }
  assert (Hi : isinstance_ListedColormap self || isinstance_str self = true).
  { unfold isinstance_ListedColormap, isinstance_str.
    destruct Hc as [(cm & ->) | (name & -> & _)]; reflexivity. }
  rewrite Hk, Hi. cbn [existsb].
  destruct (Nat.eqb_spec (length (shape img)) 2); [contradiction |].
  destruct (Nat.eqb_spec (length (shape img)) 3); [contradiction |].
  reflexivity.
Qed.

Lemma _checkDims_keyword (self : Colorize) (d : nat) (rest : list nat) :
  (cmap self = CmapStr "rgb" /\ d = 3%nat) \/
  (cmap self = CmapStr "hsv" /\ d = 3%nat) \/
  (cmap self = CmapStr "polar" /\ d = 2%nat) \/
  (cmap self = CmapStr "indexed" /\ exists cl, colors self = Some cl /\ d = length cl) ->
  _checkDims self (d :: rest) = Ok tt.
Proof.
  intros Hc. unfold _checkDims, cmap_in, len_colors.
  destruct Hc as [[Hc ->] | [[Hc ->] | [[Hc ->] | [Hc (cl & Hl & ->)]]]]; rewrite Hc.
  1-3: reflexivity.
  rewrite Hl. cbn. now rewrite Nat.eqb_refl.
Qed.

(** X5.  The keyword schemes check the first axis only.  An image with the
    right first axis and a number of spatial axes other than two or three
    passes the check and the normalisation, no branch assigns [out], and
    [transform] ends in UnboundLocalError. *)
Theorem wrong_rank_leaves_out_unbound (self : Colorize) (img : ndarray) (d : nat)
        (rest : list nat) :
  (cmap self = CmapStr "rgb" /\ d = 3%nat) \/
  (cmap self = CmapStr "hsv" /\ d = 3%nat) \/
  (cmap self = CmapStr "polar" /\ d = 2%nat) \/
  (cmap self = CmapStr "indexed" /\ exists cl, colors self = Some cl /\ d = length cl) ->
  shape img = d :: rest -> length rest <> 2%nat -> length rest <> 3%nat ->
  bounds_ok self img ->
  transform self img None None = Raise UnboundLocalError.
Proof.
  intros Hc Himg H2 H3 B.
  destruct (Normalize_call_ok self img B) as (img' & En & Sn & _).
  unfold transform. rewrite Himg, (_checkDims_keyword self d rest Hc). cbn [bind].
  rewrite En. cbn [bind prepare].
  assert (N4 : (ndim img' =? 4)%nat = false).
  { unfold ndim. rewrite Sn, Himg. cbn [length]. apply Nat.eqb_neq. lia. }
  assert (N3 : (ndim img' =? 3)%nat = false).
  { unfold ndim. rewrite Sn, Himg. cbn [length]. apply Nat.eqb_neq. lia. }
  unfold colorize, cmap_is, cmap_in.
  destruct Hc as [[Hc _] | [[Hc _] | [[Hc _] | [Hc (cl & Hl & _)]]]]; rewrite Hc;
    cbn [existsb String.eqb Ascii.eqb Bool.eqb orb].
  - unfold rgb_out. rewrite N4, N3. reflexivity.
  - unfold hsv_out. rewrite N4, N3. reflexivity.
  - unfold polar_out. rewrite N4, N3. reflexivity.
  - unfold indexed_out. rewrite N4, N3, Hl.
    destruct cl as [| clr cl]; reflexivity.
Qed.

(** X6.  A scalar image with a keyword scheme: [dims[0]] raises IndexError. *)
Theorem scalar_image_index_error (self : Colorize) (img : ndarray)
        (mask background : option ndarray) :
  cmap_in self keywords = true -> shape img = [] ->
  transform self img mask background = Raise IndexError.
Proof.
  unfold keywords, transform, _checkDims, cmap_in. intros Hk Himg. rewrite Himg.
  destruct (cmap self) as [name | cm | cm |]; try discriminate.
  rewrite Hk. cbn [existsb orb] in *.
  destruct (String.eqb name "rgb"); [reflexivity |].
  destruct (String.eqb name "hsv"); [reflexivity |].
  destruct (String.eqb name "polar"); [reflexivity |].
  destruct (String.eqb name "indexed"); [reflexivity | discriminate].
Qed.

(** X7.  With both bounds unset the normalisation cannot fail: every image
    of a shape the scheme takes is colorized. *)
Theorem autoscale_never_fails (self : Colorize) (img : ndarray)
        (mask background : option ndarray) (sp : list nat) :
  valid_scheme self (shape img) sp -> vmin self = None -> vmax self = None ->
  fits mask sp -> fits background sp ->
  exists out, transform self img mask background = Ok out /\ shape out = sp ++ [3%nat].
Proof.
  intros V Hl Hh Fm Fb.
  destruct (transform_spec self img mask background sp V (bounds_ok_unset self img Hl Hh) Fm Fb)
    as (img' & raw & out & _ & _ & _ & _ & _ & E & S & _).
  exists out. auto.
Qed.

(** X8.  Bounds set out of order, [vmin > vmax]: once the dimension check
    has passed, [transform] raises the ValueError of [Normalize]. *)
Theorem bounds_out_of_order (self : Colorize) (img : ndarray)
        (mask background : option ndarray) (sp : list nat) (lo hi : R) :
  valid_scheme self (shape img) sp ->
  vmin self = Some lo -> vmax self = Some hi -> hi < lo ->
  transform self img mask background = Raise ValueError.
Proof.
  intros V Hl Hh Hlt. unfold transform.
  rewrite (_checkDims_ok self (shape img) sp V). cbn [bind].
  unfold Normalize.call, Normalize.bounds, Normalize.autoscale_None. rewrite Hl, Hh.
  destruct (Req_dec_T lo hi); [lra |]. destruct (Rlt_dec hi lo); [reflexivity | lra].
Qed.

End DimensionErrors.

Lemma wrong_channel_count_witness :
  transform (Sample.config "hsv" 1) SamplePolar.img_diag None None = Raise DimsError.
Proof.
  apply (wrong_channel_count (Sample.config "hsv" 1) SamplePolar.img_diag None None
           2 3 [1; 2]%nat).
  - right. left. split; reflexivity.
  - reflexivity.
  - lia.
Defined.

Lemma colormap_rank_error_witness :
  transform Colorize_default SampleNumerics.vector None None = Raise DimsError.
Proof.
  apply (colormap_rank_error Colorize_default SampleNumerics.vector None None).
  - right. exists "rainbow"%string. split; [reflexivity |].
    unfold keywords. cbn. intros [H | [H | [H | [H | []]]]]; discriminate H.
  - cbn. lia.
  - cbn. lia.
Defined.

Lemma wrong_rank_leaves_out_unbound_witness :
  transform (Sample.config "rgb" 1) SampleRank.img32 None None = Raise UnboundLocalError.
Proof.
  apply (wrong_rank_leaves_out_unbound (Sample.config "rgb" 1) SampleRank.img32 3 [2]%nat).
  - left. split; reflexivity.
  - reflexivity.
  - cbn. lia.
  - cbn. lia.
  - apply bounds_ok_unset; reflexivity.
Defined.

Lemma scalar_image_index_error_witness :
  transform (Sample.config "polar" 1) SampleRank.scalar5 None None = Raise IndexError.
Proof.
  apply (scalar_image_index_error (Sample.config "polar" 1) SampleRank.scalar5 None None);
    reflexivity.
Defined.

Lemma autoscale_never_fails_witness :
  exists out, transform (Sample.config "polar" 1) SamplePolar.img_down None None = Ok out /\
              shape out = [1; 2; 3]%nat.
Proof.
  apply (autoscale_never_fails (Sample.config "polar" 1) SamplePolar.img_down None None
           [1; 2]%nat).
  - apply (valid_polar _ [1; 2]%nat); [reflexivity | left; reflexivity].
  - reflexivity.
  - reflexivity.
  - exact I.
  - exact I.
Defined.

Lemma bounds_out_of_order_witness :
  transform SampleRank.rgb_reversed Sample.img312 None None = Raise ValueError.
Proof.
  apply (bounds_out_of_order SampleRank.rgb_reversed Sample.img312 None None [1; 2]%nat 1 0).
  - apply (valid_rgb _ [1; 2]%nat); [reflexivity | left; reflexivity].
  - reflexivity.
  - reflexivity.
  - lra.
Defined.

(** ** Pixel by pixel: constant images, hsv and colormaps *)

Section Pixels.

Context {M : Matplotlib}.

Lemma Normalize_call_constant (img : ndarray) (v : R) :
  (forall idx, in_bounds idx (shape img) -> get img idx = v) ->
  Normalize.call None None img = Ok (np.map (fun _ => 0) img).
Proof.
  intros Hv. unfold Normalize.call, Normalize.bounds, Normalize.autoscale_None.
  destruct (np.amin img) as [lo |] eqn:El; destruct (np.amax img) as [hi |] eqn:Eh;
    try reflexivity.
  - destruct (amin_spec img lo El) as [_ (i & Hi & Ei)].
    destruct (amax_spec img hi Eh) as [_ (j & Hj & Ej)].
    rewrite (Hv i Hi) in Ei. rewrite (Hv j Hj) in Ej.
    destruct (Req_dec_T lo hi); [reflexivity | lra].
  - exfalso. destruct (amin_amax_cases img) as [[H _] | (? & ? & _ & H & _)]; congruence.
  - exfalso. destruct (amin_amax_cases img) as [[_ H] | (? & ? & H & _ & _)]; congruence.
Qed.

(** X9.  A constant image with unset bounds is normalised to zeros (the
    bounds coincide): under the rgb scheme, with neither mask nor
    background, the output is black whatever the constant and the scale. *)
Theorem constant_image_is_black (self : Colorize) (img : ndarray) (sp : list nat) (v : R) :
  cmap self = CmapStr "rgb" -> vmin self = None -> vmax self = None ->
  shape img = 3%nat :: sp -> spatial sp ->
  (forall idx, in_bounds idx (shape img) -> get img idx = v) ->
  exists out, transform self img None None = Ok out /\
              shape out = sp ++ [3%nat] /\
              forall p c, in_bounds p sp -> (c < 3)%nat -> get out (p ++ [c]) = 0.
Proof.
  intros Hc Hl Hh Himg Hs Hv.
  assert (V : valid_scheme self (shape img) sp) by (rewrite Himg; now apply valid_rgb).
  destruct (transform_spec self img None None sp V (bounds_ok_unset self img Hl Hh) I I)
    as (img' & raw & out & En & _ & _ & Ec & _ & Et & So & _ & Go).
  rewrite Hl, Hh, (Normalize_call_constant img v Hv) in En.
  apply Ok_inj in En. subst img'.
  destruct (colorize_rgb self (np.map (fun _ => 0) img) sp Hc Himg Hs) as (raw0 & Ec0 & _ & Gr).
  cbn [np.map shape] in Ec, Ec0. rewrite Ec0 in Ec. apply Ok_inj in Ec. injection Ec as ->.
  exists out. split; [exact Et |]. split; [exact So |].
  intros p c Hp Hc3. rewrite (Go p c Hp Hc3), (Gr p c Hp).
  cbn [overlaid masked np.map get]. rewrite Rmult_0_l.
  rewrite (clip1_id 0 1 0) by lra. apply clip1_id. lra.
Qed.

Lemma colorize_hsv (self : Colorize) (img : ndarray) (sp : list nat) :
  cmap self = CmapStr "hsv" -> shape img = 3%nat :: sp -> spatial sp ->
  exists raw, colorize self img (shape img) = Ok (Some raw) /\
              forall p c, in_bounds p sp -> (c < 3)%nat ->
                get raw (p ++ [c]) =
                rgb_channel c (hsv_to_rgb1 (get img (0%nat :: p), get img (1%nat :: p),
                                            get img (2%nat :: p))).
Proof.
  intros Hc Himg Hs. destruct img as [sh g]. cbn [shape] in *. subst sh.
  unfold colorize, cmap_is, cmap_in. rewrite Hc.
  cbn [existsb String.eqb Ascii.eqb Bool.eqb orb].
  unfold hsv_out, ndim.
  two_or_three sp Hs; cbn [shape length Nat.eqb nth];
    (eexists; split; [reflexivity |]); intros p c Hp Hc3.
  - inversion Hp as [| i ? p1 ? _ Hp1]; subst. inversion Hp1 as [| j ? p2 ? _ Hp2]; subst.
    inversion Hp2; subst. reflexivity.
  - inversion Hp as [| i ? p1 ? _ Hp1]; subst. inversion Hp1 as [| j ? p2 ? _ Hp2]; subst.
    inversion Hp2 as [| k ? p3 ? Hk Hp3]; subst. inversion Hp3; subst.
    rewrite fold_put_get by (apply in_seq; cbn; lia).
    reflexivity.
Qed.

(** X10.  The hsv scheme converts each pixel on its own: the normalised
    channels 0, 1 and 2 of the pixel are its H, S and V, for two and for
    three spatial axes alike; the converted colour is then scaled, clipped,
    masked and overlaid. *)
Theorem hsv_converts_each_pixel (self : Colorize) (img : ndarray)
        (mask background : option ndarray) (sp : list nat) :
  cmap self = CmapStr "hsv" -> shape img = 3%nat :: sp -> spatial sp ->
  bounds_ok self img -> fits mask sp -> fits background sp ->
  exists img' out,
    Normalize.call (vmin self) (vmax self) img = Ok img' /\
    transform self img mask background = Ok out /\
    forall p c, in_bounds p sp -> (c < 3)%nat ->
      get out (p ++ [c]) =
      np.clip1 0 1
        (overlaid background p
           (masked mask p
              (np.clip1 0 1
                 (rgb_channel c (hsv_to_rgb1 (get img' (0%nat :: p), get img' (1%nat :: p),
                                              get img' (2%nat :: p)))
                  * scale self)))).
Proof.
  intros Hc Himg Hs B Fm Fb.
  assert (V : valid_scheme self (shape img) sp) by (rewrite Himg; now apply valid_hsv).
  destruct (transform_spec self img mask background sp V B Fm Fb)
    as (img' & raw & out & En & Sn & _ & Ec & _ & Et & _ & _ & Go).
  assert (Himg' : shape img' = 3%nat :: sp) by congruence.
  destruct (colorize_hsv self img' sp Hc Himg' Hs) as (raw0 & Ec0 & Gr).
  rewrite Sn, Ec in Ec0. apply Ok_inj in Ec0. injection Ec0 as <-.
  exists img', out. split; [exact En |]. split; [exact Et |].
  intros p c Hp Hc3. now rewrite (Go p c Hp Hc3), (Gr p c Hp Hc3).
Qed.

Lemma colorize_listed (self : Colorize) (cm : Colormap) (img : ndarray) :
  cmap self = CmapListed cm -> spatial (shape img) ->
  exists raw, colorize self img (shape img) = Ok (Some raw) /\
              forall p c, get raw (p ++ [c]) = rgba_channel c (lookup cm (get img p)).
Proof.
  intros Hc Hs. unfold colorize, cmap_is, cmap_in. rewrite Hc. cbn [existsb].
  unfold listed_out, ndim.
  destruct Hs as [H | H]; rewrite H; cbn [Nat.eqb];
    (eexists; split; [reflexivity |]); intros p c;
    cbn [np.slice03 Colormap_call get]; now rewrite last_last, removelast_last.
Qed.

(** X11.  A ListedColormap is looked up at each normalised value and the
    alpha of the colour is dropped: the output has the red, green and blue
    of the lookup, scaled, clipped, masked and overlaid. *)
Theorem colormap_lookup_drops_alpha (self : Colorize) (cm : Colormap) (img : ndarray)
        (mask background : option ndarray) :
  cmap self = CmapListed cm -> spatial (shape img) -> bounds_ok self img ->
  fits mask (shape img) -> fits background (shape img) ->
  exists img' out,
    Normalize.call (vmin self) (vmax self) img = Ok img' /\
    transform self img mask background = Ok out /\
    shape out = shape img ++ [3%nat] /\
    forall p c, in_bounds p (shape img) -> (c < 3)%nat ->
      get out (p ++ [c]) =
      np.clip1 0 1
        (overlaid background p
           (masked mask p
              (np.clip1 0 1 (rgba_channel c (lookup cm (get img' p)) * scale self)))).
Proof.
  intros Hc Hs B Fm Fb.
  assert (V : valid_scheme self (shape img) (shape img)) by now apply (valid_listed self cm).
  destruct (transform_spec self img mask background (shape img) V B Fm Fb)
    as (img' & raw & out & En & Sn & _ & Ec & _ & Et & So & _ & Go).
  assert (Hs' : spatial (shape img')) by now rewrite Sn.
  destruct (colorize_listed self cm img' Hc Hs') as (raw0 & Ec0 & Gr).
  rewrite Sn, Ec in Ec0. apply Ok_inj in Ec0. injection Ec0 as <-.
  exists img', out. split; [exact En |]. split; [exact Et |]. split; [exact So |].
  intros p c Hp Hc3. now rewrite (Go p c Hp Hc3), Gr.
Qed.

Lemma colorize_named (self : Colorize) (name : string) (cm : Colormap) (img : ndarray) :
  cmap self = CmapStr name -> ~ In name keywords -> get_cmap name = Some cm ->
  spatial (shape img) ->
  exists raw, colorize self img (shape img) = Ok (Some raw) /\
              forall p c, get raw (p ++ [c]) = rgba_channel c (lookup cm (get img p)).
Proof.
  intros Hc Hn Hg Hs. unfold colorize.
  rewrite !(cmap_is_named self name) by (first [assumption | unfold keywords; simpl; tauto]).
  rewrite Hc. unfold named_out. rewrite Hg. unfold ndim.
  destruct Hs as [H | H]; rewrite H; cbn [Nat.eqb];
    (eexists; split; [reflexivity |]); intros p c;
    cbn [np.slice03 Colormap_call get]; now rewrite last_last, removelast_last.
Qed.

(** X12.  A colormap given by a registered name that is not a keyword is
    looked up by [get_cmap] and applied to the normalised image, whatever
    the class of the colormap: the output has the red, green and blue of
    the lookup (the alpha is dropped), scaled, clipped, masked and overlaid.
    The same colormap given as an object that is not a ListedColormap is
    refused on the same input: the name reaches colormaps that the object
    does not. *)
Theorem named_colormap_looks_up_each_pixel (self : Colorize) (name : string)
        (cm : Colormap) (img : ndarray) (mask background : option ndarray) :
  cmap self = CmapStr name -> ~ In name keywords -> get_cmap name = Some cm ->
  spatial (shape img) -> bounds_ok self img ->
  fits mask (shape img) -> fits background (shape img) ->
  exists img' out,
    Normalize.call (vmin self) (vmax self) img = Ok img' /\
    transform self img mask background = Ok out /\
    shape out = shape img ++ [3%nat] /\
    (forall p c, in_bounds p (shape img) -> (c < 3)%nat ->
       get out (p ++ [c]) =
       np.clip1 0 1
         (overlaid background p
            (masked mask p
               (np.clip1 0 1 (rgba_channel c (lookup cm (get img' p)) * scale self))))) /\
    transform (with_cmap self (CmapSegmented cm)) img mask background
      = Raise NotUnderstood.
Proof.
  intros Hc Hn Hg Hs B Fm Fb.
  assert (V : valid_scheme self (shape img) (shape img))
    by now apply (valid_named self name cm).
  destruct (transform_spec self img mask background (shape img) V B Fm Fb)
    as (img' & raw & out & En & Sn & _ & Ec & _ & Et & So & _ & Go).
  assert (Hs' : spatial (shape img')) by now rewrite Sn.
  destruct (colorize_named self name cm img' Hc Hn Hg Hs') as (raw0 & Ec0 & Gr).
  rewrite Sn, Ec in Ec0. apply Ok_inj in Ec0. injection Ec0 as <-.
  exists img', out. split; [exact En |]. split; [exact Et |]. split; [exact So |].
  split.
  - intros p c Hp Hc3. now rewrite (Go p c Hp Hc3), Gr.
  - unfold transform.
    cbn [with_cmap vmin vmax scale _checkDims cmap_in cmap isinstance_ListedColormap
         isinstance_str orb bind].
    rewrite En. cbn [bind].
    assert (Ep : forall m, prepare (with_cmap self (CmapSegmented cm)) (shape img) m
                           = Ok (option_map _prepareMask m)).
    { intros [m |]; reflexivity. }
    rewrite !Ep. cbn [bind]. reflexivity.
Qed.

End Pixels.

Lemma constant_image_is_black_witness :
  exists out, transform (Sample.config "rgb" 2) SampleHsv.img_flat None None = Ok out /\
              shape out = [1; 2; 3]%nat /\
              forall p c, in_bounds p [1; 2]%nat -> (c < 3)%nat -> get out (p ++ [c]) = 0.
Proof.
  apply (constant_image_is_black (Sample.config "rgb" 2) SampleHsv.img_flat [1; 2]%nat 7).
  - reflexivity.
  - reflexivity.
  - reflexivity.
  - reflexivity.
  - left. reflexivity.
  - intros idx Hidx.
    inversion Hidx as [| c ? p1 ? Hc Hp1]; subst. inversion Hp1 as [| i ? p2 ? Hi Hp2]; subst.
    inversion Hp2 as [| j ? p3 ? Hj Hp3]; subst. inversion Hp3; subst.
    destruct c as [| [| [| c]]]; [| | | lia]; (destruct i; [| lia]);
      (destruct j as [| [| j]]; [| | lia]); reflexivity.
Defined.

Lemma hsv_converts_each_pixel_witness :
  exists img' out,
    Normalize.call None None SampleHsv.img_hsv = Ok img' /\
    transform (Sample.config "hsv" 1) SampleHsv.img_hsv None None = Ok out /\
    forall p c, in_bounds p [1; 2]%nat -> (c < 3)%nat ->
      get out (p ++ [c]) =
      np.clip1 0 1
        (overlaid None p
           (masked None p
              (np.clip1 0 1
                 (rgb_channel c (hsv_to_rgb1 (get img' (0%nat :: p), get img' (1%nat :: p),
                                              get img' (2%nat :: p)))
                  * 1)))).
Proof.
  apply (hsv_converts_each_pixel (Sample.config "hsv" 1) SampleHsv.img_hsv None None
           [1; 2]%nat).
  - reflexivity.
  - reflexivity.
  - left. reflexivity.
  - apply bounds_ok_unset; reflexivity.
  - exact I.
  - exact I.
Defined.

Lemma colormap_lookup_drops_alpha_witness :
  exists img' out,
    Normalize.call None None SampleHsv.img_gray = Ok img' /\
    transform (with_cmap (Sample.config "gray" 1) (CmapListed (mpl.from_list_blend (1, 1, 1))))
              SampleHsv.img_gray None None = Ok out /\
    shape out = [1; 2; 3]%nat /\
    forall p c, in_bounds p [1; 2]%nat -> (c < 3)%nat ->
      get out (p ++ [c]) =
      np.clip1 0 1
        (overlaid None p
           (masked None p
              (np.clip1 0 1
                 (rgba_channel c (lookup (mpl.from_list_blend (1, 1, 1)) (get img' p)) * 1)))).
Proof.
  apply (colormap_lookup_drops_alpha
           (with_cmap (Sample.config "gray" 1) (CmapListed (mpl.from_list_blend (1, 1, 1))))
           (mpl.from_list_blend (1, 1, 1)) SampleHsv.img_gray None None).
  - reflexivity.
  - left. reflexivity.
  - apply bounds_ok_unset; reflexivity.
  - exact I.
  - exact I.
Defined.

Lemma named_colormap_looks_up_each_pixel_witness :
  exists img' out,
    Normalize.call None None SampleHsv.img_gray = Ok img' /\
    transform (Sample.config "gray" 1) SampleHsv.img_gray None None = Ok out /\
    shape out = shape SampleHsv.img_gray ++ [3%nat] /\
    (forall p c, in_bounds p (shape SampleHsv.img_gray) -> (c < 3)%nat ->
       get out (p ++ [c]) =
       np.clip1 0 1
         (overlaid None p
            (masked None p
               (np.clip1 0 1
                  (rgba_channel c (lookup (mpl.from_list_blend (1, 1, 1)) (get img' p))
                   * 1))))) /\
    transform (with_cmap (Sample.config "gray" 1)
                 (CmapSegmented (mpl.from_list_blend (1, 1, 1))))
              SampleHsv.img_gray None None
      = Raise NotUnderstood.
Proof.
  apply (named_colormap_looks_up_each_pixel (Sample.config "gray" 1) "gray"
           (mpl.from_list_blend (1, 1, 1)) SampleHsv.img_gray None None).
  - reflexivity.
  - unfold keywords. cbn. intros [H | [H | [H | [H | []]]]]; discriminate H.
  - reflexivity.
  - left. reflexivity.
  - apply bounds_ok_unset; reflexivity.
  - exact I.
  - exact I.
Defined.

(** ** What a mask and a background do *)

Section MaskEffects.

Context {M : Matplotlib}.

(** X13.  Where the mask is zero or negative the colorized image is blacked
    out: the output there is the background alone (clipped below at 0 and
    above at 1), and 0 without a background. *)
Theorem mask_off_shows_background (self : Colorize) (img m : ndarray)
        (background : option ndarray) (sp : list nat) :
  valid_scheme self (shape img) sp -> bounds_ok self img ->
  shape m = sp -> fits background sp ->
  exists out, transform self img (Some m) background = Ok out /\
    forall p c, in_bounds p sp -> (c < 3)%nat -> get m p <= 0 ->
      get out (p ++ [c]) = np.clip1 0 1 (overlaid background p 0).
Proof.
  intros V B Fm Fb.
  destruct (transform_spec self img (Some m) background sp V B Fm Fb)
    as (img' & raw & out & _ & _ & _ & _ & _ & Et & _ & _ & Go).
  exists out. split; [exact Et |].
  intros p c Hp Hc Hm. rewrite (Go p c Hp Hc). cbn [masked]. unfold multiply.
  replace (np.clip_lo1 0 (get m p)) with 0 by (case_minmax; lra).
  now rewrite Rmult_0_r.
Qed.

(** X14.  A mask equal to 1 and a background equal to 0 change nothing: at
    every such pixel the output is the output without mask and background. *)
Theorem unit_mask_zero_background (self : Colorize) (img m b : ndarray) (sp : list nat) :
  valid_scheme self (shape img) sp -> bounds_ok self img ->
  shape m = sp -> shape b = sp ->
  exists out plain,
    transform self img (Some m) (Some b) = Ok out /\
    transform self img None None = Ok plain /\
    forall p c, in_bounds p sp -> (c < 3)%nat -> get m p = 1 -> get b p = 0 ->
      get out (p ++ [c]) = get plain (p ++ [c]).
Proof.
  intros V B Fm Fb.
  destruct (transform_spec self img (Some m) (Some b) sp V B Fm Fb)
    as (img' & raw & out & En & _ & _ & Ec & _ & Et & _ & _ & Go).
  destruct (transform_spec self img None None sp V B I I)
    as (img2 & raw2 & plain & En2 & _ & _ & Ec2 & _ & Et2 & _ & _ & Gp).
  rewrite En in En2. apply Ok_inj in En2. subst img2.
  rewrite Ec in Ec2. apply Ok_inj in Ec2. injection Ec2 as <-.
  exists out, plain. split; [exact Et |]. split; [exact Et2 |].
  intros p c Hp Hc Hm Hb. rewrite (Go p c Hp Hc), (Gp p c Hp Hc).
  cbn [overlaid masked]. unfold multiply, add. rewrite Hm, Hb.
  replace (np.clip_lo1 0 1) with 1 by (case_minmax; lra).
  replace (np.clip_lo1 0 0) with 0 by (case_minmax; lra).
  now rewrite Rmult_1_r, Rplus_0_r.
Qed.

End MaskEffects.

Lemma mask_off_shows_background_witness :
  exists out, transform (Sample.config "rgb" 1) Sample.img312
                        (Some SampleHsv.mask_off) None = Ok out /\
    forall p c, in_bounds p [1; 2]%nat -> (c < 3)%nat -> get SampleHsv.mask_off p <= 0 ->
      get out (p ++ [c]) = np.clip1 0 1 (overlaid None p 0).
Proof.
  apply (mask_off_shows_background (Sample.config "rgb" 1) Sample.img312
           SampleHsv.mask_off None [1; 2]%nat).
  - apply (valid_rgb _ [1; 2]%nat); [reflexivity | left; reflexivity].
  - apply bounds_ok_unset; reflexivity.
  - reflexivity.
  - exact I.
Defined.

Lemma unit_mask_zero_background_witness :
  exists out plain,
    transform (Sample.config "rgb" 1) Sample.img312
              (Some SampleHsv.ones12) (Some SampleHsv.zeros12) = Ok out /\
    transform (Sample.config "rgb" 1) Sample.img312 None None = Ok plain /\
    forall p c, in_bounds p [1; 2]%nat -> (c < 3)%nat ->
      get SampleHsv.ones12 p = 1 -> get SampleHsv.zeros12 p = 0 ->
      get out (p ++ [c]) = get plain (p ++ [c]).
Proof.
  apply (unit_mask_zero_background (Sample.config "rgb" 1) Sample.img312
           SampleHsv.ones12 SampleHsv.zeros12 [1; 2]%nat).
  - apply (valid_rgb _ [1; 2]%nat); [reflexivity | left; reflexivity].
  - apply bounds_ok_unset; reflexivity.
  - reflexivity.
  - reflexivity.
Defined.

(** ** The hues the polar scheme can give *)

Lemma mod1_small (m x : R) : 0 < m -> 0 <= x < m -> np.mod1 m x = x.
Proof.
  intros Hm [H1 H2]. unfold np.mod1.
  assert (E : Zfloor (x / m) = 0%Z).
  { apply Zfloor_eq. simpl. split.
    - apply Rmult_le_pos; [lra | left; apply Rinv_0_lt_compat; lra].
    - apply (Rmult_lt_reg_r m); [exact Hm |].
      unfold Rdiv. rewrite Rmult_assoc, Rinv_l by lra. lra. }
  rewrite E. simpl. ring.
Qed.

(** The hue of a pixel whose components are not negative, as normalised
    components are: 0 on the first axis, and otherwise in the last quarter
    of the colour wheel, the origin at 3/4. *)
Lemma polar_hue_cases (c0 c1 : R) :
  0 <= c0 -> 0 <= c1 ->
  let h := np.mod1 (PI * 2) (np.arctan2_1 (- c0) (- c1) + PI / 2) / (2 * PI) in
  (h = 0 /\ 0 < c0 /\ c1 = 0) \/
  (3 / 4 <= h < 1 /\ ~ (0 < c0 /\ c1 = 0) /\ (c0 = 0 -> h = 3 / 4)).
Proof.
  intros H0 H1 h. pose proof PI_RGT_0 as Hpi.
  assert (Hdiv : forall x, x / (2 * PI) * (2 * PI) = x).
  { intros x. unfold Rdiv. rewrite Rmult_assoc, Rinv_l by lra. ring. }
  assert (Hq : forall a, 0 <= a < PI / 2 ->
             let t := np.mod1 (PI * 2) (a - PI + PI / 2) / (2 * PI) in
             3 / 4 <= t < 1 /\ (a = 0 -> t = 3 / 4)).
  { intros a [A1 A2] t. unfold t.
    rewrite mod1_negative_turn by lra.
    split; [split |].
    - apply (Rmult_le_reg_r (2 * PI)); [lra |]. rewrite Hdiv. lra.
    - apply (Rmult_lt_reg_r (2 * PI)); [lra |]. rewrite Hdiv. lra.
    - intros ->. apply (Rmult_eq_reg_r (2 * PI)); [| lra]. rewrite Hdiv. lra. }
  destruct (Rle_lt_or_eq_dec 0 c1 H1) as [P1 | Z1].
  - (* c1 > 0: to the left of the vertical axis *)
    right.
    assert (Hr : 0 <= - c0 / - c1).
    { replace (- c0 / - c1) with (c0 / c1) by (field; lra).
      apply Rmult_le_pos; [lra | left; apply Rinv_0_lt_compat; lra]. }
    assert (Ha : 0 <= atan (- c0 / - c1)).
    { destruct Hr as [Hr | <-]; [| rewrite atan_0; lra].
      left. rewrite <- atan_0. now apply atan_increasing. }
    pose proof (atan_bound (- c0 / - c1)) as [_ Hb].
    unfold h. rewrite arctan2_1_left by lra.
    destruct (Hq (atan (- c0 / - c1))) as [Hrange Hat]; [lra |].
    split; [exact Hrange |]. split; [lra |].
    intros E. apply Hat. subst c0.
    replace (- 0 / - c1) with 0 by (field; lra). apply atan_0.
  - subst c1. destruct (Rle_lt_or_eq_dec 0 c0 H0) as [P0 | Z0].
    + left. split; [| split; [exact P0 | reflexivity]].
      unfold h. rewrite (arctan2_1_down _ P0).
      replace (- (PI / 2) + PI / 2) with 0 by lra.
      rewrite mod1_zero. unfold Rdiv. ring.
    + subst c0. right. unfold h. rewrite arctan2_1_origin.
      destruct (Hq 0) as [Hrange Hat]; [lra |].
      replace (0 - PI + PI / 2) with (- PI + PI / 2) in Hrange, Hat by lra.
      split; [exact Hrange |]. split; [lra |]. intros _. now apply Hat.
Qed.

(** X15.  The polar scheme computes the hue from the normalised components,
    which are not negative.  So the hue given to the conversion is 0 for a
    pixel on the first axis (first component positive, second 0), and for
    every other pixel it lies in the last quarter of the colour wheel,
    [3/4, 1); it is 3/4 where the first component is 0, the origin (value 0)
    included.  Three quarters of the hues are never used. *)
Theorem polar_hue_range (M : Matplotlib) (self : Colorize) (img : ndarray) (sp : list nat) :
  cmap self = CmapStr "polar" -> shape img = 2%nat :: sp -> spatial sp ->
  bounds_ok self img ->
  exists img' raw,
    Normalize.call (vmin self) (vmax self) img = Ok img' /\
    colorize self img' (shape img) = Ok (Some raw) /\
    forall p, in_bounds p sp ->
      let fed := polar_fed self img' (shape img) p in
      let h := fst (fst fed) in
      (forall c, (c < 3)%nat -> get raw (p ++ [c]) = rgb_channel c (hsv_to_rgb1 fed)) /\
      ((h = 0 /\ 0 < get img' (0%nat :: p) /\ get img' (1%nat :: p) = 0) \/
       (3 / 4 <= h < 1 /\
        ~ (0 < get img' (0%nat :: p) /\ get img' (1%nat :: p) = 0) /\
        (get img' (0%nat :: p) = 0 -> h = 3 / 4))).
Proof.
  intros Hc Himg Hs B.
  destruct (Normalize_call_ok self img B) as (img' & En & Sn & Rn).
  assert (Himg' : shape img' = 2%nat :: sp) by congruence.
  destruct (colorize_polar self img' sp Hc Himg' Hs) as (raw & Er & _ & Gr).
  exists img', raw. rewrite <- Sn.
  split; [exact En |]. split; [exact Er |].
  intros p Hp. cbv zeta. split.
  { intros c Hc3. now apply Gr. }
  rewrite (polar_fed_eq self img' 2 sp p Himg' Hs Hp). cbn [fst snd].
  apply polar_hue_cases; apply Rn.
Qed.

Lemma polar_hue_range_witness :
  exists img' raw,
    Normalize.call None None SamplePolar.img_diag = Ok img' /\
    colorize (Sample.config "polar" 1) img' [2; 1; 2]%nat = Ok (Some raw) /\
    forall p, in_bounds p [1; 2]%nat ->
      let fed := polar_fed (Sample.config "polar" 1) img' [2; 1; 2]%nat p in
      let h := fst (fst fed) in
      (forall c, (c < 3)%nat -> get raw (p ++ [c]) = rgb_channel c (hsv_to_rgb1 fed)) /\
      ((h = 0 /\ 0 < get img' (0%nat :: p) /\ get img' (1%nat :: p) = 0) \/
       (3 / 4 <= h < 1 /\
        ~ (0 < get img' (0%nat :: p) /\ get img' (1%nat :: p) = 0) /\
        (get img' (0%nat :: p) = 0 -> h = 3 / 4))).
Proof.
  apply (polar_hue_range matplotlib (Sample.config "polar" 1) SamplePolar.img_diag
           [1; 2]%nat).
  - reflexivity.
  - reflexivity.
  - left. reflexivity.
  - apply bounds_ok_unset; reflexivity.
Defined.

(** ** Automatic bounds make the output independent of offset and gain *)

Lemma fold_Rmin_monotone (f : R -> R) (l : list R) (a : R) :
  (forall x y, x <= y -> f x <= f y) ->
  fold_left Rmin (List.map f l) (f a) = f (fold_left Rmin l a).
Proof.
  intros Hf. revert a. induction l as [| x l IH]; intros a; cbn [List.map fold_left].
  - reflexivity.
  - rewrite <- IH. f_equal. unfold Rmin.
    destruct (Rle_dec a x) as [L | L], (Rle_dec (f a) (f x)) as [L' | L'];
      try reflexivity.
    + elim L'. now apply Hf.
    + apply Rle_antisym; [exact L' | apply Hf; lra].
Qed.

Lemma fold_Rmax_monotone (f : R -> R) (l : list R) (a : R) :
  (forall x y, x <= y -> f x <= f y) ->
  fold_left Rmax (List.map f l) (f a) = f (fold_left Rmax l a).
Proof.
  intros Hf. revert a. induction l as [| x l IH]; intros a; cbn [List.map fold_left].
  - reflexivity.
  - rewrite <- IH. f_equal. unfold Rmax.
    destruct (Rle_dec a x) as [L | L], (Rle_dec (f a) (f x)) as [L' | L'];
      try reflexivity.
    + elim L'. now apply Hf.
    + apply Rle_antisym; [apply Hf; lra | exact L'].
Qed.

Lemma elements_map (f : R -> R) (a : ndarray) :
  elements (np.map f a) = List.map f (elements a).
Proof. unfold elements, np.map. cbn [shape get]. now rewrite List.map_map. Qed.

Lemma amin_monotone (f : R -> R) (a : ndarray) :
  (forall x y, x <= y -> f x <= f y) ->
  np.amin (np.map f a) = option_map f (np.amin a).
Proof.
  intros Hf. unfold np.amin. rewrite elements_map.
  destruct (elements a) as [| x xs]; cbn [List.map option_map]; [reflexivity |].
  now rewrite fold_Rmin_monotone.
Qed.

Lemma amax_monotone (f : R -> R) (a : ndarray) :
  (forall x y, x <= y -> f x <= f y) ->
  np.amax (np.map f a) = option_map f (np.amax a).
Proof.
  intros Hf. unfold np.amax. rewrite elements_map.
  destruct (elements a) as [| x xs]; cbn [List.map option_map]; [reflexivity |].
  now rewrite fold_Rmax_monotone.
Qed.

Lemma Rmax_affine (k b x y : R) :
  0 < k -> Rmax (k * x + b) (k * y + b) = k * Rmax x y + b.
Proof.
  intros Hk. unfold Rmax.
  destruct (Rle_dec x y), (Rle_dec (k * x + b) (k * y + b)); nra.
Qed.

Lemma Rmin_affine (k b x y : R) :
  0 < k -> Rmin (k * x + b) (k * y + b) = k * Rmin x y + b.
Proof.
  intros Hk. unfold Rmin.
  destruct (Rle_dec x y), (Rle_dec (k * x + b) (k * y + b)); nra.
Qed.

Lemma rescale_affine (k b lo hi x : R) :
  0 < k -> lo < hi ->
  Normalize.rescale (k * lo + b) (k * hi + b) (k * x + b) = Normalize.rescale lo hi x.
Proof.
  intros Hk Hlh. unfold Normalize.rescale, np.clip1.
  rewrite Rmax_affine, Rmin_affine by exact Hk.
  assert (k * lo < k * hi) by now apply Rmult_lt_compat_l.
  field. split; lra.
Qed.

(** With automatic bounds, normalisation removes a positive gain and an
    offset. *)
Lemma Normalize_call_affine (k b : R) (img : ndarray) :
  0 < k ->
  Normalize.call None None (np.map (fun x => k * x + b) img) =
  Normalize.call None None img.
Proof.
  intros Hk.
  assert (Hf : forall x y, x <= y -> k * x + b <= k * y + b) by (intros; nra).
  unfold Normalize.call, Normalize.bounds, Normalize.autoscale_None.
  rewrite (amin_monotone _ img Hf), (amax_monotone _ img Hf).
  destruct (amin_amax_cases img) as [[-> ->] | (lo & hi & -> & -> & Hlh)];
    cbn [option_map]; [reflexivity |].
  destruct (Req_dec_T lo hi) as [E | NE].
  - subst hi. destruct (Req_dec_T (k * lo + b) (k * lo + b)); [reflexivity | lra].
  - destruct (Req_dec_T (k * lo + b) (k * hi + b)) as [E' | _]; [nra |].
    destruct (Rlt_dec hi lo); [lra |].
    destruct (Rlt_dec (k * hi + b) (k * lo + b)); [nra |].
    f_equal. unfold np.map. cbn [shape get]. f_equal.
    apply functional_extensionality. intros idx. apply rescale_affine; lra.
Qed.

(** X16.  With [vmin] and [vmax] unset the image is scaled by its own minimum
    and maximum, so a positive gain and an offset of the data do not show:
    [transform] of [k * img + b] with [k > 0] is [transform] of [img], for
    every scheme, mask and background, the result being an array or an
    exception (in exact arithmetic). *)
Theorem autoscale_removes_gain_and_offset (M : Matplotlib) (self : Colorize)
        (img : ndarray) (mask background : option ndarray) (k b : R) :
  vmin self = None -> vmax self = None -> 0 < k ->
  transform self (np.map (fun x => k * x + b) img) mask background =
  transform self img mask background.
Proof.
  intros Hlo Hhi Hk. unfold transform. rewrite Hlo, Hhi.
  rewrite (Normalize_call_affine k b img Hk). reflexivity.
Qed.

Lemma autoscale_removes_gain_and_offset_witness :
  transform (Sample.config "rgb" 1) (np.map (fun x => 2 * x + 1) Sample.img312)
            (Some Sample.mask12) None =
  transform (Sample.config "rgb" 1) Sample.img312 (Some Sample.mask12) None.
Proof.
  apply (autoscale_removes_gain_and_offset matplotlib (Sample.config "rgb" 1)
           Sample.img312 (Some Sample.mask12) None 2 1).
  - reflexivity.
  - reflexivity.
  - lra.
Defined.

(** ** The shape check on a mask, as [allclose] makes it *)

Lemma isclose_exact (a b : nat) :
  (Z.of_nat b < 100000)%Z -> np.isclose a b = true -> a = b.
Proof. unfold np.isclose. intros Hb H. apply Z.leb_le in H. lia. Qed.

Lemma all2_exact (d1 d2 : list nat) :
  length d1 = length d2 -> Forall (fun d => (Z.of_nat d < 100000)%Z) d2 ->
  np.all2 d1 d2 = true -> d1 = d2.
Proof.
  revert d2. induction d1 as [| a d1 IH]; intros [| b d2] Hl Hall H;
    try discriminate; [reflexivity |].
  cbn [np.all2] in H. apply andb_prop in H. destruct H as [Hab H].
  inversion Hall as [| ? ? Hb Hall']; subst.
  f_equal; [now apply isclose_exact | apply IH; auto].
Qed.

Lemma isclose_off_by_one (n : nat) :
  (100000 <= Z.of_nat n)%Z -> np.isclose (S n) n = true.
Proof. intros H. unfold np.isclose. apply Z.leb_le. lia. Qed.

Lemma broadcast_rev_last_mismatch (s : list nat) (a b : nat) :
  a <> b -> a <> 1%nat -> b <> 1%nat ->
  np.broadcast_rev (s ++ [a]) (s ++ [b]) = None.
Proof.
  intros Hab Ha Hb. induction s as [| x s IH].
  - cbn. destruct (Nat.eqb_spec a b); [contradiction |].
    destruct (Nat.eqb_spec a 1); [contradiction |].
    destruct (Nat.eqb_spec b 1); [contradiction | reflexivity].
  - cbn [app np.broadcast_rev].
    destruct s; cbn [app np.broadcast_rev] in *; now rewrite IH.
Qed.

(** [blend] fails in the ufunc when the first axis of the mask is not that
    of the image. *)
Lemma blend_first_axis_mismatch (sp' : list nat) (a b : nat) (op : R -> R -> R)
      (img mask : ndarray) :
  spatial (a :: sp') -> shape img = (a :: sp') ++ [3%nat] -> shape mask = b :: sp' ->
  a <> b -> a <> 1%nat -> b <> 1%nat ->
  blend img mask op = Raise ValueError.
Proof.
  intros Hsp Himg Hmask Hab Ha Hb.
  assert (Hk : blend img mask op =
               for_each (range 3) (blend_plane (length (a :: sp')) op mask) img).
  { unfold blend, ndim. rewrite Hmask. unfold spatial in Hsp. cbn [length] in *.
    destruct Hsp as [H | H]; rewrite H; reflexivity. }
  rewrite Hk. unfold range. cbn [seq for_each].
  unfold blend_plane, np.take_checked.
  rewrite (checked_last (a :: sp') 0 img Himg) by lia. cbn [bind].
  unfold np.ufunc2. rewrite (take_last_shape (a :: sp') 3 0 img Himg), Hmask.
  unfold np.broadcast_shapes. cbn [rev].
  rewrite (broadcast_rev_last_mismatch (rev sp') a b Hab Ha Hb). reflexivity.
Qed.

Section ShapeCheck.

Context {M : Matplotlib}.

(** X17.  A mask whose number of axes is not that of the image's spatial
    axes (and is not 1) does not reach the exception of [_checkMixedDims]:
    [allclose] cannot broadcast the two shape tuples and [transform] ends in
    numpy's ValueError. *)
Theorem mask_of_other_rank (self : Colorize) (img m : ndarray)
        (background : option ndarray) (sp : list nat) :
  valid_scheme self (shape img) sp -> bounds_ok self img ->
  length (shape m) <> length sp -> length (shape m) <> 1%nat ->
  transform self img (Some m) background = Raise ValueError.
Proof.
  intros V B Hr H1. pose proof (valid_scheme_spatial _ _ _ V) as Hs.
  destruct (Normalize_call_ok self img B) as (img' & En & _ & _).
  unfold transform. rewrite (_checkDims_ok self (shape img) sp V). cbn [bind].
  rewrite En. cbn [bind prepare].
  rewrite (_checkMixedDims_valid self (shape img) sp _ V).
  cbn [_prepareMask np.clip_lo np.map shape]. unfold np.allclose.
  destruct (Nat.eqb_spec (length (shape m)) (length sp)) as [E | _]; [contradiction |].
  destruct (Nat.eqb_spec (length (shape m)) 1) as [E | _]; [contradiction |].
  destruct (Nat.eqb_spec (length sp) 1) as [E | _]; [| reflexivity].
  destruct Hs as [H | H]; rewrite H in E; discriminate.
Qed.

(** X18.  Below 100000 the check by [allclose] is exact: a mask with as many
    axes as the image has spatial axes, each spatial axis shorter than
    100000, and a shape other than the spatial shape makes [transform] raise
    the exception of [_checkMixedDims]. *)
Theorem mask_shape_check_exact (self : Colorize) (img m : ndarray)
        (background : option ndarray) (sp : list nat) :
  valid_scheme self (shape img) sp -> bounds_ok self img ->
  length (shape m) = length sp ->
  Forall (fun d => (Z.of_nat d < 100000)%Z) sp ->
  shape m <> sp ->
  transform self img (Some m) background = Raise MixedDimsError.
Proof.
  intros V B Hl Hsmall Hne.
  destruct (Normalize_call_ok self img B) as (img' & En & _ & _).
  unfold transform. rewrite (_checkDims_ok self (shape img) sp V). cbn [bind].
  rewrite En. cbn [bind prepare].
  rewrite (_checkMixedDims_valid self (shape img) sp _ V).
  cbn [_prepareMask np.clip_lo np.map shape]. unfold np.allclose.
  rewrite Hl, Nat.eqb_refl. cbn [bind].
  destruct (np.all2 (shape m) sp) eqn:E; [| reflexivity].
  elim Hne. now apply all2_exact.
Qed.

(** X19.  From 100000 on the check is not exact: the relative tolerance of
    [allclose] lets a mask pass whose first axis is one longer than the
    image's first spatial axis, of length 100000 or more.  The mask then
    fails in [blend], and [transform] ends in numpy's ValueError instead of
    the exception of [_checkMixedDims]. *)
Theorem mask_shape_check_tolerance (self : Colorize) (img m : ndarray)
        (background : option ndarray) (n : nat) (sp' : list nat) :
  valid_scheme self (shape img) (n :: sp') -> bounds_ok self img ->
  (100000 <= Z.of_nat n)%Z -> shape m = S n :: sp' ->
  fits background (n :: sp') ->
  _checkMixedDims self (shape m) (shape img) = Ok tt /\
  transform self img (Some m) background = Raise ValueError.
Proof.
  intros V B Hn Hm Fb. pose proof (valid_scheme_spatial _ _ _ V) as Hs.
  destruct (Normalize_call_ok self img B) as (img' & En & Sn & _).
  destruct (colorize_ok self img' (shape img) (n :: sp') V Sn) as (raw & Ec & Sc).
  assert (Hck : _checkMixedDims self (shape m) (shape img) = Ok tt).
  { rewrite (_checkMixedDims_valid self (shape img) (n :: sp') _ V).
    rewrite Hm. unfold np.allclose. cbn [length]. rewrite Nat.eqb_refl.
    cbn [np.all2]. rewrite (isclose_off_by_one n Hn), all2_refl. reflexivity. }
  split; [exact Hck |].
  unfold transform. rewrite (_checkDims_ok self (shape img) (n :: sp') V). cbn [bind].
  rewrite En. cbn [bind prepare].
  change (shape (_prepareMask m)) with (shape m). rewrite Hck. cbn [bind].
  rewrite (prepare_ok self (shape img) (n :: sp') background V Fb). cbn [bind].
  rewrite Ec. cbn [bind bound blend_if].
  rewrite (blend_first_axis_mismatch sp' n (S n) multiply _ (_prepareMask m)); try lia.
  - reflexivity.
  - exact Hs.
  - exact Sc.
  - exact Hm.
Qed.

End ShapeCheck.

Lemma mask_of_other_rank_witness :
  transform SampleShapes.rgb_unit SampleShapes.img_3_10_10
            (Some SampleCheck.mask_2_5_5) None = Raise ValueError.
Proof.
  apply (mask_of_other_rank SampleShapes.rgb_unit SampleShapes.img_3_10_10
           SampleCheck.mask_2_5_5 None [10; 10]%nat).
  - apply (valid_rgb _ [10; 10]%nat); [reflexivity | left; reflexivity].
  - unfold bounds_ok, Normalize.bounds. cbn [vmin vmax SampleShapes.rgb_unit
                                              Normalize.autoscale_None]. lra.
  - cbn. lia.
  - cbn. lia.
Defined.

Lemma mask_shape_check_exact_witness :
  transform SampleShapes.rgb_unit SampleShapes.img_3_10_10
            (Some SampleShapes.mask_5_5) None = Raise MixedDimsError.
Proof.
  apply (mask_shape_check_exact SampleShapes.rgb_unit SampleShapes.img_3_10_10
           SampleShapes.mask_5_5 None [10; 10]%nat).
  - apply (valid_rgb _ [10; 10]%nat); [reflexivity | left; reflexivity].
  - unfold bounds_ok, Normalize.bounds. cbn [vmin vmax SampleShapes.rgb_unit
                                              Normalize.autoscale_None]. lra.
  - reflexivity.
  - repeat constructor.
  - cbn. discriminate.
Defined.

Lemma mask_shape_check_tolerance_witness :
  _checkMixedDims SampleShapes.rgb_unit (shape SampleCheck.mask_longer)
                  (shape SampleCheck.img_long) = Ok tt /\
  transform SampleShapes.rgb_unit SampleCheck.img_long
            (Some SampleCheck.mask_longer) None = Raise ValueError.
Proof.
  apply (mask_shape_check_tolerance SampleShapes.rgb_unit SampleCheck.img_long
           SampleCheck.mask_longer None SampleCheck.long [1%nat]).
  - apply (valid_rgb _ [SampleCheck.long; 1%nat]); [reflexivity | left; reflexivity].
  - unfold bounds_ok, Normalize.bounds. cbn [vmin vmax SampleShapes.rgb_unit
                                              Normalize.autoscale_None]. lra.
  - unfold SampleCheck.long. rewrite Z2Nat.id; lia.
  - reflexivity.
  - exact I.
Defined.

(** ** [blend] on its own *)

Lemma checked_last_channel (sp : list nat) (ch i : nat) (a : ndarray) :
  shape a = sp ++ [ch] ->
  ((length sp <? ndim a)%nat && (i <? nth (length sp) (shape a) 0%nat)%nat) = (i <? ch)%nat.
Proof.
  intros H. unfold ndim. rewrite H, nth_length_app, length_app. cbn [length].
  replace (length sp <? length sp + 1)%nat with true; [reflexivity |].
  symmetry. apply Nat.ltb_lt. lia.
Qed.

Lemma blend_plane_channel (sp : list nat) (ch : nat) (op : R -> R -> R)
      (img mask : ndarray) (i : nat) :
  shape img = sp ++ [ch] -> shape mask = sp -> (i < ch)%nat ->
  exists img', blend_plane (length sp) op mask img i = Ok img' /\
               shape img' = sp ++ [ch] /\
               forall p c, in_bounds p sp ->
                 get img' (p ++ [c]) =
                 if (c =? i)%nat then op (get img (p ++ [i])) (get mask p)
                 else get img (p ++ [c]).
Proof.
  intros Himg Hmask Hi. unfold blend_plane, np.take_checked, np.put_checked.
  rewrite (checked_last_channel sp ch i img Himg).
  apply Nat.ltb_lt in Hi. rewrite Hi. cbn [bind].
  unfold np.ufunc2. rewrite (take_last_shape sp ch i img Himg), Hmask.
  rewrite broadcast_shapes_same. cbn [bind].
  set (v := mkarr sp _).
  destruct (broadcast_to_same v) as (v' & Hv' & Hsh & Hget).
  change (shape v) with sp in Hv', Hsh, Hget. rewrite Hv'. cbn [bind].
  eexists. split; [reflexivity |]. split; [exact Himg |].
  intros p c Hp. pose proof (in_bounds_length _ _ Hp) as Hlen.
  rewrite put_last_get by exact Hlen.
  destruct (c =? i)%nat; [| reflexivity].
  rewrite Hget by exact Hp. unfold v. cbn [get].
  rewrite operand_index_in_bounds by exact Hp.
  now rewrite take_last_get.
Qed.

Lemma blend_plane_no_channel (sp : list nat) (ch : nat) (op : R -> R -> R)
      (img mask : ndarray) (i : nat) :
  shape img = sp ++ [ch] -> (ch <= i)%nat ->
  blend_plane (length sp) op mask img i = Raise IndexError.
Proof.
  intros Himg Hi. unfold blend_plane, np.take_checked.
  rewrite (checked_last_channel sp ch i img Himg).
  apply Nat.ltb_ge in Hi. rewrite Hi. reflexivity.
Qed.

Lemma blend_loop (sp : list nat) (op : R -> R -> R) (img mask : ndarray) :
  spatial sp -> shape mask = sp ->
  blend img mask op = for_each (range 3) (blend_plane (length sp) op mask) img.
Proof.
  intros Hsp Hmask. unfold blend, ndim. rewrite Hmask.
  destruct Hsp as [H | H]; rewrite H; reflexivity.
Qed.

(** X20.  [blend] with a mask of the spatial shape, on an array with a last
    axis of three or more channels: the first three channels are combined
    with the mask by [op], pixel by pixel, and every further channel (an
    alpha channel, say) is returned as it was. *)
Theorem blend_changes_three_channels (sp : list nat) (ch : nat) (op : R -> R -> R)
        (img mask : ndarray) :
  spatial sp -> shape img = sp ++ [ch] -> (3 <= ch)%nat -> shape mask = sp ->
  exists out, blend img mask op = Ok out /\
              shape out = shape img /\
              forall p c, in_bounds p sp ->
                get out (p ++ [c]) =
                if (c <? 3)%nat then op (get img (p ++ [c])) (get mask p)
                else get img (p ++ [c]).
Proof.
  intros Hsp Himg Hch Hmask.
  rewrite (blend_loop sp op img mask Hsp Hmask). unfold range. cbn [seq for_each].
  destruct (blend_plane_channel sp ch op img mask 0 Himg Hmask) as (i0 & E0 & S0 & G0);
    [lia |].
  rewrite E0. cbn [bind].
  destruct (blend_plane_channel sp ch op i0 mask 1 S0 Hmask) as (i1 & E1 & S1 & G1);
    [lia |].
  rewrite E1. cbn [bind].
  destruct (blend_plane_channel sp ch op i1 mask 2 S1 Hmask) as (i2 & E2 & S2 & G2);
    [lia |].
  rewrite E2. cbn [bind].
  exists i2. split; [reflexivity |]. split; [congruence |].
  intros p c Hp.
  rewrite (G2 p c Hp), (G1 p c Hp), (G1 p 2%nat Hp), (G0 p c Hp), (G0 p 1%nat Hp),
    (G0 p 2%nat Hp).
  destruct c as [| [| [| c]]]; reflexivity.
Qed.

Lemma blend_changes_three_channels_witness :
  exists out, blend (np.ones [1; 2; 4]%nat) Sample.mask12 multiply = Ok out /\
              shape out = shape (np.ones [1; 2; 4]%nat) /\
              forall p c, in_bounds p [1; 2]%nat ->
                get out (p ++ [c]) =
                if (c <? 3)%nat
                then multiply (get (np.ones [1; 2; 4]%nat) (p ++ [c])) (get Sample.mask12 p)
                else get (np.ones [1; 2; 4]%nat) (p ++ [c]).
Proof.
  apply (blend_changes_three_channels [1; 2]%nat 4 multiply (np.ones [1; 2; 4]%nat)
           Sample.mask12).
  - left. reflexivity.
  - reflexivity.
  - lia.
  - reflexivity.
Defined.

(** X21.  [blend] on an array with fewer than three channels on its last
    axis raises IndexError: the loop always runs over the channels 0, 1
    and 2. *)
Theorem blend_needs_three_channels (sp : list nat) (ch : nat) (op : R -> R -> R)
        (img mask : ndarray) :
  spatial sp -> shape img = sp ++ [ch] -> (ch < 3)%nat -> shape mask = sp ->
  blend img mask op = Raise IndexError.
Proof.
  intros Hsp Himg Hch Hmask.
  rewrite (blend_loop sp op img mask Hsp Hmask). unfold range. cbn [seq for_each].
  destruct ch as [| ch].
  { rewrite (blend_plane_no_channel sp 0 op img mask 0 Himg) by lia. reflexivity. }
  destruct (blend_plane_channel sp (S ch) op img mask 0 Himg Hmask) as (i0 & E0 & S0 & _);
    [lia |].
  rewrite E0. cbn [bind].
  destruct ch as [| ch].
  { rewrite (blend_plane_no_channel sp 1 op i0 mask 1 S0) by lia. reflexivity. }
  destruct (blend_plane_channel sp (S (S ch)) op i0 mask 1 S0 Hmask) as (i1 & E1 & S1 & _);
    [lia |].
  rewrite E1. cbn [bind].
  rewrite (blend_plane_no_channel sp (S (S ch)) op i1 mask 2 S1) by lia. reflexivity.
Qed.

Lemma blend_needs_three_channels_witness :
  blend (np.ones [1; 2; 2]%nat) Sample.mask12 multiply = Raise IndexError.
Proof.
  apply (blend_needs_three_channels [1; 2]%nat 2 multiply (np.ones [1; 2; 2]%nat)
           Sample.mask12).
  - left. reflexivity.
  - reflexivity.
  - lia.
  - reflexivity.
Defined.

(** ** What [optimize] returns *)

Lemma flat_map_singleton {A B : Type} (f : A -> B) (l : list A) :
  flat_map (fun x => [f x]) l = List.map f l.
Proof. induction l as [| x l IH]; cbn; [reflexivity | now rewrite IH]. Qed.

Lemma indices_vector (m : nat) : indices [m] = List.map (fun i => [i]) (seq 0 m).
Proof. cbn [indices List.map]. apply flat_map_singleton. Qed.

Lemma flat_map_length_const {A B : Type} (f : A -> list B) (k : nat) (l : list A) :
  (forall x, length (f x) = k) -> length (flat_map f l) = (length l * k)%nat.
Proof.
  intros H. induction l as [| x l IH]; cbn [flat_map length]; [reflexivity |].
  rewrite length_app, H, IH. lia.
Qed.

Lemma indices_rows_of_three (n : nat) : length (indices [n; 3%nat]) = (n * 3)%nat.
Proof.
  change (indices [n; 3%nat])
    with (flat_map (fun i => List.map (cons i) (indices [3%nat])) (seq 0 n)).
  rewrite (flat_map_length_const _ 3); [now rewrite length_seq |].
  intros x. reflexivity.
Qed.

Lemma size_vector (a : ndarray) (m : nat) : shape a = [m] -> np.size a = m.
Proof.
  intros H. unfold np.size. rewrite H, indices_vector, length_map. apply length_seq.
Qed.

Lemma flatten_vector (a : ndarray) (m k : nat) :
  shape a = [m] -> (k < m)%nat -> get (np.flatten a) [k] = get a [k].
Proof.
  intros H Hk. unfold np.flatten. cbn [get nth]. rewrite H, indices_vector.
  rewrite (nth_indep _ [] [0%nat]) by (rewrite length_map, length_seq; exact Hk).
  rewrite (map_nth (fun i => [i])), seq_nth by exact Hk. reflexivity.
Qed.

(** [x.reshape(n, 3).tolist()] of a vector of [n * 3] numbers: [n] rows of
    three successive numbers. *)
Lemma reshape_rows_of_three (res : ndarray) (n : nat) :
  shape res = [(n * 3)%nat] ->
  exists r, np.reshape res [n; 3%nat] = Ok r /\
            length (np.tolist r) = n /\
            forall i, (i < n)%nat ->
              nth i (np.tolist r) [] =
              [get res [(i * 3)%nat]; get res [(i * 3 + 1)%nat]; get res [(i * 3 + 2)%nat]].
Proof.
  intros Hres. unfold np.reshape.
  rewrite (size_vector res _ Hres), indices_rows_of_three, Nat.eqb_refl.
  set (r := mkarr [n; 3%nat] _). exists r. split; [reflexivity |].
  set (row := fun i => List.map (fun j => get r [i; j]) (seq 0 3)).
  assert (Et : np.tolist r = List.map row (seq 0 n)) by reflexivity.
  rewrite Et. split.
  - now rewrite length_map, length_seq.
  - intros i Hi.
    rewrite (nth_indep _ [] (row 0%nat)) by (rewrite length_map, length_seq; exact Hi).
    rewrite (map_nth row), seq_nth by exact Hi.
    unfold row, r. cbn [seq List.map get np.ravel Nat.add].
    replace ((0 * n + i) * 3 + 0)%nat with (i * 3)%nat by lia.
    replace ((0 * n + i) * 3 + 1)%nat with (i * 3 + 1)%nat by lia.
    replace ((0 * n + i) * 3 + 2)%nat with (i * 3 + 2)%nat by lia.
    rewrite !(flatten_vector res (n * 3)) by (try exact Hres; lia).
    reflexivity.
Qed.

Section OptimizeResult.

Context {M : Matplotlib} {N : Numerics}.

(** X22.  On an array of [n] rows (two or more axes), when [pdist] accepts
    the data and the solver returns a vector of [n * 3] numbers, [optimize]
    returns one colour per row of the data: colour [i] is the three
    successive entries [3i], [3i + 1], [3i + 2] of the solver's vector.
    With [asCmap] the same list is wrapped in a ListedColormap. *)
Theorem optimize_one_colour_per_row (mat : ndarray) (asCmap : bool)
        (log : list library_call) (n m : nat) (rest : list nat) (d res : ndarray) :
  shape mat = n :: m :: rest ->
  pdist_cosine mat = Some d ->
  minimize (optFunc (np.flatten (squareform d)) n) (random_rand (n * 3))
           (List.map (fun _ => (0, 1)) (range (n * 3))) = Some res ->
  shape res = [(n * 3)%nat] ->
  exists newClrs,
    snd (optimize mat asCmap log) =
      Ok (if asCmap then PaletteCmap (new_ListedColormap newClrs)
          else PaletteColors newClrs) /\
    length newClrs = n /\
    forall i, (i < n)%nat ->
      nth i newClrs [] =
      [get res [(i * 3)%nat]; get res [(i * 3 + 1)%nat]; get res [(i * 3 + 2)%nat]].
Proof.
  intros Hsh Hp Hmin Hres.
  destruct (reshape_rows_of_three res n Hres) as (r & Er & Hlen & Hrows).
  exists (np.tolist r). split; [| split; [exact Hlen | exact Hrows]].
  unfold optimize, ndim. rewrite Hsh. cbn [length Nat.ltb Nat.leb nth].
  unfold lbind, lcall, lret. rewrite Hp, Hmin, Er. reflexivity.
Qed.

End OptimizeResult.

Lemma optimize_one_colour_per_row_witness :
  exists newClrs,
    snd (@optimize matplotlib SampleNumerics.instance SampleNumerics.matrix false []) =
      Ok (if false then PaletteCmap (new_ListedColormap newClrs)
          else PaletteColors newClrs) /\
    length newClrs = 2%nat /\
    forall i, (i < 2)%nat ->
      nth i newClrs [] =
      [get (np.zeros [6%nat]) [(i * 3)%nat]; get (np.zeros [6%nat]) [(i * 3 + 1)%nat];
       get (np.zeros [6%nat]) [(i * 3 + 2)%nat]].
Proof.
  apply (@optimize_one_colour_per_row matplotlib SampleNumerics.instance
           SampleNumerics.matrix false [] 2 2 [] (np.zeros [1%nat]) (np.zeros [6%nat])).
  - reflexivity.
  - reflexivity.
  - reflexivity.
  - reflexivity.
Defined.

(** ** [_prepareBackground] *)

(** X23.  [_prepareBackground] never raises and keeps the shape; what it
    returns lies in [0, 1].  When the array is not constant it is the array
    scaled linearly by its own extent, [(x - min) / (max - min)]; a constant
    or empty array gives zeros. *)
Theorem prepareBackground_scales_to_unit (background : ndarray) :
  exists b',
    _prepareBackground background = Ok b' /\
    shape b' = shape background /\
    (forall idx, 0 <= get b' idx <= 1) /\
    (forall lo hi, np.amin background = Some lo -> np.amax background = Some hi ->
       lo < hi ->
       forall idx, in_bounds idx (shape background) ->
         get b' idx = (get background idx - lo) / (hi - lo)) /\
    ((np.amin background = np.amax background) -> forall idx, get b' idx = 0).
Proof.
  unfold _prepareBackground.
  destruct (Normalize_call_ok Colorize_default background) as (b' & E & S & Rg).
  { apply bounds_ok_unset; reflexivity. }
  cbn [vmin vmax Colorize_default] in E.
  exists b'. split; [exact E |]. split; [exact S |]. split; [exact Rg |]. split.
  - intros lo hi Hlo Hhi Hlt idx Hidx.
    assert (Eb : Normalize.bounds None None background = (Some lo, Some hi)).
    { unfold Normalize.bounds. now rewrite Hlo, Hhi. }
    rewrite (Normalize_call_bounds None None background lo hi Eb Hlt) in E.
    apply Ok_inj in E. subst b'. cbn [np.map get].
    unfold Normalize.rescale. rewrite clip1_id; [reflexivity |].
    split.
    + now apply (proj1 (amin_spec background lo Hlo)).
    + now apply (proj1 (amax_spec background hi Hhi)).
  - intros Heq idx. revert E.
    unfold Normalize.call, Normalize.bounds, Normalize.autoscale_None. rewrite Heq.
    destruct (np.amax background) as [v |].
    + destruct (Req_dec_T v v) as [_ | Hne]; [| now elim Hne].
      intros E. apply Ok_inj in E. subst b'. reflexivity.
    + intros E. apply Ok_inj in E. subst b'. reflexivity.
Qed.

(** ** A one-dimensional mask *)

(** One plane of [blend] with a mask of one axis on a square image: numpy
    broadcasts the mask along the rows. *)
Lemma blend_plane_row (n : nat) (op : R -> R -> R) (img mask : ndarray) (i : nat) :
  shape img = [n; n; 3%nat] -> shape mask = [n] -> (i < 3)%nat ->
  exists img', blend_plane 2 op mask img i = Ok img' /\
               shape img' = [n; n; 3%nat] /\
               forall a b c, (a < n)%nat -> (b < n)%nat ->
                 get img' [a; b; c] =
                 if (c =? i)%nat then op (get img [a; b; i]) (get mask [b])
                 else get img [a; b; c].
Proof.
  intros Himg Hmask Hi.
  destruct img as [sh g], mask as [shm gm]. cbn [shape] in Himg, Hmask. subst sh shm.
  unfold blend_plane, np.take_checked, np.put_checked, ndim.
  cbn [shape length nth Nat.ltb Nat.leb andb].
  assert (Hi' : (i <=? 2)%nat = true) by (apply Nat.leb_le; lia).
  rewrite Hi'. cbn [bind].
  unfold np.ufunc2, np.take. cbn [shape firstn skipn app].
  unfold np.broadcast_shapes. cbn [rev app np.broadcast_rev].
  rewrite Nat.eqb_refl. cbn [option_map rev app bind].
  set (v := mkarr [n; n] _).
  destruct (broadcast_to_same v) as (v' & Hv' & Hsh & Hget).
  change (shape v) with [n; n] in Hv', Hsh, Hget. rewrite Hv'. cbn [bind].
  eexists. split; [reflexivity |]. split; [reflexivity |].
  intros a b c Ha Hb. unfold np.put. cbn [get nth firstn skipn app].
  destruct (c =? i)%nat; [| reflexivity].
  rewrite Hget by (unfold in_bounds; repeat (apply Forall2_cons; [assumption |]);
                   apply Forall2_nil).
  unfold v. cbn [get]. unfold np.operand_index.
  cbn [length Nat.sub skipn np.squash firstn app].
  destruct (Nat.eqb_spec n 1) as [E | _]; [| reflexivity].
  replace a with 0%nat by lia. replace b with 0%nat by lia. reflexivity.
Qed.

Lemma blend_row (n : nat) (op : R -> R -> R) (img mask : ndarray) :
  shape img = [n; n; 3%nat] -> shape mask = [n] ->
  exists img', blend img mask op = Ok img' /\
               shape img' = [n; n; 3%nat] /\
               forall a b c, (a < n)%nat -> (b < n)%nat -> (c < 3)%nat ->
                 get img' [a; b; c] = op (get img [a; b; c]) (get mask [b]).
Proof.
  intros Himg Hmask. unfold blend, ndim. rewrite Hmask. cbn [length Nat.eqb].
  unfold range. cbn [seq for_each].
  destruct (blend_plane_row n op img mask 0 Himg Hmask) as (i0 & E0 & S0 & G0); [lia |].
  rewrite E0. cbn [bind].
  destruct (blend_plane_row n op i0 mask 1 S0 Hmask) as (i1 & E1 & S1 & G1); [lia |].
  rewrite E1. cbn [bind].
  destruct (blend_plane_row n op i1 mask 2 S1 Hmask) as (i2 & E2 & S2 & G2); [lia |].
  rewrite E2. cbn [bind].
  exists i2. split; [reflexivity |]. split; [exact S2 |].
  intros a b c Ha Hb Hc.
  rewrite (G2 a b c Ha Hb), (G1 a b c Ha Hb), (G1 a b 2%nat Ha Hb), (G0 a b c Ha Hb),
    (G0 a b 1%nat Ha Hb), (G0 a b 2%nat Ha Hb).
  destruct c as [| [| [| c]]]; simpl; try reflexivity. lia.
Qed.

Section RowMask.

Context {M : Matplotlib}.

(** X24.  On a square image ([n] by [n] pixels) a mask of one axis of length
    [n] passes the shape check, since [allclose] broadcasts the mask's shape
    against the image's, and numpy then broadcasts the mask along the rows:
    every pixel [(a, b)] is multiplied by the mask's entry [b] (clipped below
    at 0), before the background is added. *)
Theorem mask_of_one_axis_masks_columns (self : Colorize) (img m : ndarray)
        (background : option ndarray) (n : nat) :
  valid_scheme self (shape img) [n; n] -> bounds_ok self img ->
  shape m = [n] -> fits background [n; n] ->
  exists img' raw out,
    Normalize.call (vmin self) (vmax self) img = Ok img' /\
    colorize self img' (shape img) = Ok (Some raw) /\
    transform self img (Some m) background = Ok out /\
    shape out = [n; n; 3%nat] /\
    forall a b c, (a < n)%nat -> (b < n)%nat -> (c < 3)%nat ->
      get out [a; b; c] =
      np.clip1 0 1
        (overlaid background [a; b]
           (np.clip1 0 1 (get raw [a; b; c] * scale self) * np.clip_lo1 0 (get m [b]))).
Proof.
  intros V B Hm Fb. pose proof (valid_scheme_spatial _ _ _ V) as Hs.
  destruct (Normalize_call_ok self img B) as (img' & En & Sn & Rn).
  destruct (colorize_ok self img' (shape img) [n; n] V Sn) as (raw & Ec & Sc).
  set (scaled := np.clip (np.mul_scalar raw (scale self)) 0 1).
  assert (Ss : shape scaled = [n; n; 3%nat]) by exact Sc.
  assert (Hpm : shape (_prepareMask m) = [n]) by exact Hm.
  destruct (blend_row n multiply scaled (_prepareMask m) Ss Hpm) as (o1 & E1 & S1 & G1).
  destruct (blend_if_ok [n; n] add o1 background Hs S1 Fb) as (o2 & E2 & S2 & G2).
  exists img', raw, (np.clip o2 0 1).
  split; [exact En |]. split; [exact Ec |]. split; [| split; [exact S2 |]].
  - unfold transform. rewrite (_checkDims_ok self (shape img) [n; n] V). cbn [bind].
    rewrite En. cbn [bind prepare].
    rewrite (_checkMixedDims_valid self (shape img) [n; n] _ V).
    rewrite Hpm. unfold np.allclose. cbn [length Nat.eqb hd forallb].
    rewrite isclose_refl. cbn [andb bind raise_unless].
    rewrite (prepare_ok self (shape img) [n; n] background V Fb). cbn [bind].
    rewrite Ec. cbn [bind bound blend_if]. fold scaled.
    rewrite E1. cbn [bind]. rewrite E2. reflexivity.
  - intros a b c Ha Hb Hc. cbn [np.clip np.map get].
    assert (Hp : in_bounds [a; b] [n; n]).
    { unfold in_bounds. repeat (apply Forall2_cons; [assumption |]). apply Forall2_nil. }
    change [a; b; c] with ([a; b] ++ [c]).
    rewrite (G2 [a; b] c Hp Hc). cbn [app].
    rewrite (G1 a b c Ha Hb Hc).
    unfold overlaid, scaled, _prepareMask, multiply.
    cbn [np.clip np.clip_lo np.mul_scalar np.map get].
    destruct background; reflexivity.
Qed.

End RowMask.

Lemma mask_of_one_axis_masks_columns_witness :
  exists img' raw out,
    Normalize.call None None (np.zeros [3; 2; 2]%nat) = Ok img' /\
    colorize (Sample.config "rgb" 1) img' [3; 2; 2]%nat = Ok (Some raw) /\
    transform (Sample.config "rgb" 1) (np.zeros [3; 2; 2]%nat)
              (Some (np.ones [2%nat])) None = Ok out /\
    shape out = [2; 2; 3]%nat /\
    forall a b c, (a < 2)%nat -> (b < 2)%nat -> (c < 3)%nat ->
      get out [a; b; c] =
      np.clip1 0 1
        (overlaid None [a; b]
           (np.clip1 0 1 (get raw [a; b; c] * 1) * np.clip_lo1 0 (get (np.ones [2%nat]) [b]))).
Proof.
  apply (mask_of_one_axis_masks_columns (Sample.config "rgb" 1) (np.zeros [3; 2; 2]%nat)
           (np.ones [2%nat]) None 2).
  - apply (valid_rgb _ [2; 2]%nat); [reflexivity | left; reflexivity].
  - apply bounds_ok_unset; reflexivity.
  - reflexivity.
  - exact I.
Defined.

(** ** Values outside the bounds *)

Lemma rescale_clipped (lo hi x : R) :
  lo <= hi -> Normalize.rescale lo hi (np.clip1 lo hi x) = Normalize.rescale lo hi x.
Proof. intros H. unfold Normalize.rescale. now rewrite clip1_idem. Qed.

(** With both bounds set, normalisation does not see what lies outside
    them. *)
Lemma Normalize_call_clipped (lo hi : R) (img : ndarray) :
  Normalize.call (Some lo) (Some hi) (np.clip img lo hi) =
  Normalize.call (Some lo) (Some hi) img.
Proof.
  unfold Normalize.call, Normalize.bounds, Normalize.autoscale_None.
  destruct (Req_dec_T lo hi) as [E | NE]; [reflexivity |].
  destruct (Rlt_dec hi lo) as [L | L]; [reflexivity |].
  f_equal. unfold np.clip, np.map. cbn [shape get]. f_equal.
  apply functional_extensionality. intros idx. apply rescale_clipped. lra.
Qed.

(** X25.  With [vmin] and [vmax] both set, values of the image outside the
    bounds saturate: [transform] of the image clipped to [vmin, vmax] is
    [transform] of the image, for every scheme, mask and background, the
    result being an array or an exception. *)
Theorem values_outside_bounds_saturate (M : Matplotlib) (self : Colorize)
        (img : ndarray) (mask background : option ndarray) (lo hi : R) :
  vmin self = Some lo -> vmax self = Some hi ->
  transform self (np.clip img lo hi) mask background =
  transform self img mask background.
Proof.
  intros Hlo Hhi. unfold transform. rewrite Hlo, Hhi.
  rewrite (Normalize_call_clipped lo hi img). reflexivity.
Qed.

(** With the bounds 0 and 1 the 3 x 1 x 2 image that holds -1 and 3 is
    colorized, and these two values come out as 0 and 1. *)
Lemma values_outside_bounds_reach_output :
  get SampleCheck.img_wide [0; 0; 0]%nat = -1 /\
  get SampleCheck.img_wide [2; 0; 0]%nat = 3 /\
  exists out,
    transform SampleShapes.rgb_unit SampleCheck.img_wide None None = Ok out /\
    get out [0; 0; 0]%nat = 0 /\ get out [0; 0; 2]%nat = 1.
Proof.
  split; [reflexivity |]. split; [reflexivity |].
  destruct (transform_rgb_value SampleShapes.rgb_unit SampleCheck.img_wide None None
              [1; 2]%nat 0 1) as (out & Et & _ & G); try reflexivity.
  - left. reflexivity.
  - lra.
  - exists out. split; [exact Et |].
    assert (Hp : in_bounds [0; 0]%nat [1; 2]%nat) by prove_in_bounds.
    split.
    + change [0; 0; 0]%nat with ([0; 0] ++ [0])%nat. rewrite (G _ _ Hp) by lia.
      cbn [overlaid masked scale SampleShapes.rgb_unit].
      change (get SampleCheck.img_wide [0; 0; 0]%nat) with (-1).
      rewrite rescale_below by lra. rewrite Rmult_0_l.
      rewrite !(clip1_id 0 1 0) by lra. reflexivity.
    + change [0; 0; 2]%nat with ([0; 0] ++ [2])%nat. rewrite (G _ _ Hp) by lia.
      cbn [overlaid masked scale SampleShapes.rgb_unit].
      change (get SampleCheck.img_wide [2; 0; 0]%nat) with 3.
      replace (Normalize.rescale 0 1 3) with 1
        by (unfold Normalize.rescale; case_minmax; lra).
      rewrite Rmult_1_l. rewrite !(clip1_id 0 1 1) by lra. reflexivity.
Qed.

Lemma values_outside_bounds_saturate_witness :
  transform SampleShapes.rgb_unit (np.clip SampleCheck.img_wide 0 1) None None =
    transform SampleShapes.rgb_unit SampleCheck.img_wide None None /\
  get SampleCheck.img_wide [0; 0; 0]%nat = -1 /\
  get SampleCheck.img_wide [2; 0; 0]%nat = 3 /\
  exists out,
    transform SampleShapes.rgb_unit SampleCheck.img_wide None None = Ok out /\
    get out [0; 0; 0]%nat = 0 /\ get out [0; 0; 2]%nat = 1.
Proof.
  split; [| exact values_outside_bounds_reach_output].
  apply (values_outside_bounds_saturate matplotlib SampleShapes.rgb_unit
           SampleCheck.img_wide None None 0 1).
  - reflexivity.
  - reflexivity.
Defined.
